(** * Greyhound session handler: the read command factory and the read pipeline

    A shallow embedding of the two translation units of the node addon,

      - [session-handler/addon/read-command.cpp]: [getStride], the
        [ReadCommand] constructor, [schemaOrDefault], [setNumPoints], the
        three [run] methods and [ReadCommandFactory::create];
      - [session-handler/addon/pdal-bindings.cpp]: [PdalBindings::read]
        with its three libuv callbacks, and [PdalBindings::cancel].

    C++ [std::size_t] values are integers in [Z] with the wrap-around of
    a 64-bit unsigned type written out, JavaScript numbers are IEEE 754
    doubles (Rocq's primitive floats), JavaScript values are an inductive
    type, and the libuv work queue is a step function on a machine state
    that records every externally visible effect in a trace. *)

From stdpp Require Import base list.
From Stdlib Require Import ZArith List String Ascii Bool Lia Floats DecimalString.
From Stdlib Require DecimalFacts DecimalPos.
Import ListNotations.
Local Open Scope Z_scope.

(** ** Machine integers *)

Module SizeT.

(** [std::size_t] on the LP64 targets the addon is built for. *)
Definition bits : Z := 64.
Definition modulus : Z := 2 ^ bits.
Definition max : Z := modulus - 1.

Definition wrap (z : Z) : Z := z mod modulus.
Definition add (a b : Z) : Z := wrap (a + b).
Definition mul (a b : Z) : Z := wrap (a * b).

Definition in_range (z : Z) : Prop := 0 <= z < modulus.

End SizeT.

(** The conversions V8 applies when a C++ integer crosses into
    JavaScript and back. *)
Definition to_uint32 (z : Z) : Z := z mod 2 ^ 32.

Definition to_int32 (z : Z) : Z :=
  let u := to_uint32 z in
  if u <? 2 ^ 31 then u else u - 2 ^ 32.

(** ** JavaScript numbers *)

Module Double.

Definition of_Z (z : Z) : float :=
  match z with
  | Z0 => PrimFloat.zero
  | Zpos _ => PrimFloat.of_uint63 (Uint63.of_Z z)
  | Zneg p => PrimFloat.opp (PrimFloat.of_uint63 (Uint63.of_Z (Zpos p)))
  end.

(** C++ [a >= b] on doubles: false as soon as one side is NaN. *)
Definition geb (a b : float) : bool := PrimFloat.leb b a.

Definition is_minus_zero (d : float) : bool :=
  match Prim2SF d with
  | S754_zero true => true
  | _ => false
  end.

(** The integer a finite double denotes, when it denotes one. *)
Definition integral (d : float) : option Z :=
  match Prim2SF d with
  | S754_zero _ => Some 0
  | S754_finite s m e =>
      let mag :=
        if 0 <=? e then Some (Zpos m * 2 ^ e)
        else if Zpos m mod 2 ^ (- e) =? 0 then Some (Zpos m / 2 ^ (- e))
        else None in
      match mag with
      | Some z => Some (if s then - z else z)
      | None => None
      end
  | _ => None
  end.

(** Truncation toward zero; NaN and the infinities go to 0, as in
    ECMAScript's ToInteger-based conversions. *)
Definition truncate (d : float) : Z :=
  match Prim2SF d with
  | S754_finite s m e =>
      let mag := if 0 <=? e then Zpos m * 2 ^ e else Zpos m / 2 ^ (- e) in
      if s then - mag else mag
  | _ => 0
  end.

End Double.

(** ** JavaScript values, as the V8 API shows them to the addon *)

#[warnings="-register-all"]
Inductive Value : Type :=
| VUndefined
| VNull
| VBoolean (b : bool)
| VNumber (d : float)
| VString (s : string)
| VArray (elems : list Value)
| VObject (props : list (string * Value))
| VFunction (id : nat).

Definition VInteger (z : Z) : Value := VNumber (Double.of_Z z).

Definition IsUndefined (v : Value) : bool :=
  match v with VUndefined => true | _ => false end.

Definition IsString (v : Value) : bool :=
  match v with VString _ => true | _ => false end.

Definition IsNumber (v : Value) : bool :=
  match v with VNumber _ => true | _ => false end.

Definition IsBoolean (v : Value) : bool :=
  match v with VBoolean _ => true | _ => false end.

Definition IsArray (v : Value) : bool :=
  match v with VArray _ => true | _ => false end.

Definition IsFunction (v : Value) : bool :=
  match v with VFunction _ => true | _ => false end.

(** Arrays and functions are objects too. *)
Definition IsObject (v : Value) : bool :=
  match v with VArray _ | VObject _ | VFunction _ => true | _ => false end.

(** [Value::IsInt32]: a number that is not -0 and survives the round
    trip through [int32_t]. *)
Definition IsInt32 (v : Value) : bool :=
  match v with
  | VNumber d =>
      negb (Double.is_minus_zero d) &&
      match Double.integral d with
      | Some z => (- 2 ^ 31 <=? z) && (z <? 2 ^ 31)
      | None => false
      end
  | _ => false
  end.

(** [Value::IsUint32]: the same through [uint32_t]. *)
Definition IsUint32 (v : Value) : bool :=
  match v with
  | VNumber d =>
      negb (Double.is_minus_zero d) &&
      match Double.integral d with
      | Some z => (0 <=? z) && (z <? 2 ^ 32)
      | None => false
      end
  | _ => false
  end.

(** [Value::Uint32Value] and [Value::NumberValue].  The addon calls them
    only behind an [IsNumber], [IsInt32] or [IsUint32] test, so the
    conversions of other values are never exercised. *)
Definition Uint32Value (v : Value) : Z :=
  match v with
  | VNumber d => to_uint32 (Double.truncate d)
  | _ => 0
  end.

Definition NumberValue (v : Value) : float :=
  match v with
  | VNumber d => d
  | _ => PrimFloat.nan
  end.

Definition BooleanValue (v : Value) : bool :=
  match v with
  | VBoolean b => b
  | _ => false
  end.

Fixpoint assoc (key : string) (props : list (string * Value)) : option Value :=
  match props with
  | [] => None
  | (k, v) :: rest => if String.eqb k key then Some v else assoc key rest
  end.

(** [Object::Has] and [Object::Get] with a string key.  The addon asks
    for [dimensions], [size], [name] and [type]: among the values of this
    model only plain objects carry the first two, and the last two are
    asked for only of a value that has a [size]. *)
Definition Has (o : Value) (key : string) : bool :=
  match o with
  | VObject props => match assoc key props with Some _ => true | None => false end
  | _ => false
  end.

Definition Get (o : Value) (key : string) : Value :=
  match o with
  | VObject props => match assoc key props with Some v => v | None => VUndefined end
  | _ => VUndefined
  end.

(** [Array::Length] and [Object::Get] with an integer index, on an
    array. *)
Definition ArrayLength (elems : list Value) : Z := Z.of_nat (List.length elems).

Definition GetIndex (elems : list Value) (i : nat) : Value :=
  nth i elems VUndefined.

(** [Value::ToObject] hands back an empty handle for [undefined] and
    [null]; every other value is an object or is wrapped into one. *)
Definition ToObject (v : Value) : option Value :=
  match v with
  | VUndefined | VNull => None
  | _ => Some v
  end.

(** ** C strings and [strtoul] *)

(** [std::string(const char* )]: the characters before the first NUL. *)
Fixpoint c_str (s : string) : string :=
  match s with
  | EmptyString => EmptyString
  | String c rest => if Ascii.eqb c Ascii.zero then EmptyString else String c (c_str rest)
  end.

Module CStdlib.

Definition ULONG_MAX : Z := 2 ^ 64 - 1.

Definition isspace (c : ascii) : bool :=
  let n := N_of_ascii c in
  (N.eqb n 32 || (N.leb 9 n && N.leb n 13))%N.

(** The value of a character as a digit, in any base up to 36. *)
Definition digit_value (c : ascii) : option Z :=
  let n := Z.of_N (N_of_ascii c) in
  if (48 <=? n) && (n <=? 57) then Some (n - 48)
  else if (97 <=? n) && (n <=? 122) then Some (n - 97 + 10)
  else if (65 <=? n) && (n <=? 90) then Some (n - 65 + 10)
  else None.

Definition digit_in (base : Z) (c : ascii) : option Z :=
  match digit_value c with
  | Some d => if d <? base then Some d else None
  | None => None
  end.

Fixpoint skip_spaces (s : string) : string :=
  match s with
  | String c rest => if isspace c then skip_spaces rest else s
  | EmptyString => s
  end.

(** The longest prefix of digits of [base], accumulated from [acc]. *)
Fixpoint digits (base : Z) (s : string) (acc : Z) : Z :=
  match s with
  | String c rest =>
      match digit_in base c with
      | Some d => digits base rest (acc * base + d)
      | None => acc
      end
  | EmptyString => acc
  end.

Definition starts_with_digit (base : Z) (s : string) : bool :=
  match s with
  | String c _ => match digit_in base c with Some _ => true | None => false end
  | EmptyString => false
  end.

Definition is_x (c : ascii) : bool :=
  Ascii.eqb c "x"%char || Ascii.eqb c "X"%char.

(** [strtoul(s, 0, 0)]: white space, an optional sign, the base read off
    the prefix ([0x] hexadecimal, [0] octal, decimal otherwise), then
    the digits.  No digits give 0, a value past [ULONG_MAX] gives
    [ULONG_MAX], and a minus sign negates in [unsigned long]. *)
Definition strtoul (s : string) : Z :=
  let s1 := skip_spaces s in
  let '(negative, s2) :=
    match s1 with
    | String "-"%char rest => (true, rest)
    | String "+"%char rest => (false, rest)
    | _ => (false, s1)
    end in
  let '(base, s3) :=
    match s2 with
    | String "0"%char (String x rest) =>
        if is_x x && starts_with_digit 16 rest then (16, rest) else (8, s2)
    | String "0"%char EmptyString => (8, s2)
    | _ => (10, s2)
    end in
  if starts_with_digit base s3 then
    let v := digits base s3 0 in
    if ULONG_MAX <? v then ULONG_MAX
    else if negative then (- v) mod 2 ^ 64
    else v
  else 0.

End CStdlib.

(** ** The engine session and the schema *)

(** Modelled from the spec: [DimensionRequest] is declared in
    [read-command.hpp], which is not among the sources.  The record keeps
    the three constructor arguments [create] passes: the name, the type
    as the string of the descriptor, and the size in bytes. *)
Record DimensionRequest : Type := {
  name : string;
  type : string;
  size : Z
}.

Definition Schema : Type := list DimensionRequest.

(** Modelled from the spec: [PdalSession] ([pdal-session.hpp]) is the
    external point data engine.  Of it the two files read the total
    point count, the native dimension list (the [DimensionRequest] built
    from each id of [pointBuffer().context().dims()] and its [dimType]),
    and the stride of the native schema. *)
Record PdalSession : Type := {
  getNumPoints : Z;
  nativeSchema : Schema;
  sessionStride : Z
}.

(** What a call into the engine or into the allocator can throw. *)
Inductive Exception : Type :=
| runtime_error (what : string)
| bad_alloc
| unknown_exception.

Inductive Result (A : Type) : Type :=
| Return (a : A)
| Throw (e : Exception).

Arguments Return {A} a.
Arguments Throw {A} e.

(** [getStride] of read-command.cpp: the loop [stride += dim.size]. *)
Fixpoint getStride_from (stride : Z) (schema : Schema) : Z :=
  match schema with
  | [] => stride
  | dim :: rest => getStride_from (SizeT.add stride (size dim)) rest
  end.

Definition getStride (schema : Schema) : Z := getStride_from 0 schema.

(** [ReadCommand::schemaOrDefault]. *)
Definition schemaOrDefault (pdalSession : PdalSession) (reqSchema : Schema) : Schema :=
  if (0 <? Z.of_nat (List.length reqSchema)) then reqSchema
  else nativeSchema pdalSession.

(** ** The read commands *)

(** Modelled from the spec: [BufferTransmitter] is declared in a header
    that is not among the sources.  The record keeps the four
    constructor arguments: the destination and the buffer it is bound
    to. *)
Record BufferTransmitter : Type := {
  bt_host : string;
  bt_port : Z;
  bt_data : option Z;
  bt_size : Z
}.

Record BBox : Type := {
  m_xMin : float;
  m_yMin : float;
  m_xMax : float;
  m_yMax : float
}.

(** The three subclasses, by the fields each adds.  [m_bbox] stands
    for [m_isBBoxQuery] and the four coordinates: the constructor that
    takes a box sets the flag, the one that takes none clears it. *)
Inductive Query : Type :=
| ReadCommandUnindexed (m_start m_count : Z)
| ReadCommandQuadIndex (m_bbox : option BBox) (m_depthBegin m_depthEnd : Z)
| ReadCommandPointRadius (m_is3d : bool) (m_radius m_x m_y m_z : float).

(** [m_data] is [None] for the null pointer and [Some n] for an array
    of [n] bytes obtained from [new unsigned char[n]]. *)
Record ReadCommand : Type := {
  m_pdalSession : PdalSession;
  m_host : string;
  m_port : Z;
  m_schema : Schema;
  m_stride : Z;
  m_callback : nat;
  m_cancel : bool;
  m_data : option Z;
  m_bufferTransmitter : option BufferTransmitter;
  m_errMsg : string;
  m_numPoints : Z;
  m_numBytes : Z;
  m_query : Query
}.

(** [ReadCommand::setNumPoints]. *)
Definition setNumPoints (c : ReadCommand) (numPoints : Z) : ReadCommand :=
  {| m_pdalSession := m_pdalSession c;
     m_host := m_host c;
     m_port := m_port c;
     m_schema := m_schema c;
     m_stride := m_stride c;
     m_callback := m_callback c;
     m_cancel := m_cancel c;
     m_data := m_data c;
     m_bufferTransmitter := m_bufferTransmitter c;
     m_errMsg := m_errMsg c;
     m_numPoints := numPoints;
     m_numBytes := SizeT.mul numPoints (m_stride c);
     m_query := m_query c |}.

Definition reset_bufferTransmitter (c : ReadCommand) : ReadCommand :=
  {| m_pdalSession := m_pdalSession c;
     m_host := m_host c;
     m_port := m_port c;
     m_schema := m_schema c;
     m_stride := m_stride c;
     m_callback := m_callback c;
     m_cancel := m_cancel c;
     m_data := m_data c;
     m_bufferTransmitter :=
       Some {| bt_host := m_host c;
               bt_port := m_port c;
               bt_data := m_data c;
               bt_size := m_numBytes c |};
     m_errMsg := m_errMsg c;
     m_numPoints := m_numPoints c;
     m_numBytes := m_numBytes c;
     m_query := m_query c |}.

Definition set_data (c : ReadCommand) (data : option Z) : ReadCommand :=
  {| m_pdalSession := m_pdalSession c;
     m_host := m_host c;
     m_port := m_port c;
     m_schema := m_schema c;
     m_stride := m_stride c;
     m_callback := m_callback c;
     m_cancel := m_cancel c;
     m_data := data;
     m_bufferTransmitter := m_bufferTransmitter c;
     m_errMsg := m_errMsg c;
     m_numPoints := m_numPoints c;
     m_numBytes := m_numBytes c;
     m_query := m_query c |}.

(** The answer of the engine to one [PdalSession::read] call: the value
    it leaves in the [unsigned char**] it was handed, and the point
    count it returns or the exception it throws. *)
Record EngineAnswer : Type := {
  data_after : option Z;
  points : Result Z
}.

(** Modelled from the spec: the four overloads of [PdalSession::read]
    the commands call, each handed the address of [m_data] first. *)
Record Engine : Type := {
  read_range : option Z -> Schema -> Z -> Z -> EngineAnswer;
  read_bbox : option Z -> Schema -> float -> float -> float -> float -> Z -> Z -> EngineAnswer;
  read_depth : option Z -> Schema -> Z -> Z -> EngineAnswer;
  read_radius : option Z -> Schema -> bool -> float -> float -> float -> float -> EngineAnswer
}.

(** The call each [run] makes: [ReadCommandUnindexed::run] the range
    overload, [ReadCommandQuadIndex::run] the bounding-box overload when
    [m_isBBoxQuery] and the depth overload otherwise,
    [ReadCommandPointRadius::run] the radius overload. *)
Definition engine_read (e : Engine) (c : ReadCommand) : EngineAnswer :=
  match m_query c with
  | ReadCommandUnindexed start count =>
      read_range e (m_data c) (m_schema c) start count
  | ReadCommandQuadIndex (Some b) depthBegin depthEnd =>
      read_bbox e (m_data c) (m_schema c)
        (m_xMin b) (m_yMin b) (m_xMax b) (m_yMax b) depthBegin depthEnd
  | ReadCommandQuadIndex None depthBegin depthEnd =>
      read_depth e (m_data c) (m_schema c) depthBegin depthEnd
  | ReadCommandPointRadius is3d radius x y z =>
      read_radius e (m_data c) (m_schema c) is3d radius x y z
  end.

(** The three [run] methods: the command stores the count the engine
    returns through [setNumPoints] and binds a new transmitter to the
    buffer.  [connect] is what the [BufferTransmitter] constructor does.
    The result is the command as the call leaves it and the exception
    that left [run], if one did: an exception of the engine leaves
    before the counts are stored, one of the constructor after. *)
Definition run (c : ReadCommand) (e : Engine) (connect : Result unit)
    : ReadCommand * option Exception :=
  let answer := engine_read e c in
  let c := set_data c (data_after answer) in
  match points answer with
  | Throw exn => (c, Some exn)
  | Return numPoints =>
      let c := setNumPoints c numPoints in
      match connect with
      | Throw exn => (c, Some exn)
      | Return _ => (reset_bufferTransmitter c, None)
      end
  end.

(** [ReadCommand::transmit] forwards to [m_bufferTransmitter], a null
    pointer until [run] has bound it, and leaves the command as it is.
    The result is the write handed to the transmitter. *)
Definition transmit (c : ReadCommand) (offset numBytes : Z) : option (Z * Z) :=
  match m_bufferTransmitter c with
  | Some _ => Some (offset, numBytes)
  | None => None
  end.

(** ** The command factory *)

(** One invocation of the completion callback: the function called and
    its argument vector. *)
Record Call : Type := {
  callee : nat;
  argv : list Value
}.

(** [errorCallback]: the callback receives the message as its only
    argument. *)
Definition errorCallback (callback : nat) (errMsg : string) : Call :=
  {| callee := callback; argv := [VString errMsg] |}.

(** What [ReadCommandFactory::create] does: throw, run into undefined
    behaviour of the V8 API (an unchecked cast or an empty handle), or
    return the command pointer (null or not) after the listed callback
    invocations. *)
Inductive Outcome : Type :=
| Throws (e : Exception)
| Undefined_behaviour
| Returns (readCommand : option ReadCommand) (calls : list Call).

Definition isDefined (v : Value) : bool := negb (IsUndefined v).

Definition isInteger (v : Value) : bool := IsInt32 v || IsUint32 v.

(** [args[i]]: V8 answers [undefined] past the end. *)
Definition arg (args : list Value) (i : nat) : Value := nth i args VUndefined.

Definition decimal (z : Z) : string := NilZero.string_of_int (Z.to_int z).

Section Factory.

(** The parts of the runtime the addon cannot see into: V8's rendering
    of heap objects and of the numbers that are not integers below 2^53
    as strings, and whether [new unsigned char[n]] finds the memory. *)
Variable host_to_string : Value -> string.
Variable can_allocate : Z -> bool.

(** [Value::ToString]. *)
Definition ToString (v : Value) : string :=
  match v with
  | VUndefined => "undefined"
  | VNull => "null"
  | VBoolean true => "true"
  | VBoolean false => "false"
  | VString s => s
  | VNumber d =>
      match Prim2SF d with
      | S754_nan => "NaN"
      | S754_infinity false => "Infinity"
      | S754_infinity true => "-Infinity"
      | _ =>
          match Double.integral d with
          | Some z => if Z.abs z <? 2 ^ 53 then decimal z else host_to_string v
          | None => host_to_string v
          end
      end
  | _ => host_to_string v
  end.

(** [*v8::String::Utf8Value(v->ToString())] read as a C string. *)
Definition Utf8Value (v : Value) : string := c_str (ToString v).

(** One turn of the loop over [dimArray]: [None] when [ToObject] yields
    an empty handle, [Some None] when the entry is skipped because its
    size is 0, [Some (Some dim)] when it is pushed onto the schema. *)
Definition parse_dimension (elem : Value) : option (option DimensionRequest) :=
  match ToObject elem with
  | None => None
  | Some dimObj =>
      let sizeString := Utf8Value (Get dimObj "size") in
      let size := CStdlib.strtoul sizeString in
      if size =? 0 then Some None
      else Some (Some {| name := Utf8Value (Get dimObj "name");
                         type := Utf8Value (Get dimObj "type");
                         size := size |})
  end.

Fixpoint parse_dimensions (elems : list Value) (schema : Schema) : option Schema :=
  match elems with
  | [] => Some schema
  | elem :: rest =>
      match parse_dimension elem with
      | None => None
      | Some None => parse_dimensions rest schema
      | Some (Some dim) => parse_dimensions rest (schema ++ [dim])
      end
  end.

(** The unwrapping of the schema request.  [Array::Cast] does not check
    what it casts: a [dimensions] property that is not an array is
    undefined behaviour. *)
Definition parse_schema (schemaObj : Value) : option Schema :=
  if Has schemaObj "dimensions" then
    match Get schemaObj "dimensions" with
    | VArray dimArray => parse_dimensions dimArray []
    | _ => None
    end
  else Some [].

(** The [ReadCommand] constructor, under each subclass constructor. *)
Definition new_ReadCommand
    (pdalSession : PdalSession) (host : string) (port : Z) (schema : Schema)
    (callback : nat) (query : Query) : Outcome :=
  let schema' := schemaOrDefault pdalSession schema in
  let stride := getStride schema' in
  let bytes := SizeT.mul stride (getNumPoints pdalSession) in
  if can_allocate bytes then
    Returns (Some {| m_pdalSession := pdalSession;
                     m_host := host;
                     m_port := port;
                     m_schema := schema';
                     m_stride := stride;
                     m_callback := callback;
                     m_cancel := false;
                     m_data := Some bytes;
                     m_bufferTransmitter := None;
                     m_errMsg := EmptyString;
                     m_numPoints := 0;
                     m_numBytes := 0;
                     m_query := query |}) []
  else Throws bad_alloc.

Definition callback_id (v : Value) : nat :=
  match v with
  | VFunction id => id
  | _ => 0%nat
  end.

(** The branch taken once the 7-argument shape has matched. *)
Definition create_quad_index
    (args : list Value) (pdalSession : PdalSession) (host : string)
    (port : Z) (schema : Schema) (callback : nat) : Outcome :=
  let depthBegin := Uint32Value (arg args 4) in
  let depthEnd := Uint32Value (arg args 5) in
  if isDefined (arg args 3) then
    match arg args 3 with
    | VArray bbox =>
        if IsNumber (GetIndex bbox 0) && IsNumber (GetIndex bbox 1) &&
           IsNumber (GetIndex bbox 2) && IsNumber (GetIndex bbox 3)
        then
          let xMin := NumberValue (GetIndex bbox 0) in
          let yMin := NumberValue (GetIndex bbox 1) in
          let xMax := NumberValue (GetIndex bbox 2) in
          let yMax := NumberValue (GetIndex bbox 3) in
          if Double.geb xMax xMin && Double.geb yMax xMin then
            new_ReadCommand pdalSession host port schema callback
              (ReadCommandQuadIndex
                 (Some {| m_xMin := xMin; m_yMin := yMin;
                          m_xMax := xMax; m_yMax := yMax |})
                 depthBegin depthEnd)
          else Returns None [errorCallback callback "Invalid coords in query"]
        else Returns None [errorCallback callback "Invalid coord types in query"]
    | _ => Undefined_behaviour
    end
  else
    new_ReadCommand pdalSession host port schema callback
      (ReadCommandQuadIndex None depthBegin depthEnd).

(** [ReadCommandFactory::create]. *)
Definition create (args : list Value) (pdalSession : PdalSession) : Outcome :=
  let Length := List.length args in
  if (Length =? 0)%nat || negb (IsFunction (arg args (Length - 1))) then
    Throws (runtime_error "Invalid callback supplied to 'read'")
  else
    let callback := callback_id (arg args (Length - 1)) in
    if (3 <? Length)%nat &&
       isDefined (arg args 0) && IsString (arg args 0) &&
       isDefined (arg args 1) && isInteger (arg args 1) &&
       isDefined (arg args 2) && IsObject (arg args 2)
    then
      let host := Utf8Value (arg args 0) in
      let port := Uint32Value (arg args 1) in
      match parse_schema (arg args 2) with
      | None => Undefined_behaviour
      | Some schema =>
          if (Length =? 6)%nat &&
             isDefined (arg args 3) && isInteger (arg args 3) &&
             isDefined (arg args 4) && isInteger (arg args 4)
          then
            let start := Uint32Value (arg args 3) in
            let count := Uint32Value (arg args 4) in
            if start <? getNumPoints pdalSession then
              new_ReadCommand pdalSession host port schema callback
                (ReadCommandUnindexed start count)
            else
              Returns None [errorCallback callback "Invalid 'start' in 'read' request"]
          else if
            (Length =? 7)%nat &&
            ((isDefined (arg args 3) && IsArray (arg args 3) &&
              match arg args 3 with
              | VArray bbox => 4 <=? ArrayLength bbox
              | _ => false
              end)
             || negb (isDefined (arg args 3))) &&
            isDefined (arg args 4) && isInteger (arg args 4) &&
            isDefined (arg args 5) && isInteger (arg args 5)
          then create_quad_index args pdalSession host port schema callback
          else if
            (Length =? 9)%nat &&
            isDefined (arg args 3) && IsBoolean (arg args 3) &&
            isDefined (arg args 4) && IsNumber (arg args 4) &&
            isDefined (arg args 5) && IsNumber (arg args 5) &&
            isDefined (arg args 6) && IsNumber (arg args 6) &&
            isDefined (arg args 7) && IsNumber (arg args 7)
          then
            new_ReadCommand pdalSession host port schema callback
              (ReadCommandPointRadius
                 (BooleanValue (arg args 3))
                 (NumberValue (arg args 4))
                 (NumberValue (arg args 5))
                 (NumberValue (arg args 6))
                 (NumberValue (arg args 7)))
          else
            Returns None [errorCallback callback "Could not identify 'read' from args"]
      end
    else
      Returns None [errorCallback callback "Host, port, and callback must be supplied"].

End Factory.

(** ** The read pipeline of pdal-bindings.cpp *)

Definition chunkSize : Z := 65536.

Module ReadData.

(** Modelled from the spec: [ReadData] is declared in
    [pdal-bindings.hpp], which is not among the sources.  The fields are
    those [PdalBindings::read] and [PdalBindings::cancel] use; the
    constructor stores its six arguments and starts the others at the
    null pointer, the empty message, zero and [false]. *)
Record t : Type := {
  pdalSession : PdalSession;
  host : string;
  port : Z;
  start : Z;
  count : Z;
  callback : nat;
  data : option Z;
  bufferTransmitter : option BufferTransmitter;
  errMsg : string;
  numPoints : Z;
  numBytes : Z;
  cancel : bool
}.

Definition new (pdalSession : PdalSession) (host : string) (port start count : Z)
    (callback : nat) : t :=
  {| pdalSession := pdalSession;
     host := host;
     port := port;
     start := start;
     count := count;
     callback := callback;
     data := None;
     bufferTransmitter := None;
     errMsg := EmptyString;
     numPoints := 0;
     numBytes := 0;
     cancel := false |}.

Definition set_data (rd : t) (p : option Z) : t :=
  {| pdalSession := pdalSession rd; host := host rd; port := port rd;
     start := start rd; count := count rd; callback := callback rd;
     data := p;
     bufferTransmitter := bufferTransmitter rd; errMsg := errMsg rd;
     numPoints := numPoints rd; numBytes := numBytes rd; cancel := cancel rd |}.

Definition set_numPoints (rd : t) (n : Z) : t :=
  {| pdalSession := pdalSession rd; host := host rd; port := port rd;
     start := start rd; count := count rd; callback := callback rd;
     data := data rd;
     bufferTransmitter := bufferTransmitter rd; errMsg := errMsg rd;
     numPoints := n; numBytes := numBytes rd; cancel := cancel rd |}.

Definition set_numBytes (rd : t) (n : Z) : t :=
  {| pdalSession := pdalSession rd; host := host rd; port := port rd;
     start := start rd; count := count rd; callback := callback rd;
     data := data rd;
     bufferTransmitter := bufferTransmitter rd; errMsg := errMsg rd;
     numPoints := numPoints rd; numBytes := n; cancel := cancel rd |}.

Definition set_bufferTransmitter (rd : t) (b : option BufferTransmitter) : t :=
  {| pdalSession := pdalSession rd; host := host rd; port := port rd;
     start := start rd; count := count rd; callback := callback rd;
     data := data rd;
     bufferTransmitter := b; errMsg := errMsg rd;
     numPoints := numPoints rd; numBytes := numBytes rd; cancel := cancel rd |}.

Definition set_errMsg (rd : t) (msg : string) : t :=
  {| pdalSession := pdalSession rd; host := host rd; port := port rd;
     start := start rd; count := count rd; callback := callback rd;
     data := data rd;
     bufferTransmitter := bufferTransmitter rd; errMsg := msg;
     numPoints := numPoints rd; numBytes := numBytes rd; cancel := cancel rd |}.

Definition set_cancel (rd : t) (b : bool) : t :=
  {| pdalSession := pdalSession rd; host := host rd; port := port rd;
     start := start rd; count := count rd; callback := callback rd;
     data := data rd;
     bufferTransmitter := bufferTransmitter rd; errMsg := errMsg rd;
     numPoints := numPoints rd; numBytes := numBytes rd; cancel := b |}.

End ReadData.

(** What the world outside the addon answers to one request: the
    engine's [read(&data, start, count)], the [BufferTransmitter]
    constructor, and each [transmit(offset, length)]. *)
Record World : Type := {
  engine : EngineAnswer;
  connect : Result unit;
  send : Z -> Z -> Result unit
}.

(** The effects of a request that can be observed from outside. *)
Inductive Effect : Type :=
| Invoke (call : Call)
| Write (offset length : Z)
| Stdout (line : string)
| DeleteArray (data : option Z)
| DeleteReadData.

(** Where a request stands in the libuv work queue.  [SendWork offset]
    is the transmit loop about to evaluate its condition, [SendLeft
    offset] the statement after the loop, [Deleted] the request whose
    record has been deleted, and [Crashed] the request on which the
    program has run into undefined behaviour: a call through the null
    transmitter, or a store through the pointer to the deleted
    record. *)
Inductive Stage : Type :=
| ReadWork
| ReadAfter
| SendWork (offset : Z)
| SendLeft (offset : Z)
| SendAfter
| Deleted
| Crashed.

(** The two handlers of the retrieval task. *)
Definition message (e : Exception) : string :=
  match e with
  | runtime_error what => what
  | _ => "Unknown error"
  end.

(** The work callback of [readReq]. *)
Definition read_work (w : World) (rd : ReadData.t) : ReadData.t :=
  let rd := ReadData.set_data rd (data_after (engine w)) in
  match points (engine w) with
  | Throw e => ReadData.set_errMsg rd (message e)
  | Return n =>
      let rd := ReadData.set_numPoints rd n in
      let rd :=
        ReadData.set_numBytes rd
          (SizeT.mul (ReadData.numPoints rd) (sessionStride (ReadData.pdalSession rd))) in
      match connect w with
      | Throw e => ReadData.set_errMsg rd (message e)
      | Return _ =>
          ReadData.set_bufferTransmitter rd
            (Some {| bt_host := ReadData.host rd;
                     bt_port := ReadData.port rd;
                     bt_data := ReadData.data rd;
                     bt_size := ReadData.numBytes rd |})
      end
  end.

(** The after-work callback of [readReq].  [Integer::New] takes an
    [int32_t]. *)
Definition read_after (rd : ReadData.t) : Stage * list Effect :=
  if negb (String.length (ReadData.errMsg rd) =? 0)%nat then
    (Deleted,
     [Invoke (errorCallback (ReadData.callback rd) (ReadData.errMsg rd));
      DeleteArray (ReadData.data rd);
      DeleteReadData])
  else
    (SendWork 0,
     [Invoke {| callee := ReadData.callback rd;
                argv := [VNull;
                         VInteger (to_int32 (ReadData.numPoints rd));
                         VInteger (to_int32 (ReadData.numBytes rd))] |}]).

(** One evaluation of the condition of the transmit loop and, when it
    holds, one turn of its body. *)
Definition send_iteration (w : World) (rd : ReadData.t) (offset : Z) : Stage * list Effect :=
  if (offset <? ReadData.numBytes rd) && negb (ReadData.cancel rd) then
    match ReadData.bufferTransmitter rd with
    | None => (Crashed, [])
    | Some _ =>
        let length := Z.min chunkSize (ReadData.numBytes rd - offset) in
        match send w offset length with
        | Return _ => (SendWork (SizeT.add offset chunkSize), [Write offset length])
        | Throw _ => (SendAfter, [Write offset length; Stdout "Caught error transmitting buffer"])
        end
    end
  else (SendLeft offset, []).

(** The statement after the loop. *)
Definition send_left (rd : ReadData.t) (offset : Z) : Stage * list Effect :=
  (SendAfter,
   if ReadData.cancel rd then
     [Stdout ("CANCELLED at (" ++ decimal offset ++ " / " ++
              decimal (ReadData.numBytes rd) ++ ") bytes")]
   else []).

(** The after-work callback of [sendReq]. *)
Definition send_after (rd : ReadData.t) : Stage * list Effect :=
  (Deleted, [DeleteArray (ReadData.data rd); DeleteReadData]).

(** A request between two steps. *)
Record Request : Type := {
  readData : ReadData.t;
  stage : Stage;
  effects : list Effect
}.

(** The next piece of work libuv runs for the request. *)
Definition work (w : World) (r : Request) : Request :=
  let rd := readData r in
  match stage r with
  | ReadWork =>
      {| readData := read_work w rd; stage := ReadAfter; effects := effects r |}
  | ReadAfter =>
      let '(st, es) := read_after rd in
      {| readData := rd; stage := st; effects := effects r ++ es |}
  | SendWork offset =>
      let '(st, es) := send_iteration w rd offset in
      {| readData := rd; stage := st; effects := effects r ++ es |}
  | SendLeft offset =>
      let '(st, es) := send_left rd offset in
      {| readData := rd; stage := st; effects := effects r ++ es |}
  | SendAfter =>
      let '(st, es) := send_after rd in
      {| readData := rd; stage := st; effects := effects r ++ es |}
  | Deleted => r
  | Crashed => r
  end.

(** The store [obj->m_readData->cancel = true] of [PdalBindings::cancel],
    seen from the request it reaches.  Once [delete readData] has run the
    pointer dangles and the store is undefined behaviour. *)
Definition flag_cancel (r : Request) : Request :=
  match stage r with
  | Deleted | Crashed =>
      {| readData := readData r; stage := Crashed; effects := effects r |}
  | _ =>
      {| readData := ReadData.set_cancel (readData r) true;
         stage := stage r;
         effects := effects r |}
  end.

(** A schedule interleaves the work of the request with cancellations
    arriving from the event loop. *)
Inductive Step : Type :=
| Work
| Cancel.

Definition step (w : World) (s : Step) (r : Request) : Request :=
  match s with
  | Work => work w r
  | Cancel => flag_cancel r
  end.

Definition execute (w : World) (steps : list Step) (r : Request) : Request :=
  fold_left (fun r s => step w s r) steps r.

(** The request as [PdalBindings::read] queues it. *)
Definition queued (rd : ReadData.t) : Request :=
  {| readData := rd; stage := ReadWork; effects := [] |}.

(** ** The bindings object *)

Module PdalBindings.

(** A request together with what the world will answer to it. *)
Record Task : Type := {
  world : World;
  request : Request
}.

(** The wrapped object and the [ReadData] records it has allocated so
    far, by address.  A record stays in the list after [delete readData]
    with the stage [Deleted]: the address is then a dangling pointer. *)
Record t : Type := {
  m_pdalSession : option PdalSession;
  m_readData : option nat;
  tasks : list Task
}.

(** [PdalBindings::PdalBindings]. *)
Definition new : t :=
  {| m_pdalSession := None; m_readData := None; tasks := [] |}.

Inductive ReadOutcome : Type :=
| ReadThrows (e : Exception)
| ReadUndefined
| ReadReturns (obj : t) (calls : list Call).

(** The type checks at the head of [PdalBindings::read]: the message to
    report, or the fatal exception when the first four arguments pass
    and the fifth is not a function. *)
Definition check_args (args : list Value) : Result string :=
  if IsUndefined (arg args 0) || negb (IsString (arg args 0)) then
    Return "'host' must be a string - args[0]"%string
  else if IsUndefined (arg args 1) || negb (IsNumber (arg args 1)) then
    Return "'port' must be a number - args[1]"%string
  else if IsUndefined (arg args 2) || negb (IsNumber (arg args 2)) then
    Return "'start' offset must be a number - args[2]"%string
  else if IsUndefined (arg args 3) || negb (IsNumber (arg args 3)) then
    Return "'count' must be a number - args[3]"%string
  else if IsUndefined (arg args 4) || negb (IsFunction (arg args 4)) then
    Throw (runtime_error "Invalid callback supplied to 'read'")
  else Return EmptyString.

(** [PdalBindings::read] up to the first [uv_queue_work]: the arguments
    are checked, the record is allocated and the object remembers its
    address.  The string arguments need no host conversion: [args[0]] is
    a string by then. *)
Definition read (args : list Value) (w : World) (obj : t) : ReadOutcome :=
  match check_args args with
  | Throw e => ReadThrows e
  | Return errMsg =>
      match arg args 4 with
      | VFunction callback =>
          if negb (String.length errMsg =? 0)%nat then
            ReadReturns obj [errorCallback callback errMsg]
          else
            let host := match arg args 0 with VString s => c_str s | _ => EmptyString end in
            let port := Uint32Value (arg args 1) in
            let start := Uint32Value (arg args 2) in
            let count := Uint32Value (arg args 3) in
            match m_pdalSession obj with
            | None => ReadUndefined
            | Some session =>
                if getNumPoints session <=? start then
                  ReadReturns obj
                    [errorCallback callback "Invalid start offset in 'read' request"]
                else
                  let rd := ReadData.new session host port start count callback in
                  ReadReturns
                    {| m_pdalSession := m_pdalSession obj;
                       m_readData := Some (List.length (tasks obj));
                       tasks := tasks obj ++ [{| world := w; request := queued rd |}] |}
                    []
            end
      | _ => ReadUndefined
      end
  end.

(** [PdalBindings::cancel]: the value returned and the object after the
    call. *)
Definition cancel (obj : t) : bool * t :=
  match m_readData obj with
  | Some p =>
      (true,
       {| m_pdalSession := m_pdalSession obj;
          m_readData := m_readData obj;
          tasks :=
            match tasks obj !! p with
            | Some task =>
                <[p := {| world := world task;
                          request := flag_cancel (request task) |}]> (tasks obj)
            | None => tasks obj
            end |})
  | None => (false, obj)
  end.

(** libuv runs the next piece of work of the request at address [p]. *)
Definition run_work (p : nat) (obj : t) : t :=
  match tasks obj !! p with
  | Some task =>
      {| m_pdalSession := m_pdalSession obj;
         m_readData := m_readData obj;
         tasks := <[p := {| world := world task;
                            request := work (world task) (request task) |}]> (tasks obj) |}
  | None => obj
  end.

(** The request at an address is in flight while its record exists. *)
Definition in_flight (obj : t) (p : nat) : bool :=
  match tasks obj !! p with
  | Some task =>
      match stage (request task) with
      | Deleted | Crashed => false
      | _ => true
      end
  | None => false
  end.

Definition cancel_flag (obj : t) (p : nat) : option bool :=
  match tasks obj !! p with
  | Some task => Some (ReadData.cancel (readData (request task)))
  | None => None
  end.

End PdalBindings.

(** ** The session of the bindings object: [create], [parse], [destroy] *)

Module SessionBindings.

(** A session on the heap: as [new PdalSession()] leaves it, or as a
    call of [PdalSession::initialize] has left it. *)
Inductive Session : Type :=
| Constructed
| Initialized (content : PdalSession).

(** What one call of [PdalSession::initialize] does: the session as the
    call leaves it, and the exception it throws, if it throws. *)
Record InitializeAnswer : Type := {
  session_after : Session;
  raised : option Exception
}.

(** [CreateData] is declared in [pdal-bindings.hpp], which is not among
    the sources.  The fields are those [doInitialize] uses: the
    constructor stores its four arguments, the first of them the shared
    pointer to the session, here the address of the session; [errMsg],
    which the constructor is not handed, starts empty. *)
Record CreateData : Type := {
  pdalSession : nat;
  pipeline : string;
  execute : bool;
  callback : nat;
  errMsg : string
}.

Definition set_errMsg (cd : CreateData) (msg : string) : CreateData :=
  {| pdalSession := pdalSession cd; pipeline := pipeline cd; execute := execute cd;
     callback := callback cd; errMsg := msg |}.

(** Where an initialization stands in the libuv work queue: before its
    work callback, before its after-work callback, and after [delete
    createData]. *)
Inductive Progress : Type :=
| ToInitialize
| ToReport
| Done.

Record Initialization : Type := {
  createData : CreateData;
  progress : Progress;
  invoked : list Call
}.

(** The wrapped object, the sessions constructed so far, by address, and
    the initializations queued so far. *)
Record t : Type := {
  m_pdalSession : option nat;
  heap : list Session;
  requests : list Initialization
}.

(** [PdalBindings::PdalBindings]. *)
Definition new : t :=
  {| m_pdalSession := None; heap := []; requests := [] |}.

Inductive Outcome : Type :=
| Throws (e : Exception)
| Returns (obj : t) (calls : list Call).

(** [PdalBindings::doInitialize] up to [uv_queue_work].  The two tests
    are two [if] statements, not a chain: the second runs whatever the
    first has found. *)
Definition doInitialize (args : list Value) (execute : bool) (obj : t) : Outcome :=
  let errMsg :=
    if IsUndefined (arg args 0) || negb (IsString (arg args 0))
    then "'pipeline' must be a string - args[0]"%string
    else EmptyString in
  if IsUndefined (arg args 1) || negb (IsFunction (arg args 1)) then
    Throws (runtime_error "Invalid callback supplied to 'create'")
  else
    let callback := callback_id (arg args 1) in
    if negb (String.length errMsg =? 0)%nat then
      Returns obj [errorCallback callback errMsg]
    else
      let pipeline := match arg args 0 with VString s => c_str s | _ => EmptyString end in
      let address := List.length (heap obj) in
      Returns
        {| m_pdalSession := Some address;
           heap := heap obj ++ [Constructed];
           requests :=
             requests obj ++
             [{| createData := {| pdalSession := address;
                                  pipeline := pipeline;
                                  execute := execute;
                                  callback := callback;
                                  errMsg := EmptyString |};
                 progress := ToInitialize;
                 invoked := [] |}] |}
        [].

(** [m_pdalSession.reset()]. *)
Definition reset (obj : t) : t :=
  {| m_pdalSession := None; heap := heap obj; requests := requests obj |}.

(** [PdalBindings::create] calls [doInitialize(args)]: the default of
    the second parameter is in the declaration of [doInitialize], in the
    header, and is a parameter here. *)
Definition create (execute_default : bool) (args : list Value) (obj : t) : Outcome :=
  doInitialize args execute_default obj.

(** [PdalBindings::parse]: the reset is not reached when [doInitialize]
    throws. *)
Definition parse (args : list Value) (obj : t) : Outcome :=
  match doInitialize args false obj with
  | Returns obj' calls => Returns (reset obj') calls
  | Throws e => Throws e
  end.

(** [PdalBindings::destroy]. *)
Definition destroy (obj : t) : t := reset obj.

(** What [PdalBindings::getNumPoints] does: it goes through the null
    pointer, or asks a session that no call of [initialize] has touched,
    or returns the count as [Integer::New], which takes an [int32_t],
    makes it.  The pointer is a [shared_ptr]: an address always has its
    cell. *)
Inductive Reading : Type :=
| Null_dereference
| Not_initialized
| Reads (v : Value).

Definition getNumPoints (obj : t) : Reading :=
  match m_pdalSession obj with
  | None => Null_dereference
  | Some address =>
      match heap obj !! address with
      | Some (Initialized session) => Reads (VInteger (to_int32 (getNumPoints session)))
      | Some Constructed => Not_initialized
      | None => Null_dereference
      end
  end.

(** The three handlers of the work callback. *)
Definition message (e : Exception) : string :=
  match e with
  | runtime_error what => what
  | bad_alloc => "Memory allocation failed in CREATE"
  | unknown_exception => "Unknown error"
  end.

Section Work.

(** What the engine answers to [initialize(pipeline, execute)] on a
    session just constructed. *)
Variable initialize : string -> bool -> InitializeAnswer.

(** The work callback, on the record. *)
Definition init_work (cd : CreateData) : CreateData :=
  match raised (initialize (pipeline cd) (execute cd)) with
  | Some e => set_errMsg cd (message e)
  | None => cd
  end.

(** The after-work callback. *)
Definition init_after (cd : CreateData) : Call :=
  {| callee := callback cd; argv := [VString (errMsg cd)] |}.

(** libuv runs the next piece of work of the initialization [p]. *)
Definition run_work (p : nat) (obj : t) : t :=
  match requests obj !! p with
  | Some r =>
      let cd := createData r in
      match progress r with
      | ToInitialize =>
          {| m_pdalSession := m_pdalSession obj;
             heap :=
               <[pdalSession cd := session_after (initialize (pipeline cd) (execute cd))]>
                 (heap obj);
             requests :=
               <[p := {| createData := init_work cd;
                         progress := ToReport;
                         invoked := invoked r |}]> (requests obj) |}
      | ToReport =>
          {| m_pdalSession := m_pdalSession obj;
             heap := heap obj;
             requests :=
               <[p := {| createData := cd;
                         progress := Done;
                         invoked := invoked r ++ [init_after cd] |}]> (requests obj) |}
      | Done => obj
      end
  | None => obj
  end.

(** What JavaScript and libuv can do to the object. *)
Inductive Op : Type :=
| CallCreate (args : list Value)
| CallParse (args : list Value)
| CallDestroy
| RunWork (p : nat).

(** The object after a call: a call that throws has changed nothing. *)
Definition after (outcome : Outcome) (obj : t) : t :=
  match outcome with
  | Returns obj' _ => obj'
  | Throws _ => obj
  end.

Variable execute_default : bool.

Definition apply (obj : t) (op : Op) : t :=
  match op with
  | CallCreate args => after (create execute_default args obj) obj
  | CallParse args => after (parse args obj) obj
  | CallDestroy => destroy obj
  | RunWork p => run_work p obj
  end.

(** The object after a history of calls and pieces of work, from its
    construction. *)
Definition history (ops : list Op) : t := fold_left apply ops new.

End Work.

End SessionBindings.

(** ** Vocabulary of the statements *)

(** What the parse loop of [create] computes for one entry of the
    [dimensions] array. *)
Definition parsed_size (host_to_string : Value -> string) (elem : Value) : Z :=
  CStdlib.strtoul (Utf8Value host_to_string (Get elem "size")).

Definition kept (host_to_string : Value -> string) (elem : Value) : bool :=
  negb (parsed_size host_to_string elem =? 0).

Definition request_of (host_to_string : Value -> string) (elem : Value) : DimensionRequest :=
  {| name := Utf8Value host_to_string (Get elem "name");
     type := Utf8Value host_to_string (Get elem "type");
     size := parsed_size host_to_string elem |}.

Definition has_handle (elem : Value) : bool :=
  match ToObject elem with
  | Some _ => true
  | None => false
  end.

Definition sum_sizes (schema : Schema) : Z :=
  fold_right Z.add 0 (List.map size schema).

(** A runtime and a session to evaluate the factory on. *)
Definition plain_host (_ : Value) : string := "[object Object]".

Definition always_allocates (_ : Z) : bool := true.

Definition dimension (n t : string) (bytes : Z) : DimensionRequest :=
  {| name := n; type := t; size := bytes |}.

Definition sample_session : PdalSession :=
  {| getNumPoints := 5;
     nativeSchema := [dimension "X" "floating" 8; dimension "Y" "floating" 8];
     sessionStride := 16 |}.

Definition dimension_entry (n t sz : string) : Value :=
  VObject [("name"%string, VString n); ("type"%string, VString t); ("size"%string, VString sz)].

Definition descriptor (dims : list Value) : Value :=
  VObject [("dimensions"%string, VArray dims)].

Definition range_call : list Value :=
  [VString "localhost"; VInteger 8080; VObject [];
   VInteger 0; VInteger 10; VFunction 7].

(** The command [create] builds for [range_call] on [sample_session]. *)
Definition range_command : ReadCommand :=
  {| m_pdalSession := sample_session;
     m_host := "localhost";
     m_port := 8080;
     m_schema := nativeSchema sample_session;
     m_stride := 16;
     m_callback := 7;
     m_cancel := false;
     m_data := Some 80;
     m_bufferTransmitter := None;
     m_errMsg := EmptyString;
     m_numPoints := 0;
     m_numBytes := 0;
     m_query := ReadCommandUnindexed 0 10 |}.

(** The parts of a trace. *)
Fixpoint writes (es : list Effect) : list (Z * Z) :=
  match es with
  | [] => []
  | Write offset length :: rest => (offset, length) :: writes rest
  | _ :: rest => writes rest
  end.

Fixpoint invocations (es : list Effect) : list Call :=
  match es with
  | [] => []
  | Invoke call :: rest => call :: invocations rest
  | _ :: rest => invocations rest
  end.

Fixpoint releases (es : list Effect) : list (option Z) :=
  match es with
  | [] => []
  | DeleteArray data :: rest => data :: releases rest
  | _ :: rest => releases rest
  end.

Definition total_length (ws : list (Z * Z)) : Z :=
  fold_right Z.add 0 (List.map snd ws).

Definition bytes_written (es : list Effect) : Z := total_length (writes es).

(** The chunk sequence in the words of the design: [chunk_count] chunks
    at the multiples of the chunk size, each a full chunk except the
    last, which holds the remainder, or a full chunk when the size
    divides evenly. *)
Definition chunk_count (numBytes : Z) : nat :=
  Z.to_nat ((numBytes + chunkSize - 1) / chunkSize).

Definition spec_chunk_length (numBytes : Z) (i : nat) : Z :=
  if (S i <? chunk_count numBytes)%nat then chunkSize
  else if numBytes mod chunkSize =? 0 then chunkSize
  else numBytes mod chunkSize.

Definition spec_chunk (numBytes : Z) (i : nat) : Z * Z :=
  (Z.of_nat i * chunkSize, spec_chunk_length numBytes i).

Definition spec_chunks (numBytes : Z) : list (Z * Z) :=
  List.map (spec_chunk numBytes) (seq 0 (chunk_count numBytes)).

(** [tiles from ws to]: the writes [ws], in their order, are non-empty
    intervals that start at [from], each beginning where the previous
    one ended, and end at [to]. *)
Fixpoint tiles (from : Z) (ws : list (Z * Z)) (to : Z) : Prop :=
  match ws with
  | [] => from = to
  | (offset, length) :: rest => offset = from /\ 0 < length /\ tiles (from + length) rest to
  end.

(** The largest buffer size for which [offset += chunkSize] cannot wrap
    around in the transmit loop. *)
Definition max_numBytes : Z := SizeT.modulus - chunkSize.

(** A request at the start of its transmission. *)
Definition transmission (rd : ReadData.t) (es : list Effect) : Request :=
  {| readData := rd; stage := SendWork 0; effects := es |}.

Definition write_of (c : Z * Z) : Effect := Write (fst c) (snd c).

(** The request after the first [k] chunks have gone out. *)
Definition after_chunks (rd : ReadData.t) (es : list Effect) (k : nat) : Request :=
  {| readData := rd;
     stage := SendWork (Z.of_nat k * chunkSize);
     effects := es ++ List.map write_of (List.map (spec_chunk (ReadData.numBytes rd)) (seq 0 k)) |}.

(** What holds of a request all through the transmission that started
    from the record [rd] with the trace [es]: the record keeps its
    buffer, size and transmitter, and the trace has grown by the first
    [k] chunks, no callback invocation, and the release of the buffer
    exactly when the record has been deleted. *)
Definition sending (rd : ReadData.t) (es : list Effect) (r : Request) : Prop :=
  ReadData.numBytes (readData r) = ReadData.numBytes rd /\
  ReadData.bufferTransmitter (readData r) = ReadData.bufferTransmitter rd /\
  ReadData.data (readData r) = ReadData.data rd /\
  exists (k : nat) (tail : list Effect),
    effects r = es ++ tail /\
    (k <= chunk_count (ReadData.numBytes rd))%nat /\
    writes tail = List.map (spec_chunk (ReadData.numBytes rd)) (seq 0 k) /\
    invocations tail = [] /\
    match stage r with
    | SendWork offset => offset = Z.of_nat k * chunkSize /\ releases tail = []
    | SendLeft _ | SendAfter => releases tail = []
    | Deleted | Crashed => releases tail = [ReadData.data rd]
    | ReadWork | ReadAfter => False
    end.

(** The invariant of the counts of a command. *)
Definition stride_holds (c : ReadCommand) : Prop :=
  m_numBytes c = SizeT.mul (m_numPoints c) (m_stride c).

(** The command after a sequence of calls of [run], each with what the
    engine and the network answer to it. *)
Definition after_runs (c : ReadCommand) (calls : list (Engine * Result unit)) : ReadCommand :=
  fold_left (fun c call => fst (run c (fst call) (snd call))) calls c.

(** The counts of a request once the retrieval task has stored them. *)
Definition retrieved (stride n : Z) (r : Request) : Prop :=
  stage r <> ReadWork /\
  ReadData.numPoints (readData r) = n /\
  ReadData.numBytes (readData r) = SizeT.mul n stride.

(** The buffer of a request is handed to [delete []] when, and only
    when, its record is deleted. *)
Definition release_invariant (w : World) (r : Request) : Prop :=
  match stage r with
  | ReadWork => releases (effects r) = []
  | Deleted => releases (effects r) = [data_after (engine w)]
  | Crashed => (List.length (releases (effects r)) <= 1)%nat
  | _ => releases (effects r) = [] /\ ReadData.data (readData r) = data_after (engine w)
  end.

(** A world in which the engine returns [n] points in a buffer and the
    network accepts every write. *)
Definition answering (buffer : option Z) (n : Z) : World :=
  {| engine := {| data_after := buffer; points := Return n |};
     connect := Return tt;
     send := fun _ _ => Return tt |}.

(** A world in which the engine throws. *)
Definition failing (buffer : option Z) (e : Exception) : World :=
  {| engine := {| data_after := buffer; points := Throw e |};
     connect := Return tt;
     send := fun _ _ => Return tt |}.

Definition survey_session : PdalSession :=
  {| getNumPoints := 10000;
     nativeSchema := [dimension "X" "floating" 8; dimension "Y" "floating" 8];
     sessionStride := 16 |}.

Definition survey_world : World := answering (Some 150000) 9375.

Definition survey_request : ReadData.t :=
  ReadData.new survey_session "localhost" 8080 0 9375 7.

(** The record of the survey request after its retrieval task: 9375
    points of 16 bytes. *)
Definition survey_readData : ReadData.t := read_work survey_world survey_request.

(** A bindings object with a session, and a well-typed call of its
    [read]. *)
Definition survey_bindings : PdalBindings.t :=
  {| PdalBindings.m_pdalSession := Some survey_session;
     PdalBindings.m_readData := None;
     PdalBindings.tasks := [] |}.

Definition survey_call : list Value :=
  [VString "localhost"; VInteger 8080; VInteger 0; VInteger 9375; VFunction 7].

(** The object after [survey_call] has been accepted. *)
Definition survey_reading : PdalBindings.t :=
  {| PdalBindings.m_pdalSession := Some survey_session;
     PdalBindings.m_readData := Some 0%nat;
     PdalBindings.tasks :=
       [{| PdalBindings.world := survey_world;
           PdalBindings.request := queued survey_request |}] |}.

(** A record whose size is past [max_numBytes]. *)
Definition oversized_readData : ReadData.t :=
  ReadData.set_numBytes survey_readData SizeT.max.

(** The test on host, port and schema that opens [create], and the
    callback it reports to: the last argument. *)
Definition front_ok (args : list Value) : bool :=
  (3 <? List.length args)%nat &&
  isDefined (arg args 0) && IsString (arg args 0) &&
  isDefined (arg args 1) && isInteger (arg args 1) &&
  isDefined (arg args 2) && IsObject (arg args 2).

Definition last_callback (args : list Value) : nat :=
  callback_id (arg args (List.length args - 1)).

(** The number of bytes the constructor asks for, for a requested
    schema on a session. *)
Definition buffer_bytes (pdalSession : PdalSession) (schema : Schema) : Z :=
  SizeT.mul (getStride (schemaOrDefault pdalSession schema)) (getNumPoints pdalSession).

(** The four type checks that open [PdalBindings::read]. *)
Definition read_front_ok (args : list Value) : bool :=
  IsString (arg args 0) && IsNumber (arg args 1) &&
  IsNumber (arg args 2) && IsNumber (arg args 3).

(** An engine that answers every read with 3 points in a buffer of 80
    bytes, and a network that fails on the chunk at 65536. *)
Definition sample_engine : Engine :=
  {| read_range := fun _ _ _ _ => {| data_after := Some 80; points := Return 3 |};
     read_bbox := fun _ _ _ _ _ _ _ _ => {| data_after := Some 80; points := Return 3 |};
     read_depth := fun _ _ _ _ => {| data_after := Some 80; points := Return 3 |};
     read_radius := fun _ _ _ _ _ _ _ => {| data_after := Some 80; points := Return 3 |} |}.

Definition broken_pipe_world : World :=
  {| engine := engine survey_world;
     connect := Return tt;
     send := fun offset _ =>
               if offset =? 65536 then Throw (runtime_error "Broken pipe") else Return tt |}.

(** What JavaScript and libuv do to an object between two reads: libuv
    runs the next piece of work of the request at an address, or
    JavaScript calls [cancel]. *)
Inductive Event : Type :=
| WorkAt (p : nat)
| CancelCall.

Definition occur (obj : PdalBindings.t) (ev : Event) : PdalBindings.t :=
  match ev with
  | WorkAt p => PdalBindings.run_work p obj
  | CancelCall => snd (PdalBindings.cancel obj)
  end.

(** What the request at the address [p] sees of an event, on an object
    that points at [target]. *)
Definition seen_at (target : option nat) (p : nat) (ev : Event) : list Step :=
  match ev with
  | WorkAt q => if (q =? p)%nat then [Work] else []
  | CancelCall =>
      match target with
      | Some q => if (q =? p)%nat then [Cancel] else []
      | None => []
      end
  end.

(** What holds of a request from the callback [callback] under every
    schedule: nothing is observed of it before its retrieval is
    reported, and from then on its trace starts with the one invocation
    of the callback. *)
Definition reported (callback : nat) (r : Request) : Prop :=
  ReadData.callback (readData r) = callback /\
  match stage r with
  | ReadWork | ReadAfter => effects r = []
  | _ =>
      exists call tail,
        effects r = Invoke call :: tail /\ callee call = callback /\ invocations tail = []
  end.

(** The pieces of work a request at a stage still needs, at most, when
    its buffer holds [numBytes] bytes. *)
Definition work_left (numBytes : Z) (st : Stage) : nat :=
  match st with
  | ReadWork => chunk_count numBytes + 5
  | ReadAfter => chunk_count numBytes + 4
  | SendWork offset => chunk_count numBytes - Z.to_nat (offset / chunkSize) + 3
  | SendLeft _ => 2
  | SendAfter => 1
  | Deleted | Crashed => 0
  end.

Definition is_work (s : Step) : bool :=
  match s with
  | Work => true
  | Cancel => false
  end.

Definition pieces_of_work (steps : list Step) : nat :=
  List.length (List.filter is_work steps).

(** A request whose retrieval stores, or has stored, the size
    [numBytes], and whose transmit loop stands at a chunk boundary. *)
Definition on_course (w : World) (numBytes : Z) (r : Request) : Prop :=
  match stage r with
  | ReadWork => ReadData.numBytes (read_work w (readData r)) = numBytes
  | SendWork offset =>
      ReadData.numBytes (readData r) = numBytes /\
      exists k : nat, offset = Z.of_nat k * chunkSize /\ (k <= chunk_count numBytes)%nat
  | _ => ReadData.numBytes (readData r) = numBytes
  end.

(** The message an initialization ends with, and the session it leaves. *)
Definition init_message (initialize : string -> bool -> SessionBindings.InitializeAnswer)
    (cd : SessionBindings.CreateData) : string :=
  match SessionBindings.raised
          (initialize (SessionBindings.pipeline cd) (SessionBindings.execute cd)) with
  | Some e => SessionBindings.message e
  | None => EmptyString
  end.

Definition init_session (initialize : string -> bool -> SessionBindings.InitializeAnswer)
    (cd : SessionBindings.CreateData) : SessionBindings.Session :=
  SessionBindings.session_after
    (initialize (SessionBindings.pipeline cd) (SessionBindings.execute cd)).

(** What holds of the initialization at index [p] of an object: its
    session is the one at the address [p], and its message, its
    invocations and its session are those of its progress. *)
Definition well_formed (initialize : string -> bool -> SessionBindings.InitializeAnswer)
    (heap : list SessionBindings.Session) (p : nat) (r : SessionBindings.Initialization)
    : Prop :=
  SessionBindings.pdalSession (SessionBindings.createData r) = p /\
  match SessionBindings.progress r with
  | SessionBindings.ToInitialize =>
      SessionBindings.errMsg (SessionBindings.createData r) = EmptyString /\
      SessionBindings.invoked r = [] /\
      heap !! p = Some SessionBindings.Constructed
  | SessionBindings.ToReport =>
      SessionBindings.errMsg (SessionBindings.createData r) =
        init_message initialize (SessionBindings.createData r) /\
      SessionBindings.invoked r = [] /\
      heap !! p = Some (init_session initialize (SessionBindings.createData r))
  | SessionBindings.Done =>
      SessionBindings.invoked r =
        [{| callee := SessionBindings.callback (SessionBindings.createData r);
            argv := [VString (init_message initialize (SessionBindings.createData r))] |}] /\
      heap !! p = Some (init_session initialize (SessionBindings.createData r))
  end.

(** The invariant of the object: sessions and initializations are
    constructed together, every initialization is well formed, and the
    session of the object, when it has one, is the one of the
    initialization queued last, which [create] has queued. *)
Definition reachable_invariant
    (initialize : string -> bool -> SessionBindings.InitializeAnswer)
    (execute_default : bool) (obj : SessionBindings.t) : Prop :=
  List.length (SessionBindings.heap obj) = List.length (SessionBindings.requests obj) /\
  (forall p r, SessionBindings.requests obj !! p = Some r ->
               well_formed initialize (SessionBindings.heap obj) p r) /\
  (forall a, SessionBindings.m_pdalSession obj = Some a ->
             S a = List.length (SessionBindings.requests obj) /\
             exists r, SessionBindings.requests obj !! a = Some r /\
                       SessionBindings.execute (SessionBindings.createData r) =
                       execute_default).

(** An engine whose [initialize] runs out of memory, and the
    initialization of a [create] call once it is done on that engine. *)
Definition out_of_memory (_ : string) (_ : bool) : SessionBindings.InitializeAnswer :=
  {| SessionBindings.session_after := SessionBindings.Constructed;
     SessionBindings.raised := Some bad_alloc |}.

Definition sample_initialization : SessionBindings.Initialization :=
  {| SessionBindings.createData :=
       {| SessionBindings.pdalSession := 0;
          SessionBindings.pipeline := "pipeline.xml";
          SessionBindings.execute := true;
          SessionBindings.callback := 7;
          SessionBindings.errMsg := "Memory allocation failed in CREATE" |};
     SessionBindings.progress := SessionBindings.Done;
     SessionBindings.invoked :=
       [{| callee := 7%nat; argv := [VString "Memory allocation failed in CREATE"] |}] |}.

(** The record the object points at, when it points at one, has not
    been deleted. *)
Definition record_alive (obj : PdalBindings.t) : Prop :=
  forall p, PdalBindings.m_readData obj = Some p -> PdalBindings.in_flight obj p = true.

(** What the retrieval task has to leave in the record for the buffer
    to come back: the pointer of the engine, and a message that reports
    the failure, or a transmitter for the loop, or nothing to send. *)
Definition settled (w : World) (rd : ReadData.t) : Prop :=
  ReadData.data rd = data_after (engine w) /\
  (ReadData.errMsg rd <> EmptyString \/
   ReadData.bufferTransmitter rd <> None \/
   ReadData.numBytes rd = 0).

(** The life of the buffer of such a request: it is owned by the record
    until the record is deleted, and handed to [delete []] once, then. *)
Definition releasing (w : World) (r : Request) : Prop :=
  match stage r with
  | ReadWork => releases (effects r) = [] /\ settled w (read_work w (readData r))
  | ReadAfter => releases (effects r) = [] /\ settled w (readData r)
  | SendWork offset =>
      releases (effects r) = [] /\
      ReadData.data (readData r) = data_after (engine w) /\
      (ReadData.bufferTransmitter (readData r) <> None \/
       ReadData.numBytes (readData r) = 0) /\
      0 <= offset
  | SendLeft _ | SendAfter =>
      releases (effects r) = [] /\
      ReadData.data (readData r) = data_after (engine w)
  | Deleted | Crashed => releases (effects r) = [data_after (engine w)]
  end.

(** A world in which the constructor of the transmitter throws an
    exception whose message is empty. *)
Definition silent_failure_world : World :=
  {| engine := engine survey_world;
     connect := Throw (runtime_error EmptyString);
     send := fun _ _ => Return tt |}.

(** * Properties *)

(** ** Arithmetic of [std::size_t] *)

Module SizeTFacts.

Lemma modulus_pos : 0 < SizeT.modulus.
Proof. reflexivity. Qed.

Lemma wrap_range z : SizeT.in_range (SizeT.wrap z).
Proof. unfold SizeT.in_range, SizeT.wrap. apply Z.mod_pos_bound, modulus_pos. Qed.

Lemma wrap_small z : SizeT.in_range z -> SizeT.wrap z = z.
Proof. unfold SizeT.in_range, SizeT.wrap. intros H. now apply Z.mod_small. Qed.

Lemma mul_exact a b : SizeT.in_range (a * b) -> SizeT.mul a b = a * b.
Proof. apply wrap_small. Qed.

End SizeTFacts.

(** ** [strtoul] on the size strings of a descriptor *)

Example strtoul_decimal : CStdlib.strtoul "4" = 4.
Proof. reflexivity. Qed.

Example strtoul_zero : CStdlib.strtoul "0" = 0.
Proof. reflexivity. Qed.

Example strtoul_hex : CStdlib.strtoul "  0x1F" = 31.
Proof. reflexivity. Qed.

Example strtoul_octal : CStdlib.strtoul "010" = 8.
Proof. reflexivity. Qed.

Example strtoul_prefix : CStdlib.strtoul "12abc" = 12.
Proof. reflexivity. Qed.

Example strtoul_no_digits : CStdlib.strtoul "undefined" = 0.
Proof. reflexivity. Qed.

Example strtoul_negative : CStdlib.strtoul "-1" = 2 ^ 64 - 1.
Proof. reflexivity. Qed.

Example strtoul_overflow : CStdlib.strtoul "99999999999999999999" = 2 ^ 64 - 1.
Proof. reflexivity. Qed.

(** ** Strides *)

Lemma getStride_from_sum stride schema :
  getStride_from stride schema = SizeT.wrap (stride + sum_sizes schema) \/
  (schema = [] /\ getStride_from stride schema = stride).
Proof.
  revert stride. induction schema as [|dim rest IH]; intros stride.
  - right. split; reflexivity.
  - left. cbn [getStride_from]. destruct (IH (SizeT.add stride (size dim))) as [H | [Hnil H]].
    + rewrite H. unfold sum_sizes, SizeT.add, SizeT.wrap. cbn [List.map fold_right].
      fold (sum_sizes rest). rewrite Zplus_mod_idemp_l. f_equal. lia.
    + subst rest. rewrite H. unfold sum_sizes, SizeT.add. cbn. f_equal. lia.
Qed.

Lemma getStride_sum schema : getStride schema = SizeT.wrap (sum_sizes schema).
Proof.
  unfold getStride. destruct (getStride_from_sum 0 schema) as [H | [Hnil H]].
  - exact H.
  - subst schema. reflexivity.
Qed.

(** ** Type tests imply definedness *)

Lemma IsString_isDefined v : IsString v = true -> isDefined v = true.
Proof. destruct v; intros H; try reflexivity; discriminate H. Qed.

Lemma IsObject_isDefined v : IsObject v = true -> isDefined v = true.
Proof. destruct v; intros H; try reflexivity; discriminate H. Qed.

Lemma isInteger_isDefined v : isInteger v = true -> isDefined v = true.
Proof. destruct v; intros H; try reflexivity; discriminate H. Qed.

(** ** The command factory *)

Section FactoryProperties.

Variable host_to_string : Value -> string.
Variable can_allocate : Z -> bool.

(** What a successful constructor call leaves in the command. *)
Lemma new_ReadCommand_returns pdalSession host port schema callback query c calls :
  new_ReadCommand can_allocate pdalSession host port schema callback query = Returns (Some c) calls ->
  calls = [] /\
  m_schema c = schemaOrDefault pdalSession schema /\
  m_stride c = getStride (schemaOrDefault pdalSession schema) /\
  m_data c = Some (SizeT.mul (m_stride c) (getNumPoints pdalSession)) /\
  m_bufferTransmitter c = None /\
  m_numPoints c = 0 /\
  m_numBytes c = 0 /\
  m_query c = query /\
  m_callback c = callback.
Proof.
  unfold new_ReadCommand.
  destruct (can_allocate _); [|discriminate].
  intros H. injection H as <- <-. cbn. repeat split; reflexivity.
Qed.

(** Every command [create] returns went through the constructor with
    the schema parsed from the third argument. *)
Lemma create_returns_command args pdalSession c calls :
  create host_to_string can_allocate args pdalSession = Returns (Some c) calls ->
  exists schema host port callback query,
    parse_schema host_to_string (arg args 2) = Some schema /\
    new_ReadCommand can_allocate pdalSession host port schema callback query = Returns (Some c) calls.
Proof.
  unfold create, create_quad_index.
  repeat match goal with
         | |- context [if ?b then _ else _] => destruct b
         | |- context [match parse_schema ?h ?v with _ => _ end] =>
             destruct (parse_schema h v) eqn:?
         | |- context [match arg ?a ?i with _ => _ end] => destruct (arg a i) eqn:?
         end;
    try discriminate; intros H; eauto 10.
Qed.

Lemma GetIndex_firstn (bbox : list Value) (n i : nat) :
  (i < n)%nat -> GetIndex (firstn n bbox) i = GetIndex bbox i.
Proof.
  unfold GetIndex. revert n i. induction bbox as [|v rest IH]; intros n i Hi.
  - rewrite firstn_nil. reflexivity.
  - destruct n as [|n]; [lia|]. destruct i as [|i]; cbn; [reflexivity|].
    apply IH. lia.
Qed.

Lemma create_quad_index_firstn a0 a1 a2 bbox a4 a5 a6 pdalSession host port schema callback :
  create_quad_index can_allocate [a0; a1; a2; VArray (firstn 4 bbox); a4; a5; a6]
    pdalSession host port schema callback =
  create_quad_index can_allocate [a0; a1; a2; VArray bbox; a4; a5; a6]
    pdalSession host port schema callback.
Proof.
  unfold create_quad_index. cbn [arg nth isDefined IsUndefined negb].
  rewrite !GetIndex_firstn by lia. reflexivity.
Qed.

Lemma create_quad_index_identifies args pdalSession host port schema callback :
  create_quad_index can_allocate args pdalSession host port schema callback <>
  Returns None [errorCallback callback "Could not identify 'read' from args"].
Proof.
  unfold create_quad_index, new_ReadCommand.
  repeat match goal with
         | |- context [if ?b then _ else _] => destruct b
         | |- context [match arg ?a ?i with _ => _ end] => destruct (arg a i)
         end; discriminate.
Qed.

(** The 7-argument shape with a defined array in position 3, once the
    first three arguments have passed. *)
Lemma create_seven_array a0 a1 a2 bbox a4 a5 cb pdalSession schema :
  IsString a0 = true -> isInteger a1 = true -> IsObject a2 = true ->
  parse_schema host_to_string a2 = Some schema ->
  isInteger a4 = true -> isInteger a5 = true ->
  create host_to_string can_allocate
    [a0; a1; a2; VArray bbox; a4; a5; VFunction cb] pdalSession =
  if 4 <=? ArrayLength bbox then
    create_quad_index can_allocate [a0; a1; a2; VArray bbox; a4; a5; VFunction cb]
      pdalSession (Utf8Value host_to_string a0) (Uint32Value a1) schema cb
  else Returns None [errorCallback cb "Could not identify 'read' from args"].
Proof.
  intros H0 H1 H2 Hs H4 H5. unfold create.
  cbn [List.length arg nth Nat.sub Nat.eqb Nat.ltb Nat.leb IsFunction negb orb andb
       callback_id isDefined IsUndefined IsArray IsBoolean].
  rewrite (IsString_isDefined _ H0), H0, (isInteger_isDefined _ H1), H1,
    (IsObject_isDefined _ H2), H2, Hs,
    (isInteger_isDefined _ H4), H4, (isInteger_isDefined _ H5), H5.
  cbn [andb orb negb]. rewrite !andb_true_r.
  destruct (4 <=? ArrayLength bbox); reflexivity.
Qed.

(** *** The schema descriptor *)

Lemma ToObject_has_handle elem : has_handle elem = true -> ToObject elem = Some elem.
Proof. destruct elem; intros H; try reflexivity; discriminate H. Qed.

Lemma parse_dimension_kept elem :
  has_handle elem = true ->
  parse_dimension host_to_string elem =
  Some (if kept host_to_string elem then Some (request_of host_to_string elem) else None).
Proof.
  intros H. unfold parse_dimension, kept, request_of, parsed_size.
  rewrite (ToObject_has_handle _ H).
  destruct (CStdlib.strtoul _ =? 0); reflexivity.
Qed.

Lemma parse_dimensions_filter dims schema :
  forallb has_handle dims = true ->
  parse_dimensions host_to_string dims schema =
  Some (schema ++ List.map (request_of host_to_string) (List.filter (kept host_to_string) dims)).
Proof.
  revert schema. induction dims as [|elem rest IH]; intros schema H.
  - cbn. rewrite app_nil_r. reflexivity.
  - cbn [forallb] in H. apply andb_prop in H as [He Hrest].
    cbn [parse_dimensions List.filter]. rewrite (parse_dimension_kept _ He).
    destruct (kept host_to_string elem).
    + rewrite (IH _ Hrest). cbn [List.map]. rewrite <- app_assoc. reflexivity.
    + apply IH, Hrest.
Qed.

Lemma forallb_filter {A} (p q : A -> bool) (l : list A) :
  forallb p l = true -> forallb p (List.filter q l) = true.
Proof.
  induction l as [|x l IH]; [reflexivity|]. cbn [forallb List.filter].
  intros H. apply andb_prop in H as [Hx Hl].
  destruct (q x); cbn [forallb]; rewrite ?Hx; auto.
Qed.

Lemma filter_filter_same {A} (q : A -> bool) (l : list A) :
  List.filter q (List.filter q l) = List.filter q l.
Proof.
  induction l as [|x l IH]; [reflexivity|]. cbn [List.filter].
  destruct (q x) eqn:Hq; cbn [List.filter]; rewrite ?Hq, IH; reflexivity.
Qed.

Lemma parse_schema_filter props dims :
  assoc "dimensions" props = Some (VArray dims) ->
  forallb has_handle dims = true ->
  parse_schema host_to_string (VObject props) =
  Some (List.map (request_of host_to_string) (List.filter (kept host_to_string) dims)).
Proof.
  intros Hd Hh. unfold parse_schema, Has, Get. rewrite Hd.
  apply (parse_dimensions_filter dims [] Hh).
Qed.

(** The factory looks at a plain object in position 2 only through
    [parse_schema]. *)
Lemma create_schema_ext a0 a1 props props' rest pdalSession :
  parse_schema host_to_string (VObject props) = parse_schema host_to_string (VObject props') ->
  create host_to_string can_allocate (a0 :: a1 :: VObject props :: rest) pdalSession =
  create host_to_string can_allocate (a0 :: a1 :: VObject props' :: rest) pdalSession.
Proof.
  intros H. destruct rest as [|a3 rest]; [reflexivity|].
  unfold create, create_quad_index.
  cbn [List.length arg nth Nat.sub]. rewrite H. reflexivity.
Qed.

(** C8, as amended.  For a descriptor whose [dimensions] array holds
    values with an object handle: the schema parsed by the factory is
    the list of the entries whose size string [strtoul] reads as
    non-zero, in their order, each with its parsed name, type and size;
    the entries whose size reads as zero or does not parse are left out,
    the stride of the parsed schema is the sum of the sizes kept, and
    the call ends exactly as if the dropped entries had not been sent
    (no error is reported for them).  The command's schema is the parsed
    one when it keeps at least one entry, and the native schema of the
    session when it keeps none. *)
Theorem zero_size_dimensions_are_dropped props dims :
  assoc "dimensions" props = Some (VArray dims) ->
  forallb has_handle dims = true ->
  let kept_dims := List.filter (kept host_to_string) dims in
  let schema := List.map (request_of host_to_string) kept_dims in
  parse_schema host_to_string (VObject props) = Some schema /\
  getStride schema =
    SizeT.wrap (fold_right Z.add 0 (List.map (parsed_size host_to_string) kept_dims)) /\
  (forall pdalSession,
     schemaOrDefault pdalSession schema =
     match kept_dims with
     | [] => nativeSchema pdalSession
     | _ :: _ => schema
     end) /\
  (forall a0 a1 rest pdalSession,
     create host_to_string can_allocate (a0 :: a1 :: VObject props :: rest) pdalSession =
     create host_to_string can_allocate (a0 :: a1 :: descriptor kept_dims :: rest) pdalSession).
Proof.
  intros Hd Hh kept_dims schema.
  pose proof (parse_schema_filter props dims Hd Hh) as Hparse.
  split; [exact Hparse|]. split; [|split].
  - rewrite getStride_sum. unfold sum_sizes, schema. rewrite List.map_map. reflexivity.
  - intros pdalSession. unfold schemaOrDefault, schema.
    destruct kept_dims; reflexivity.
  - intros a0 a1 rest pdalSession. apply create_schema_ext.
    rewrite Hparse. symmetry. unfold descriptor.
    rewrite (parse_schema_filter [("dimensions"%string, VArray kept_dims)] kept_dims).
    + unfold kept_dims. rewrite filter_filter_same. reflexivity.
    + reflexivity.
    + apply forallb_filter, Hh.
Qed.

Lemma create_returns_buffer args pdalSession c calls :
  create host_to_string can_allocate args pdalSession = Returns (Some c) calls ->
  m_data c = Some (SizeT.mul (m_stride c) (getNumPoints pdalSession)) /\
  m_bufferTransmitter c = None /\
  m_numPoints c = 0.
Proof.
  intros H.
  destruct (create_returns_command _ _ _ _ H)
    as (schema & host & port & callback & query & _ & Hnew).
  pose proof (new_ReadCommand_returns _ _ _ _ _ _ _ _ Hnew)
    as (_ & _ & _ & Hdata & Hbt & Hnp & _).
  auto.
Qed.

(** C9.  Every command the factory returns comes out of the
    [ReadCommand] constructor with its buffer already allocated, before
    [run] (the retrieval phase) has been called on it: no transmitter is
    bound and the counts are still zero.  The buffer holds [m_stride *
    getNumPoints()] bytes, in [std::size_t] arithmetic, where [m_stride]
    is the stride of the schema parsed from the third argument (or of
    the native schema when that is empty): the size does not depend on
    the count, the bounding box, the depths or the radius of the query. *)
Theorem create_allocates_in_constructor args pdalSession c calls :
  create host_to_string can_allocate args pdalSession = Returns (Some c) calls ->
  exists schema,
    parse_schema host_to_string (arg args 2) = Some schema /\
    m_stride c = getStride (schemaOrDefault pdalSession schema) /\
    m_data c = Some (SizeT.mul (m_stride c) (getNumPoints pdalSession)) /\
    can_allocate (SizeT.mul (m_stride c) (getNumPoints pdalSession)) = true /\
    m_bufferTransmitter c = None /\
    m_numPoints c = 0 /\
    m_numBytes c = 0 /\
    calls = [].
Proof.
  intros H.
  destruct (create_returns_command _ _ _ _ H)
    as (schema & host & port & callback & query & Hs & Hnew).
  exists schema. split; [exact Hs|].
  pose proof (new_ReadCommand_returns _ _ _ _ _ _ _ _ Hnew)
    as (Hc & _ & Hstride & Hdata & Hbt & Hnp & Hnb & _ & _).
  repeat split; try assumption.
  unfold new_ReadCommand in Hnew. rewrite Hstride.
  destruct (can_allocate _) eqn:Ha; [reflexivity|discriminate].
Qed.

End FactoryProperties.

(** ** The factory on concrete calls *)

(** The test the factory applies to a box of four numbers. *)
Lemma create_quad_index_bbox_test can_allocate a0 a1 a2 xMin yMin xMax yMax a4 a5 a6
    pdalSession host port schema callback :
  create_quad_index can_allocate
    [a0; a1; a2; VArray [VNumber xMin; VNumber yMin; VNumber xMax; VNumber yMax]; a4; a5; a6]
    pdalSession host port schema callback =
  if Double.geb xMax xMin && Double.geb yMax xMin then
    new_ReadCommand can_allocate pdalSession host port schema callback
      (ReadCommandQuadIndex
         (Some {| m_xMin := xMin; m_yMin := yMin; m_xMax := xMax; m_yMax := yMax |})
         (Uint32Value a4) (Uint32Value a5))
  else Returns None [errorCallback callback "Invalid coords in query"].
Proof. reflexivity. Qed.

(** C1.  The bounding-box test of the factory reads [xMax >= xMin &&
    yMax >= xMin].  A box with [yMax < yMin] whose [yMax] is still at
    least [xMin] is accepted and a spatial command is built from it; a
    box with [xMax >= xMin] and [yMax >= yMin] whose [yMax] is below
    [xMin] is refused with the coordinate error. *)
Lemma create_compares_yMax_with_xMin :
  (exists c,
     create plain_host always_allocates
       [VString "localhost"; VInteger 8080; VObject [];
        VArray [VInteger 0; VInteger 5; VInteger 10; VInteger 3];
        VInteger 0; VInteger 1; VFunction 7] sample_session = Returns (Some c) [] /\
     m_query c =
       ReadCommandQuadIndex
         (Some {| m_xMin := Double.of_Z 0; m_yMin := Double.of_Z 5;
                  m_xMax := Double.of_Z 10; m_yMax := Double.of_Z 3 |}) 0 1) /\
  create plain_host always_allocates
    [VString "localhost"; VInteger 8080; VObject [];
     VArray [VInteger 10; VInteger 0; VInteger 20; VInteger 5];
     VInteger 0; VInteger 1; VFunction 7] sample_session =
  Returns None [errorCallback 7 "Invalid coords in query"].
Proof.
  split.
  - eexists. split; vm_compute; reflexivity.
  - vm_compute. reflexivity.
Qed.

Lemma create_allocates_in_constructor_witness :
  exists schema,
    parse_schema plain_host (arg range_call 2) = Some schema /\
    m_stride range_command = getStride (schemaOrDefault sample_session schema) /\
    m_data range_command =
      Some (SizeT.mul (m_stride range_command) (getNumPoints sample_session)) /\
    always_allocates (SizeT.mul (m_stride range_command) (getNumPoints sample_session)) = true /\
    m_bufferTransmitter range_command = None /\
    m_numPoints range_command = 0 /\
    m_numBytes range_command = 0 /\
    @nil Call = [].
Proof.
  apply (create_allocates_in_constructor plain_host always_allocates
           range_call sample_session range_command []).
  vm_compute. reflexivity.
Defined.

Lemma zero_size_dimension_falls_back_to_native :
  parse_schema plain_host (descriptor [dimension_entry "X" "floating" "0"]) = Some [] /\
  exists c,
    create plain_host always_allocates
      [VString "localhost"; VInteger 8080;
       descriptor [dimension_entry "X" "floating" "0"];
       VInteger 0; VInteger 10; VFunction 7] sample_session = Returns (Some c) [] /\
    m_schema c = [dimension "X" "floating" 8; dimension "Y" "floating" 8] /\
    m_stride c = 16.
Proof. split; [reflexivity|]. eexists. repeat split; vm_compute; reflexivity. Qed.

Lemma zero_size_dimensions_are_dropped_witness :
  parse_schema plain_host
    (descriptor [dimension_entry "X" "floating" "4";
                 dimension_entry "Bad" "floating" "0";
                 dimension_entry "Worse" "floating" "four";
                 dimension_entry "Intensity" "unsigned" "2"]) =
  Some [dimension "X" "floating" 4; dimension "Intensity" "unsigned" 2].
Proof.
  exact (proj1 (zero_size_dimensions_are_dropped plain_host always_allocates
                  [("dimensions"%string,
                    VArray [dimension_entry "X" "floating" "4";
                            dimension_entry "Bad" "floating" "0";
                            dimension_entry "Worse" "floating" "four";
                            dimension_entry "Intensity" "unsigned" "2"])]
                  [dimension_entry "X" "floating" "4";
                   dimension_entry "Bad" "floating" "0";
                   dimension_entry "Worse" "floating" "four";
                   dimension_entry "Intensity" "unsigned" "2"]
                  eq_refl eq_refl)).
Defined.

(** ** The chunk sequence *)

Lemma chunk_count_Z numBytes :
  0 <= numBytes ->
  Z.of_nat (chunk_count numBytes) = (numBytes + chunkSize - 1) / chunkSize.
Proof.
  intros H. unfold chunk_count. rewrite Z2Nat.id; [reflexivity|].
  unfold chunkSize. apply Z.div_pos; lia.
Qed.

Lemma chunk_count_lt numBytes (i : nat) :
  0 <= numBytes ->
  (i < chunk_count numBytes)%nat <-> Z.of_nat i * chunkSize < numBytes.
Proof.
  intros H. pose proof (chunk_count_Z numBytes H) as Hc.
  unfold chunkSize in *. split; intros Hi.
  - assert (Z.of_nat i < (numBytes + 65536 - 1) / 65536) by lia.
    Z.to_euclidean_division_equations. lia.
  - assert (Z.of_nat i < (numBytes + 65536 - 1) / 65536); [|lia].
    Z.to_euclidean_division_equations. lia.
Qed.

Lemma spec_chunk_length_min numBytes (i : nat) :
  0 <= numBytes ->
  (i < chunk_count numBytes)%nat ->
  Z.min chunkSize (numBytes - Z.of_nat i * chunkSize) = spec_chunk_length numBytes i.
Proof.
  intros H Hi. unfold spec_chunk_length.
  pose proof (proj1 (chunk_count_lt numBytes i H) Hi) as Hlt.
  destruct (Nat.ltb_spec (S i) (chunk_count numBytes)) as [Hs|Hs].
  - apply (chunk_count_lt numBytes (S i) H) in Hs. unfold chunkSize in *. lia.
  - assert (Hge : numBytes <= Z.of_nat (S i) * chunkSize).
    { destruct (Z.lt_ge_cases (Z.of_nat (S i) * chunkSize) numBytes) as [Hc|Hc]; [|lia].
      apply (chunk_count_lt numBytes (S i) H) in Hc. lia. }
    unfold chunkSize in *.
    destruct (Z.eqb_spec (numBytes mod 65536) 0) as [Hm|Hm];
      Z.to_euclidean_division_equations; lia.
Qed.

Lemma spec_chunk_length_pos numBytes i :
  0 <= numBytes -> (i < chunk_count numBytes)%nat -> 0 < spec_chunk_length numBytes i.
Proof.
  intros H Hi. rewrite <- (spec_chunk_length_min numBytes i H Hi).
  apply (chunk_count_lt numBytes i H) in Hi. unfold chunkSize in *. lia.
Qed.

Lemma spec_chunks_tile_from numBytes (j i : nat) :
  0 <= numBytes ->
  (i + j = chunk_count numBytes)%nat ->
  tiles (Z.min (Z.of_nat i * chunkSize) numBytes)
    (List.map (spec_chunk numBytes) (seq i j)) numBytes.
Proof.
  intros H. revert i. induction j as [|j IH]; intros i Hij.
  - cbn. assert (Hge : ~ Z.of_nat i * chunkSize < numBytes).
    { intros Hc. apply (chunk_count_lt numBytes i H) in Hc. lia. }
    lia.
  - assert (Hi : (i < chunk_count numBytes)%nat) by lia.
    pose proof (proj1 (chunk_count_lt numBytes i H) Hi) as Hlt.
    pose proof (spec_chunk_length_min numBytes i H Hi) as Hmin.
    pose proof (spec_chunk_length_pos numBytes i H Hi) as Hpos.
    cbn [seq List.map tiles spec_chunk]. split; [lia|]. split; [exact Hpos|].
    replace (Z.min (Z.of_nat i * chunkSize) numBytes + spec_chunk_length numBytes i)
      with (Z.min (Z.of_nat (S i) * chunkSize) numBytes)
      by (unfold chunkSize in *; lia).
    apply IH. lia.
Qed.

Lemma spec_chunks_tile numBytes : 0 <= numBytes -> tiles 0 (spec_chunks numBytes) numBytes.
Proof.
  intros H. pose proof (spec_chunks_tile_from numBytes (chunk_count numBytes) 0 H eq_refl) as Ht.
  replace (Z.min (Z.of_nat 0 * chunkSize) numBytes) with 0 in Ht by (cbn; lia).
  exact Ht.
Qed.

Lemma total_length_app ws ws' :
  total_length (ws ++ ws') = total_length ws + total_length ws'.
Proof.
  unfold total_length. induction ws as [|w ws IH]; cbn; [reflexivity|].
  rewrite IH. lia.
Qed.

(** The first [k] chunks carry the first [min (k * chunkSize) numBytes]
    bytes. *)
Lemma spec_chunks_prefix_total numBytes (k : nat) :
  0 <= numBytes ->
  (k <= chunk_count numBytes)%nat ->
  total_length (List.map (spec_chunk numBytes) (seq 0 k)) =
  Z.min (Z.of_nat k * chunkSize) numBytes.
Proof.
  intros H. induction k as [|k IH]; intros Hk.
  - cbn. lia.
  - rewrite seq_S, List.map_app, total_length_app, IH by lia.
    cbn [Nat.add List.map spec_chunk total_length fold_right snd].
    assert (Hi : (k < chunk_count numBytes)%nat) by lia.
    rewrite <- (spec_chunk_length_min numBytes k H Hi).
    apply (chunk_count_lt numBytes k H) in Hi. unfold chunkSize in *. lia.
Qed.

(** ** Traces *)

Lemma writes_app es es' : writes (es ++ es') = writes es ++ writes es'.
Proof.
  induction es as [|e es IH]; [reflexivity|].
  destruct e; cbn; rewrite IH; reflexivity.
Qed.

Lemma invocations_app es es' : invocations (es ++ es') = invocations es ++ invocations es'.
Proof.
  induction es as [|e es IH]; [reflexivity|].
  destruct e; cbn; rewrite IH; reflexivity.
Qed.

Lemma releases_app es es' : releases (es ++ es') = releases es ++ releases es'.
Proof.
  induction es as [|e es IH]; [reflexivity|].
  destruct e; cbn; rewrite IH; reflexivity.
Qed.

Lemma writes_write_of ws : writes (List.map write_of ws) = ws.
Proof.
  induction ws as [|[offset length] ws IH]; [reflexivity|].
  cbn. rewrite IH. reflexivity.
Qed.

Lemma invocations_write_of ws : invocations (List.map write_of ws) = [].
Proof. induction ws as [|c ws IH]; [reflexivity|exact IH]. Qed.

Lemma releases_write_of ws : releases (List.map write_of ws) = [].
Proof. induction ws as [|c ws IH]; [reflexivity|exact IH]. Qed.

Create Rewrite HintDb traces.

#[local] Hint Rewrite writes_app invocations_app releases_app
  writes_write_of invocations_write_of releases_write_of : traces.

Lemma execute_app w steps steps' r :
  execute w (steps ++ steps') r = execute w steps' (execute w steps r).
Proof. unfold execute. apply fold_left_app. Qed.

Lemma execute_cons w s steps r :
  execute w (s :: steps) r = execute w steps (step w s r).
Proof. reflexivity. Qed.

Lemma repeat_snoc {A} (a : A) (n : nat) : repeat a (S n) = repeat a n ++ [a].
Proof. cbn [repeat]. apply repeat_cons. Qed.

(** ** The pieces of work, stage by stage *)

Lemma work_ReadWork w rd es :
  work w {| readData := rd; stage := ReadWork; effects := es |} =
  {| readData := read_work w rd; stage := ReadAfter; effects := es |}.
Proof. reflexivity. Qed.

Lemma work_ReadAfter w rd es :
  work w {| readData := rd; stage := ReadAfter; effects := es |} =
  {| readData := rd; stage := fst (read_after rd); effects := es ++ snd (read_after rd) |}.
Proof. unfold work. cbn [stage readData effects]. destruct (read_after rd). reflexivity. Qed.

Lemma work_SendWork w rd offset es :
  work w {| readData := rd; stage := SendWork offset; effects := es |} =
  {| readData := rd;
     stage := fst (send_iteration w rd offset);
     effects := es ++ snd (send_iteration w rd offset) |}.
Proof.
  unfold work. cbn [stage readData effects]. destruct (send_iteration w rd offset). reflexivity.
Qed.

Lemma work_SendLeft w rd offset es :
  work w {| readData := rd; stage := SendLeft offset; effects := es |} =
  {| readData := rd; stage := SendAfter; effects := es ++ snd (send_left rd offset) |}.
Proof. reflexivity. Qed.

Lemma work_SendAfter w rd es :
  work w {| readData := rd; stage := SendAfter; effects := es |} =
  {| readData := rd;
     stage := Deleted;
     effects := es ++ [DeleteArray (ReadData.data rd); DeleteReadData] |}.
Proof. reflexivity. Qed.

(** ** From the retrieval to the transmission *)

(** A retrieval that succeeds is followed by the one invocation of the
    callback with [null] and the two counts, and leaves the request at
    the start of its transmission, the transmitter bound and the flag
    down. *)
Lemma retrieval_success_starts_transmission w pdalSession host port start count callback n u :
  points (engine w) = Return n ->
  connect w = Return u ->
  let rd := read_work w (ReadData.new pdalSession host port start count callback) in
  execute w [Work; Work]
    (queued (ReadData.new pdalSession host port start count callback)) =
  transmission rd
    [Invoke {| callee := callback;
               argv := [VNull;
                        VInteger (to_int32 n);
                        VInteger (to_int32 (SizeT.mul n (sessionStride pdalSession)))] |}] /\
  ReadData.bufferTransmitter rd <> None /\
  ReadData.cancel rd = false /\
  ReadData.numBytes rd = SizeT.mul n (sessionStride pdalSession) /\
  ReadData.data rd = data_after (engine w).
Proof.
  intros Hn Hu. cbv zeta. unfold execute, queued. cbn [fold_left step].
  rewrite work_ReadWork, work_ReadAfter. unfold read_work, read_after.
  rewrite Hn, Hu. cbn. repeat split. discriminate.
Qed.

Example survey_pipeline :
  execute survey_world (repeat Work 8) (queued survey_request) =
  {| readData := survey_readData;
     stage := Deleted;
     effects := [Invoke {| callee := 7%nat;
                           argv := [VNull; VInteger 9375; VInteger 150000] |};
                 Write 0 65536; Write 65536 65536; Write 131072 18928;
                 DeleteArray (Some 150000); DeleteReadData] |}.
Proof. vm_compute. reflexivity. Qed.

(** ** The transmit loop *)

Section TransmitLoop.

Variable w : World.
Variable rd : ReadData.t.

Hypothesis transmitter_bound : ReadData.bufferTransmitter rd <> None.
Hypothesis numBytes_fits : 0 <= ReadData.numBytes rd <= max_numBytes.

Lemma next_offset (k : nat) :
  (k < chunk_count (ReadData.numBytes rd))%nat ->
  SizeT.add (Z.of_nat k * chunkSize) chunkSize = Z.of_nat (S k) * chunkSize.
Proof using numBytes_fits.
  intros Hk. apply (chunk_count_lt _ k (proj1 numBytes_fits)) in Hk.
  unfold SizeT.add. rewrite SizeTFacts.wrap_small; [lia|].
  unfold SizeT.in_range, max_numBytes, chunkSize in *. lia.
Qed.

(** One turn of the loop while chunks remain and the flag is down. *)
Lemma send_iteration_chunk (k : nat) :
  ReadData.cancel rd = false ->
  (k < chunk_count (ReadData.numBytes rd))%nat ->
  send_iteration w rd (Z.of_nat k * chunkSize) =
  match send w (Z.of_nat k * chunkSize) (spec_chunk_length (ReadData.numBytes rd) k) with
  | Return _ =>
      (SendWork (Z.of_nat (S k) * chunkSize), [write_of (spec_chunk (ReadData.numBytes rd) k)])
  | Throw _ =>
      (SendAfter,
       [write_of (spec_chunk (ReadData.numBytes rd) k);
        Stdout "Caught error transmitting buffer"])
  end.
Proof using transmitter_bound numBytes_fits.
  intros Hc Hk. unfold send_iteration. rewrite Hc.
  pose proof (proj1 (chunk_count_lt _ k (proj1 numBytes_fits)) Hk) as Hlt.
  apply Z.ltb_lt in Hlt. rewrite Hlt. cbn [andb negb].
  destruct (ReadData.bufferTransmitter rd) as [bt|]; [|contradiction].
  rewrite (spec_chunk_length_min _ k (proj1 numBytes_fits) Hk), (next_offset k Hk).
  reflexivity.
Qed.

(** The loop is left when the flag is up or no chunk remains. *)
Lemma send_iteration_leaves (k : nat) :
  ReadData.cancel rd = true \/ k = chunk_count (ReadData.numBytes rd) ->
  send_iteration w rd (Z.of_nat k * chunkSize) = (SendLeft (Z.of_nat k * chunkSize), []).
Proof using numBytes_fits.
  intros H. unfold send_iteration.
  destruct H as [Hc|Hk].
  - rewrite Hc, andb_false_r. reflexivity.
  - assert (Hge : (Z.of_nat k * chunkSize <? ReadData.numBytes rd) = false).
    { apply Z.ltb_ge. destruct (Z.lt_ge_cases (Z.of_nat k * chunkSize) (ReadData.numBytes rd))
        as [Hlt|Hge]; [|lia].
      apply (chunk_count_lt _ k (proj1 numBytes_fits)) in Hlt. lia. }
    rewrite Hge. reflexivity.
Qed.

Lemma after_chunks_step es (k : nat) :
  ReadData.cancel rd = false ->
  (forall offset length, send w offset length = Return tt) ->
  (k < chunk_count (ReadData.numBytes rd))%nat ->
  work w (after_chunks rd es k) = after_chunks rd es (S k).
Proof using transmitter_bound numBytes_fits.
  intros Hc Hsend Hk. unfold after_chunks.
  rewrite work_SendWork, (send_iteration_chunk k Hc Hk), Hsend.
  rewrite seq_S, !List.map_app, app_assoc. reflexivity.
Qed.

Lemma execute_chunks es (k : nat) :
  ReadData.cancel rd = false ->
  (forall offset length, send w offset length = Return tt) ->
  (k <= chunk_count (ReadData.numBytes rd))%nat ->
  execute w (repeat Work k) (transmission rd es) = after_chunks rd es k.
Proof using transmitter_bound numBytes_fits.
  intros Hc Hsend. induction k as [|k IH]; intros Hk.
  - unfold after_chunks, transmission. cbn. rewrite app_nil_r. reflexivity.
  - rewrite repeat_snoc, execute_app, IH by lia.
    cbn [execute fold_left step]. apply after_chunks_step; [assumption..|lia].
Qed.

End TransmitLoop.

(** C5.  A transmission that is not cancelled and whose writes all
    succeed issues exactly the chunk sequence and then releases the
    buffer: the writes start at offset 0, each begins where the previous
    one ended, together they end at [numBytes], the [i]-th starts at [i
    * 65536] and is 65536 bytes long unless it is the last, which holds
    [numBytes mod 65536] bytes (a full chunk when that is 0); with
    [numBytes = 0] there is no write at all.  [numBytes] is at most
    [max_numBytes], as the size of any buffer that exists is, so that
    the loop variable cannot wrap around. *)
Theorem uncancelled_transmission_sends_every_chunk w rd es :
  ReadData.bufferTransmitter rd <> None ->
  0 <= ReadData.numBytes rd <= max_numBytes ->
  ReadData.cancel rd = false ->
  (forall offset length, send w offset length = Return tt) ->
  let numBytes := ReadData.numBytes rd in
  execute w (repeat Work (chunk_count numBytes + 3)) (transmission rd es) =
    {| readData := rd;
       stage := Deleted;
       effects := es ++ List.map write_of (spec_chunks numBytes) ++
                  [DeleteArray (ReadData.data rd); DeleteReadData] |} /\
  (forall k, (k <= chunk_count numBytes)%nat ->
     writes (effects (execute w (repeat Work k) (transmission rd es))) =
     writes es ++ List.map (spec_chunk numBytes) (seq 0 k)) /\
  tiles 0 (spec_chunks numBytes) numBytes /\
  (forall i, (i < chunk_count numBytes)%nat ->
     nth i (spec_chunks numBytes) (0, 0) =
     (Z.of_nat i * 65536,
      if (S i <? chunk_count numBytes)%nat then 65536
      else if numBytes mod 65536 =? 0 then 65536
      else numBytes mod 65536)) /\
  (numBytes = 0 -> spec_chunks numBytes = []).
Proof.
  intros Hbt Hfit Hc Hsend. cbv zeta. split; [|split; [|split; [|split]]].
  - rewrite repeat_app, execute_app, (execute_chunks w rd Hbt Hfit es _ Hc Hsend) by lia.
    cbn [repeat execute fold_left step]. unfold after_chunks.
    rewrite work_SendWork, (send_iteration_leaves w rd Hfit _ (or_intror eq_refl)).
    cbn [fst snd]. rewrite work_SendLeft. unfold send_left. rewrite Hc.
    cbn [snd]. rewrite work_SendAfter, !app_nil_r, <- app_assoc. reflexivity.
  - intros k Hk. rewrite (execute_chunks w rd Hbt Hfit es _ Hc Hsend Hk).
    unfold after_chunks. cbn [effects]. rewrite writes_app, writes_write_of. reflexivity.
  - apply spec_chunks_tile, Hfit.
  - intros i Hi. unfold spec_chunks.
    rewrite (nth_indep _ (0, 0) (spec_chunk (ReadData.numBytes rd) 0)) by (rewrite length_map, length_seq; exact Hi).
    rewrite map_nth, seq_nth by exact Hi. reflexivity.
  - intros H0. unfold spec_chunks. rewrite H0. reflexivity.
Qed.

(** Past [max_numBytes] the loop variable wraps around: after the chunk
    at [2^64 - 65536] the loop is back at offset 0. *)
Example loop_variable_wraps_past_max_numBytes :
  send_iteration survey_world oversized_readData (SizeT.modulus - chunkSize) =
  (SendWork 0, [Write (SizeT.modulus - chunkSize) (chunkSize - 1)]).
Proof. vm_compute. reflexivity. Qed.

(** ** Transmission under any schedule *)

Lemma sending_start rd es : sending rd es (transmission rd es).
Proof.
  unfold sending, transmission. cbn [readData stage effects].
  repeat split. exists 0%nat, []. rewrite app_nil_r. cbn. repeat split. lia.
Qed.

(** The three equations of [sending] on the record are found among the
    hypotheses. *)
Ltac same_record := split; [eassumption|]; split; [eassumption|]; split; [eassumption|].

Lemma sending_flag_cancel rd es r : sending rd es r -> sending rd es (flag_cancel r).
Proof.
  intros (Hn & Hbt & Hd & k & tail & He & Hk & Hw & Hi & Hst).
  unfold flag_cancel.
  destruct (stage r) eqn:Hs; try contradiction;
    (same_record; exists k, tail; cbn [readData stage effects]; repeat split; tauto).
Qed.

Lemma sending_work w rd es r :
  ReadData.bufferTransmitter rd <> None ->
  0 <= ReadData.numBytes rd <= max_numBytes ->
  sending rd es r -> sending rd es (work w r).
Proof.
  intros Hbound Hfit (Hn & Hbt & Hd & k & tail & He & Hk & Hw & Hi & Hst).
  destruct r as [rd' st es']. cbn [readData stage effects] in *. subst es'.
  assert (Hbound' : ReadData.bufferTransmitter rd' <> None) by (rewrite Hbt; exact Hbound).
  assert (Hfit' : 0 <= ReadData.numBytes rd' <= max_numBytes) by (rewrite Hn; exact Hfit).
  destruct st as [| |offset|offset| | |]; try contradiction.
  - (* the loop condition *)
    destruct Hst as [-> Hr]. rewrite work_SendWork.
    destruct ((Z.of_nat k * chunkSize <? ReadData.numBytes rd') &&
              negb (ReadData.cancel rd')) eqn:Hcond.
    + apply andb_prop in Hcond as [Hlt Hc].
      apply Z.ltb_lt, (chunk_count_lt _ k (proj1 Hfit')) in Hlt.
      apply negb_true_iff in Hc.
      rewrite (send_iteration_chunk w rd' Hbound' Hfit' k Hc Hlt), Hn.
      assert (Hk' : (S k <= chunk_count (ReadData.numBytes rd))%nat) by (rewrite <- Hn; lia).
      destruct (send w _ _); cbn [fst snd];
        (same_record; eexists (S k), _; cbn [readData stage effects];
         split; [rewrite <- app_assoc; reflexivity|]; split; [exact Hk'|];
         autorewrite with traces; rewrite Hw, Hi, Hr, seq_S, List.map_app;
         cbn; repeat split).
    + unfold send_iteration. rewrite Hcond. cbn [fst snd].
      same_record. exists k, tail. cbn [readData stage effects].
      rewrite app_nil_r. repeat split; assumption.
  - (* after the loop *)
    rewrite work_SendLeft. same_record.
    eexists k, _. cbn [readData stage effects].
    split; [rewrite <- app_assoc; reflexivity|]. split; [exact Hk|].
    autorewrite with traces. rewrite Hw, Hi, Hst.
    unfold send_left. destruct (ReadData.cancel rd'); cbn; rewrite ?app_nil_r; repeat split.
  - (* the clean-up *)
    rewrite work_SendAfter. same_record.
    eexists k, _. cbn [readData stage effects].
    split; [rewrite <- app_assoc; reflexivity|]. split; [exact Hk|].
    autorewrite with traces. rewrite Hw, Hi, Hst, Hd.
    cbn. rewrite ?app_nil_r. repeat split.
  - (* nothing is left to run *)
    same_record. exists k, tail. cbn [readData stage effects]. repeat split; assumption.
  - same_record. exists k, tail. cbn [readData stage effects]. repeat split; assumption.
Qed.

Lemma sending_execute w rd es steps r :
  ReadData.bufferTransmitter rd <> None ->
  0 <= ReadData.numBytes rd <= max_numBytes ->
  sending rd es r -> sending rd es (execute w steps r).
Proof.
  intros Hbound Hfit. revert r. induction steps as [|s steps IH]; intros r Hr.
  - exact Hr.
  - rewrite execute_cons. apply IH. destruct s; cbn [step].
    + apply sending_work; assumption.
    + apply sending_flag_cancel; assumption.
Qed.

Lemma read_work_cancel w rd : ReadData.cancel (read_work w rd) = ReadData.cancel rd.
Proof.
  unfold read_work. destruct (points (engine w)); [|reflexivity].
  destruct (connect w); reflexivity.
Qed.

Lemma writes_read_after rd : writes (snd (read_after rd)) = [].
Proof. unfold read_after. destruct (negb _); reflexivity. Qed.

Lemma writes_send_left rd offset : writes (snd (send_left rd offset)) = [].
Proof. unfold send_left. destruct (ReadData.cancel rd); reflexivity. Qed.

(** With the flag up, a piece of work writes no chunk and leaves the
    flag up. *)
Lemma cancelled_work w r :
  ReadData.cancel (readData r) = true ->
  writes (effects (work w r)) = writes (effects r) /\
  ReadData.cancel (readData (work w r)) = true.
Proof.
  destruct r as [rd st es]. cbn [readData effects]. intros Hc.
  destruct st as [| |offset|offset| | |].
  - rewrite work_ReadWork. cbn [readData effects]. rewrite read_work_cancel. auto.
  - rewrite work_ReadAfter. cbn [readData effects].
    rewrite writes_app, writes_read_after, app_nil_r. auto.
  - rewrite work_SendWork. unfold send_iteration. rewrite Hc, andb_false_r.
    cbn [readData effects fst snd]. rewrite app_nil_r. auto.
  - rewrite work_SendLeft. cbn [readData effects].
    rewrite writes_app, writes_send_left, app_nil_r. auto.
  - rewrite work_SendAfter. cbn [readData effects].
    rewrite writes_app. cbn. rewrite app_nil_r. auto.
  - auto.
  - auto.
Qed.

Lemma cancelled_flag_cancel r :
  writes (effects (flag_cancel r)) = writes (effects r) /\
  (stage r <> Deleted -> stage r <> Crashed ->
   ReadData.cancel (readData (flag_cancel r)) = true) /\
  (ReadData.cancel (readData r) = true ->
   ReadData.cancel (readData (flag_cancel r)) = true).
Proof.
  unfold flag_cancel. destruct (stage r); cbn [readData effects];
    repeat split; auto; intros; congruence.
Qed.

(** Once the flag is up it stays up, and no further chunk is written,
    whatever is scheduled next. *)
Lemma cancelled_execute w steps r :
  ReadData.cancel (readData r) = true ->
  writes (effects (execute w steps r)) = writes (effects r) /\
  ReadData.cancel (readData (execute w steps r)) = true.
Proof.
  revert r. induction steps as [|s steps IH]; intros r Hc; [auto|].
  rewrite execute_cons. destruct s; cbn [step].
  - destruct (cancelled_work w r Hc) as [Hw Hc'].
    destruct (IH _ Hc') as [Hw' Hc'']. rewrite Hw', Hw. auto.
  - destruct (cancelled_flag_cancel r) as (Hw & _ & Hc').
    destruct (IH _ (Hc' Hc)) as [Hw' Hc'']. rewrite Hw', Hw. auto.
Qed.

(** A cancelled transmission is three pieces of work away from the
    deletion of its record, at most. *)
Lemma cancelled_finishes w rd es r :
  sending rd es r ->
  ReadData.cancel (readData r) = true ->
  stage r <> Crashed ->
  stage (execute w (repeat Work 3) r) = Deleted.
Proof.
  intros (_ & _ & _ & k & tail & _ & _ & _ & _ & Hst) Hc Hne.
  destruct r as [rd' st es']. cbn [readData stage effects] in *.
  cbn [repeat execute fold_left step].
  destruct st as [| |offset|offset| | |]; try contradiction.
  - rewrite work_SendWork. unfold send_iteration. rewrite Hc, andb_false_r.
    cbn [fst snd]. rewrite work_SendLeft, work_SendAfter. reflexivity.
  - rewrite work_SendLeft, work_SendAfter. reflexivity.
  - rewrite work_SendAfter. reflexivity.
  - reflexivity.
Qed.

(** C6.  Take a transmission under any schedule of pieces of work and
    cancellations, with writes that may fail.  The flag is read once per
    turn of the loop, before the write of that turn, so the writes
    issued are always the first [k] chunks of the chunk sequence, whole,
    and never carry more than [numBytes] bytes; no callback is invoked
    during the transmission.  A cancellation that arrives before the
    record is deleted raises the flag; once the flag is up it stays up
    and no further chunk is written whatever runs next; and the
    cancelled transmission still ends, within three pieces of work, with
    the record deleted and the buffer released exactly once. *)
Theorem cancellation_is_checked_between_chunks w rd es steps :
  ReadData.bufferTransmitter rd <> None ->
  0 <= ReadData.numBytes rd <= max_numBytes ->
  let r := execute w steps (transmission rd es) in
  (exists (k : nat) (tail : list Effect),
     effects r = es ++ tail /\
     (k <= chunk_count (ReadData.numBytes rd))%nat /\
     writes tail = List.map (spec_chunk (ReadData.numBytes rd)) (seq 0 k) /\
     bytes_written tail <= ReadData.numBytes rd /\
     invocations tail = [] /\
     (ReadData.cancel (readData r) = true ->
      stage r <> Crashed ->
      exists tail',
        stage (execute w (repeat Work 3) r) = Deleted /\
        effects (execute w (repeat Work 3) r) = es ++ tail' /\
        writes tail' = writes tail /\
        invocations tail' = [] /\
        releases tail' = [ReadData.data rd])) /\
  (ReadData.cancel (readData r) = true ->
   forall more,
     writes (effects (execute w more r)) = writes (effects r) /\
     ReadData.cancel (readData (execute w more r)) = true) /\
  (forall before after,
     steps = before ++ Cancel :: after ->
     stage (execute w before (transmission rd es)) <> Deleted ->
     stage (execute w before (transmission rd es)) <> Crashed ->
     ReadData.cancel (readData r) = true).
Proof.
  intros Hbound Hfit. cbv zeta.
  pose proof (sending_execute w rd es steps _ Hbound Hfit (sending_start rd es)) as Hs.
  split; [|split].
  - destruct Hs as (Hn & Hbt & Hd & k & tail & He & Hk & Hw & Hi & Hst).
    exists k, tail. split; [exact He|]. split; [exact Hk|]. split; [exact Hw|].
    split; [|split; [exact Hi|]].
    + unfold bytes_written. rewrite Hw, (spec_chunks_prefix_total _ k (proj1 Hfit) Hk). lia.
    + intros Hc Hne.
      pose proof (sending_execute w rd es steps _ Hbound Hfit (sending_start rd es)) as Hs.
      pose proof (cancelled_finishes w rd es _ Hs Hc Hne) as Hdel.
      pose proof (sending_execute w rd es (repeat Work 3) _ Hbound Hfit Hs)
        as (_ & _ & _ & k' & tail' & He' & _ & _ & Hi' & Hst').
      rewrite Hdel in Hst'. exists tail'.
      split; [exact Hdel|]. split; [exact He'|]. split; [|split; assumption].
      destruct (cancelled_execute w (repeat Work 3) _ Hc) as [Hwr _].
      rewrite He', He, !writes_app in Hwr. apply app_inv_head in Hwr. exact Hwr.
  - intros Hc more. apply cancelled_execute, Hc.
  - intros before after -> Hnd Hnc. rewrite execute_app, execute_cons. cbn [step].
    apply cancelled_execute.
    apply (proj1 (proj2 (cancelled_flag_cancel _))); assumption.
Qed.

Lemma uncancelled_transmission_sends_every_chunk_witness :
  execute survey_world (repeat Work (chunk_count 150000 + 3)) (transmission survey_readData []) =
  {| readData := survey_readData;
     stage := Deleted;
     effects := [Write 0 65536; Write 65536 65536; Write 131072 18928;
                 DeleteArray (Some 150000); DeleteReadData] |}.
Proof.
  refine (proj1 (uncancelled_transmission_sends_every_chunk
                   survey_world survey_readData [] _ _ _ _)).
  - discriminate.
  - vm_compute. split; discriminate.
  - reflexivity.
  - reflexivity.
Defined.

Lemma cancellation_is_checked_between_chunks_witness :
  ReadData.cancel
    (readData (execute survey_world [Work; Cancel; Work; Work]
                 (transmission survey_readData []))) = true.
Proof.
  refine (proj2 (proj2 (cancellation_is_checked_between_chunks
                          survey_world survey_readData [] [Work; Cancel; Work; Work] _ _))
            [Work] [Work; Work] eq_refl _ _).
  - discriminate.
  - vm_compute. split; discriminate.
  - discriminate.
  - discriminate.
Defined.

Example cancelled_after_first_chunk :
  execute survey_world [Work; Cancel; Work; Work; Work] (transmission survey_readData []) =
  {| readData := ReadData.set_cancel survey_readData true;
     stage := Deleted;
     effects := [Write 0 65536;
                 Stdout "CANCELLED at (65536 / 150000) bytes";
                 DeleteArray (Some 150000); DeleteReadData] |}.
Proof. vm_compute. reflexivity. Qed.

(** ** The counts *)

Lemma run_returns c e connect :
  snd (run c e connect) = None ->
  exists n,
    points (engine_read e c) = Return n /\
    m_numPoints (fst (run c e connect)) = n /\
    m_numBytes (fst (run c e connect)) = SizeT.mul n (m_stride c) /\
    m_stride (fst (run c e connect)) = m_stride c /\
    m_data (fst (run c e connect)) = data_after (engine_read e c) /\
    m_bufferTransmitter (fst (run c e connect)) <> None.
Proof.
  unfold run. destruct (points (engine_read e c)) as [n|exn]; [|discriminate].
  destruct connect as [u|exn]; [|discriminate].
  intros _. exists n. cbn. repeat split. discriminate.
Qed.

Lemma run_stride_holds c e connect :
  stride_holds c -> stride_holds (fst (run c e connect)).
Proof.
  unfold run, stride_holds.
  destruct (points (engine_read e c)); [destruct connect|]; cbn; auto.
Qed.

Lemma run_stride c e connect : m_stride (fst (run c e connect)) = m_stride c.
Proof.
  unfold run. destruct (points (engine_read e c)); [destruct connect|]; reflexivity.
Qed.

Lemma after_runs_stride_holds c calls :
  stride_holds c ->
  stride_holds (after_runs c calls) /\ m_stride (after_runs c calls) = m_stride c.
Proof.
  unfold after_runs. revert c.
  induction calls as [|[e connect] calls IH]; intros c H; [auto|].
  cbn [fold_left fst snd].
  destruct (IH _ (run_stride_holds c e connect H)) as [Hh Hs].
  split; [exact Hh|]. rewrite Hs. apply run_stride.
Qed.

Lemma retrieved_read_work w rd n :
  points (engine w) = Return n ->
  ReadData.numPoints (read_work w rd) = n /\
  ReadData.numBytes (read_work w rd) = SizeT.mul n (sessionStride (ReadData.pdalSession rd)).
Proof.
  intros H. unfold read_work. rewrite H. destruct (connect w); cbn; auto.
Qed.

Lemma retrieved_step w s stride n r : retrieved stride n r -> retrieved stride n (step w s r).
Proof.
  intros (Hst & Hp & Hb). destruct r as [rd st es]. cbn [readData stage effects] in *.
  destruct s; cbn [step].
  - destruct st as [| |offset|offset| | |]; try contradiction.
    + rewrite work_ReadAfter. unfold retrieved, read_after.
      destruct (negb _); cbn [readData stage fst]; repeat split; auto; discriminate.
    + rewrite work_SendWork. unfold retrieved, send_iteration.
      destruct (_ && _); [destruct (ReadData.bufferTransmitter rd); [destruct (send w _ _)|]|];
        cbn [readData stage fst]; repeat split; auto; discriminate.
    + rewrite work_SendLeft. repeat split; auto; discriminate.
    + rewrite work_SendAfter. repeat split; auto; discriminate.
    + repeat split; auto.
    + repeat split; auto.
  - unfold flag_cancel. cbn [stage readData effects].
    destruct st; try contradiction; repeat split; auto; discriminate.
Qed.

Lemma retrieved_execute w steps stride n r :
  retrieved stride n r -> retrieved stride n (execute w steps r).
Proof.
  revert r. induction steps as [|s steps IH]; intros r H; [exact H|].
  rewrite execute_cons. apply IH, retrieved_step, H.
Qed.

(** C4.  [setNumPoints] stores the point count and, with it, [numBytes =
    numPoints * m_stride] in [std::size_t] arithmetic, which is the
    product itself whenever the product fits the type; [run] stores the
    count through it; no later call of [run], returning or throwing,
    breaks the equation or changes the stride; and the stride of a
    command built by the factory is the sum of the sizes of its
    dimensions.  In the pipeline of [PdalBindings::read] the retrieval
    task stores [numBytes = numPoints * getStride()], and nothing that
    runs or is cancelled afterwards changes either count. *)
Theorem numBytes_is_numPoints_times_stride :
  (forall c numPoints,
     m_numPoints (setNumPoints c numPoints) = numPoints /\
     m_stride (setNumPoints c numPoints) = m_stride c /\
     m_numBytes (setNumPoints c numPoints) = SizeT.mul numPoints (m_stride c) /\
     (SizeT.in_range (numPoints * m_stride c) ->
      m_numBytes (setNumPoints c numPoints) = numPoints * m_stride c)) /\
  (forall c e connect,
     snd (run c e connect) = None ->
     stride_holds (fst (run c e connect)) /\
     points (engine_read e c) = Return (m_numPoints (fst (run c e connect)))) /\
  (forall c calls,
     stride_holds c ->
     stride_holds (after_runs c calls) /\
     m_stride (after_runs c calls) = m_stride c) /\
  (forall host_to_string can_allocate args pdalSession c calls,
     create host_to_string can_allocate args pdalSession = Returns (Some c) calls ->
     m_stride c = SizeT.wrap (sum_sizes (m_schema c))) /\
  (forall w rd n steps,
     points (engine w) = Return n ->
     let r := execute w (Work :: steps) (queued rd) in
     let stride := sessionStride (ReadData.pdalSession rd) in
     ReadData.numPoints (readData r) = n /\
     ReadData.numBytes (readData r) = SizeT.mul n stride /\
     (SizeT.in_range (n * stride) -> ReadData.numBytes (readData r) = n * stride)).
Proof.
  split; [|split; [|split; [|split]]].
  - intros c numPoints. cbn. repeat split. apply SizeTFacts.mul_exact.
  - intros c e connect H. destruct (run_returns _ _ _ H) as (n & Hp & Hn & Hb & Hs & _).
    split; [|congruence]. unfold stride_holds. congruence.
  - intros c calls H. apply after_runs_stride_holds, H.
  - intros h a args pdalSession c calls H.
    destruct (create_returns_command _ _ _ _ _ _ H)
      as (schema & host & port & callback & query & _ & Hnew).
    destruct (new_ReadCommand_returns _ _ _ _ _ _ _ _ _ Hnew) as (_ & Hsch & Hstr & _).
    rewrite Hstr, Hsch. apply getStride_sum.
  - intros w rd n steps Hn. cbv zeta. rewrite execute_cons. cbn [step].
    unfold queued. rewrite work_ReadWork.
    destruct (retrieved_read_work w rd n Hn) as [Hp Hb].
    assert (H : retrieved (sessionStride (ReadData.pdalSession rd)) n
                  {| readData := read_work w rd; stage := ReadAfter; effects := [] |})
      by (repeat split; [discriminate|assumption..]).
    destruct (retrieved_execute w steps _ _ _ H) as (_ & Hp' & Hb').
    split; [exact Hp'|]. split; [exact Hb'|].
    intros Hr. rewrite Hb'. apply SizeTFacts.mul_exact, Hr.
Qed.

Lemma numBytes_is_numPoints_times_stride_witness :
  ReadData.numPoints
    (readData (execute survey_world [Work; Work; Cancel; Work] (queued survey_request))) = 9375 /\
  ReadData.numBytes
    (readData (execute survey_world [Work; Work; Cancel; Work] (queued survey_request))) = 150000.
Proof.
  destruct (proj2 (proj2 (proj2 (proj2 numBytes_is_numPoints_times_stride)))
              survey_world survey_request 9375 [Work; Cancel; Work] eq_refl)
    as (Hp & _ & Hb).
  split; [exact Hp|]. apply Hb. vm_compute. split; [discriminate|reflexivity].
Defined.

(** ** Retrieval failures *)

Lemma finished_step w s r :
  stage r = Deleted \/ stage r = Crashed ->
  (stage (step w s r) = Deleted \/ stage (step w s r) = Crashed) /\
  effects (step w s r) = effects r.
Proof.
  intros H. destruct r as [rd st es]. cbn [stage] in H.
  destruct H as [-> | ->]; destruct s; cbn; auto.
Qed.

(** Nothing is observed of a request after its record has been
    deleted. *)
Lemma finished_execute w steps r :
  stage r = Deleted \/ stage r = Crashed ->
  effects (execute w steps r) = effects r.
Proof.
  revert r. induction steps as [|s steps IH]; intros r H; [reflexivity|].
  rewrite execute_cons. destruct (finished_step w s r H) as [H' He].
  rewrite (IH _ H'). exact He.
Qed.

(** X1. A failure of the retrieval task is reported with the message the
    handler has captured: the [what()] of a [std::runtime_error], and
    "Unknown error" for any other exception, whether the engine's [read]
    or the constructor of the transmitter throws. When that message is
    not empty, the callback is invoked once, with the message as its
    only argument; the buffer is released, the record is deleted and
    nothing more is observed of the request, whatever is scheduled next:
    no write is ever issued. *)
Lemma retrieval_failure_is_reported w rd e :
  points (engine w) = Throw e \/
  (exists n, points (engine w) = Return n /\ connect w = Throw e) ->
  let errMsg :=
    match e with
    | runtime_error what => what
    | _ => "Unknown error"%string
    end in
  errMsg <> EmptyString ->
  let trace :=
    [Invoke {| callee := ReadData.callback rd; argv := [VString errMsg] |};
     DeleteArray (data_after (engine w));
     DeleteReadData] in
  ReadData.errMsg (read_work w rd) = errMsg /\
  execute w [Work; Work] (queued rd) =
    {| readData := read_work w rd; stage := Deleted; effects := trace |} /\
  forall steps, effects (execute w (Work :: Work :: steps) (queued rd)) = trace.
Proof.
  intros H. cbv zeta. intros Hne.
  assert (Hfields : ReadData.errMsg (read_work w rd) = message e /\
                    ReadData.callback (read_work w rd) = ReadData.callback rd /\
                    ReadData.data (read_work w rd) = data_after (engine w)).
  { unfold read_work. destruct H as [-> | (n & -> & ->)]; cbn; auto. }
  destruct Hfields as (Hmsg & Hcb & Hdata).
  change (match e with
          | runtime_error what => what
          | _ => "Unknown error"%string
          end) with (message e) in *.
  assert (Hrun : execute w [Work; Work] (queued rd) =
                 {| readData := read_work w rd;
                    stage := Deleted;
                    effects := [Invoke {| callee := ReadData.callback rd;
                                          argv := [VString (message e)] |};
                                DeleteArray (data_after (engine w));
                                DeleteReadData] |}).
  { rewrite !execute_cons. cbn [step execute fold_left]. unfold queued.
    rewrite work_ReadWork, work_ReadAfter. unfold read_after.
    rewrite Hmsg, Hcb, Hdata.
    destruct (message e) as [|c msg]; [contradiction|]. reflexivity. }
  split; [exact Hmsg|]. split; [exact Hrun|].
  intros steps. change (Work :: Work :: steps) with ([Work; Work] ++ steps).
  rewrite execute_app, Hrun, finished_execute by (left; reflexivity). reflexivity.
Qed.

(** C7.  The retrieval task tells success from failure by the emptiness
    of the captured message.  When the engine throws a
    [std::runtime_error] whose [what()] is empty, the completion
    callback is invoked as for a success, with [null] and the two
    counts, and the transmission task is queued. *)
Lemma empty_message_failure_is_taken_for_success pdalSession host port start count callback buffer :
  execute (failing buffer (runtime_error EmptyString)) [Work; Work]
    (queued (ReadData.new pdalSession host port start count callback)) =
  {| readData :=
       ReadData.set_data (ReadData.new pdalSession host port start count callback) buffer;
     stage := SendWork 0;
     effects := [Invoke {| callee := callback;
                           argv := [VNull; VInteger 0; VInteger 0] |}] |}.
Proof. reflexivity. Qed.

(** ** The life of the buffer *)

Lemma read_work_data w rd : ReadData.data (read_work w rd) = data_after (engine w).
Proof.
  unfold read_work. destruct (points (engine w)); [|reflexivity].
  destruct (connect w); reflexivity.
Qed.

Lemma releases_read_after rd :
  releases (snd (read_after rd)) =
  match fst (read_after rd) with
  | Deleted => [ReadData.data rd]
  | _ => []
  end.
Proof. unfold read_after. destruct (negb _); reflexivity. Qed.

Lemma read_after_stage rd :
  fst (read_after rd) = Deleted \/ fst (read_after rd) = SendWork 0.
Proof. unfold read_after. destruct (negb _); auto. Qed.

Lemma releases_send_iteration w rd offset : releases (snd (send_iteration w rd offset)) = [].
Proof.
  unfold send_iteration.
  destruct (_ && _); [destruct (ReadData.bufferTransmitter rd); [destruct (send w _ _)|]|];
    reflexivity.
Qed.

Lemma send_iteration_stage w rd offset :
  fst (send_iteration w rd offset) <> ReadWork /\
  fst (send_iteration w rd offset) <> Deleted.
Proof.
  unfold send_iteration.
  destruct (_ && _); [destruct (ReadData.bufferTransmitter rd); [destruct (send w _ _)|]|];
    split; discriminate.
Qed.

Lemma releases_send_left rd offset : releases (snd (send_left rd offset)) = [].
Proof. unfold send_left. destruct (ReadData.cancel rd); reflexivity. Qed.

Lemma release_invariant_step w s r :
  release_invariant w r -> release_invariant w (step w s r).
Proof.
  unfold release_invariant. destruct r as [rd st es]. cbn [stage effects readData].
  destruct s; cbn [step].
  - destruct st as [| |offset|offset| | |]; intros H.
    + rewrite work_ReadWork. cbn [stage effects readData]. split; [exact H|apply read_work_data].
    + destruct H as [Hr Hd]. rewrite work_ReadAfter. cbn [stage effects readData].
      rewrite releases_app, Hr, releases_read_after, <- Hd.
      destruct (read_after_stage rd) as [-> | ->]; cbn; auto.
    + destruct H as [Hr Hd]. rewrite work_SendWork. cbn [stage effects readData].
      rewrite releases_app, Hr, releases_send_iteration.
      destruct (send_iteration_stage w rd offset) as [Hn1 Hn2].
      destruct (fst (send_iteration w rd offset)); cbn; auto; contradiction.
    + destruct H as [Hr Hd]. rewrite work_SendLeft. cbn [stage effects readData].
      rewrite releases_app, Hr, releases_send_left. cbn. auto.
    + destruct H as [Hr Hd]. rewrite work_SendAfter. cbn [stage effects readData].
      rewrite releases_app, Hr, Hd. reflexivity.
    + exact H.
    + exact H.
  - unfold flag_cancel. cbn [stage effects readData].
    destruct st; cbn [stage effects readData]; auto.
    intros ->. cbn. lia.
Qed.

Lemma release_invariant_execute w steps r :
  release_invariant w r -> release_invariant w (execute w steps r).
Proof.
  revert r. induction steps as [|s steps IH]; intros r H; [exact H|].
  rewrite execute_cons. apply IH, release_invariant_step, H.
Qed.

(** A call of five arguments matches none of the three shapes. *)
Example five_arguments_are_not_identified :
  create plain_host always_allocates
    [VString "localhost"; VInteger 8080; VObject []; VInteger 0; VFunction 7]
    sample_session =
  Returns None [errorCallback 7 "Could not identify 'read' from args"].
Proof. vm_compute. reflexivity. Qed.

Lemma range_command_holds_buffer_before_run :
  create plain_host always_allocates range_call sample_session =
    Returns (Some range_command) [] /\
  m_data range_command = Some 80 /\
  m_numPoints range_command = 0 /\
  m_bufferTransmitter range_command = None.
Proof. repeat split; vm_compute; reflexivity. Qed.

(** ** Cancellation through the bindings object *)

Lemma in_flight_lookup obj p :
  PdalBindings.in_flight obj p = true ->
  exists task,
    PdalBindings.tasks obj !! p = Some task /\
    stage (PdalBindings.request task) <> Deleted /\
    stage (PdalBindings.request task) <> Crashed.
Proof.
  unfold PdalBindings.in_flight.
  destruct (PdalBindings.tasks obj !! p) as [task|]; [|discriminate].
  intros H. exists task. split; [reflexivity|].
  destruct (stage (PdalBindings.request task)); split; discriminate.
Qed.

Lemma flag_cancel_in_flight r :
  stage r <> Deleted -> stage r <> Crashed ->
  flag_cancel r =
  {| readData := ReadData.set_cancel (readData r) true;
     stage := stage r;
     effects := effects r |}.
Proof. unfold flag_cancel. destruct (stage r); intros; congruence. Qed.

Example cancel_before_any_read :
  PdalBindings.cancel PdalBindings.new = (false, PdalBindings.new).
Proof. reflexivity. Qed.

Lemma cancel_twice_returns_true_twice :
  PdalBindings.read survey_call survey_world survey_bindings =
    PdalBindings.ReadReturns survey_reading [] /\
  PdalBindings.in_flight survey_reading 0 = true /\
  fst (PdalBindings.cancel survey_reading) = true /\
  PdalBindings.in_flight (snd (PdalBindings.cancel survey_reading)) 0 = true /\
  fst (PdalBindings.cancel (snd (PdalBindings.cancel survey_reading))) = true.
Proof. repeat split; vm_compute; reflexivity. Qed.

(** After the last piece of work the record is deleted, the object
    still holds its address, and [cancel] still answers [true] while it
    stores through the dangling pointer. *)
Example cancel_after_completion :
  PdalBindings.in_flight (Nat.iter 8 (PdalBindings.run_work 0) survey_reading) 0 = false /\
  fst (PdalBindings.cancel (Nat.iter 8 (PdalBindings.run_work 0) survey_reading)) = true /\
  option_map (fun task => stage (PdalBindings.request task))
    (PdalBindings.tasks
       (snd (PdalBindings.cancel (Nat.iter 8 (PdalBindings.run_work 0) survey_reading)))
     !! 0%nat) = Some Crashed.
Proof. repeat split; vm_compute; reflexivity. Qed.

Lemma retrieval_failure_is_reported_witness :
  effects (execute (failing None (runtime_error "Disk on fire")) [Work; Work; Work; Cancel]
             (queued survey_request)) =
  [Invoke {| callee := 7%nat; argv := [VString "Disk on fire"] |};
   DeleteArray None; DeleteReadData].
Proof.
  refine (proj2 (proj2 (retrieval_failure_is_reported
                          (failing None (runtime_error "Disk on fire")) survey_request
                          (runtime_error "Disk on fire") (or_introl eq_refl) _))
            [Work; Cancel]).
  discriminate.
Defined.

(** ** The outcomes of the factory *)

Section FactoryOutcomes.

Variable host_to_string : Value -> string.
Variable can_allocate : Z -> bool.

Lemma new_ReadCommand_outcome pdalSession host port schema callback query :
  (exists c,
     new_ReadCommand can_allocate pdalSession host port schema callback query =
       Returns (Some c) [] /\
     m_callback c = callback /\ m_host c = host /\ m_port c = port /\
     m_query c = query /\ m_cancel c = false /\ m_errMsg c = EmptyString) \/
  new_ReadCommand can_allocate pdalSession host port schema callback query = Throws bad_alloc.
Proof.
  unfold new_ReadCommand. destruct (can_allocate _); [left|right; reflexivity].
  eexists. repeat split.
Qed.

(** X2.  Whenever [create] returns, it has either built a command and
    invoked nothing, or built nothing and invoked the last argument
    exactly once, with one string as its only argument: never both, and
    never neither.  The command remembers that callback. *)
Theorem create_builds_or_reports args pdalSession readCommand calls :
  create host_to_string can_allocate args pdalSession = Returns readCommand calls ->
  (exists c, readCommand = Some c /\ calls = [] /\ m_callback c = last_callback args) \/
  (readCommand = None /\
   exists errMsg,
     calls = [{| callee := last_callback args; argv := [VString errMsg] |}]).
Proof.
  unfold create, create_quad_index, last_callback, errorCallback.
  repeat match goal with
         | |- context [if ?b then _ else _] => destruct b
         | |- context [match parse_schema ?h ?v with _ => _ end] =>
             destruct (parse_schema h v)
         | |- context [match arg ?a ?i with _ => _ end] => destruct (arg a i)
         | |- context [new_ReadCommand ?a ?s ?h ?p ?sc ?cb ?q] =>
             destruct (new_ReadCommand_outcome s h p sc cb q)
               as [(c & -> & Hcb & _)| ->]
         end;
    intros H; try discriminate H; injection H as <- <-; eauto 10.
Qed.

Lemma IsFunction_last_nonempty args :
  IsFunction (arg args (List.length args - 1)) = true -> (List.length args =? 0)%nat = false.
Proof. destruct args; [discriminate|reflexivity]. Qed.

(** X3.  [create] throws the fatal "Invalid callback" error exactly when
    there is no argument at all or the last argument is not a function,
    whatever the other arguments are. *)
Theorem create_throws_without_callback args pdalSession :
  create host_to_string can_allocate args pdalSession =
    Throws (runtime_error "Invalid callback supplied to 'read'") <->
  args = [] \/ IsFunction (arg args (List.length args - 1)) = false.
Proof.
  unfold create, create_quad_index. cbv zeta.
  destruct args as [|a0 args'] eqn:Hargs; [split; auto|]. rewrite <- Hargs.
  assert (Hlen : (List.length args =? 0)%nat = false) by (subst args; reflexivity).
  rewrite Hlen. cbn [orb].
  destruct (IsFunction (arg args (List.length args - 1))); cbn [negb].
  - split; [|intros [H|H]; [subst args|]; discriminate].
    repeat match goal with
           | |- context [if ?b then _ else _] => destruct b
           | |- context [match parse_schema ?h ?v with _ => _ end] =>
               destruct (parse_schema h v)
           | |- context [match arg ?a ?i with _ => _ end] => destruct (arg a i)
           | |- context [new_ReadCommand ?a ?s ?h ?p ?sc ?cb ?q] =>
               destruct (new_ReadCommand_outcome s h p sc cb q)
                 as [(c & -> & _)| ->]
           end; discriminate.
  - split; auto.
Qed.

(** X4.  With a function as last argument, [create] answers "Host,
    port, and callback must be supplied" exactly when the call has fewer
    than four arguments, or its first is not a string, or its second is
    not a 32-bit integer, or its third is not an object; no command is
    built then. *)
Theorem create_requires_host_port_schema args pdalSession :
  IsFunction (arg args (List.length args - 1)) = true ->
  (create host_to_string can_allocate args pdalSession =
     Returns None [errorCallback (last_callback args)
                     "Host, port, and callback must be supplied"] <->
   front_ok args = false).
Proof.
  intros Hlast. unfold create, create_quad_index, front_ok, last_callback. cbv zeta.
  rewrite (IsFunction_last_nonempty _ Hlast), Hlast. cbn [orb negb].
  match goal with
  | |- context [if ?b then _ else _] => destruct b
  end; [|split; reflexivity].
  split; [|discriminate].
  repeat match goal with
         | |- context [if ?b then _ else _] => destruct b
         | |- context [match parse_schema ?h ?v with _ => _ end] =>
             destruct (parse_schema h v)
         | |- context [match arg ?a ?i with _ => _ end] => destruct (arg a i)
         | |- context [new_ReadCommand ?a ?s ?h ?p ?sc ?cb ?q] =>
             destruct (new_ReadCommand_outcome s h p sc cb q)
               as [(c & -> & _)| ->]
         end; discriminate.
Qed.

(** Past the test on host, port and schema, [create] is its dispatch on
    the number of arguments. *)
Lemma create_dispatch args pdalSession schema :
  IsFunction (arg args (List.length args - 1)) = true ->
  front_ok args = true ->
  parse_schema host_to_string (arg args 2) = Some schema ->
  create host_to_string can_allocate args pdalSession =
  let Length := List.length args in
  let callback := last_callback args in
  let host := Utf8Value host_to_string (arg args 0) in
  let port := Uint32Value (arg args 1) in
  if (Length =? 6)%nat &&
     isDefined (arg args 3) && isInteger (arg args 3) &&
     isDefined (arg args 4) && isInteger (arg args 4)
  then
    if Uint32Value (arg args 3) <? getNumPoints pdalSession then
      new_ReadCommand can_allocate pdalSession host port schema callback
        (ReadCommandUnindexed (Uint32Value (arg args 3)) (Uint32Value (arg args 4)))
    else Returns None [errorCallback callback "Invalid 'start' in 'read' request"]
  else if
    (Length =? 7)%nat &&
    ((isDefined (arg args 3) && IsArray (arg args 3) &&
      match arg args 3 with
      | VArray bbox => 4 <=? ArrayLength bbox
      | _ => false
      end)
     || negb (isDefined (arg args 3))) &&
    isDefined (arg args 4) && isInteger (arg args 4) &&
    isDefined (arg args 5) && isInteger (arg args 5)
  then create_quad_index can_allocate args pdalSession host port schema callback
  else if
    (Length =? 9)%nat &&
    isDefined (arg args 3) && IsBoolean (arg args 3) &&
    isDefined (arg args 4) && IsNumber (arg args 4) &&
    isDefined (arg args 5) && IsNumber (arg args 5) &&
    isDefined (arg args 6) && IsNumber (arg args 6) &&
    isDefined (arg args 7) && IsNumber (arg args 7)
  then
    new_ReadCommand can_allocate pdalSession host port schema callback
      (ReadCommandPointRadius
         (BooleanValue (arg args 3))
         (NumberValue (arg args 4))
         (NumberValue (arg args 5))
         (NumberValue (arg args 6))
         (NumberValue (arg args 7)))
  else Returns None [errorCallback callback "Could not identify 'read' from args"].
Proof.
  intros Hlast Hfront Hparse. unfold create, front_ok, last_callback in *. cbv zeta.
  rewrite (IsFunction_last_nonempty _ Hlast), Hlast. cbn [orb negb].
  rewrite Hfront, Hparse. reflexivity.
Qed.

(** X5.  A call with well-typed host, port and schema whose number of
    arguments is not 6, 7 or 9 matches no query shape: it is answered
    "Could not identify 'read' from args" and builds nothing. *)
Theorem create_identifies_by_arity args pdalSession schema :
  IsFunction (arg args (List.length args - 1)) = true ->
  front_ok args = true ->
  parse_schema host_to_string (arg args 2) = Some schema ->
  List.length args <> 6%nat -> List.length args <> 7%nat -> List.length args <> 9%nat ->
  create host_to_string can_allocate args pdalSession =
  Returns None [errorCallback (last_callback args) "Could not identify 'read' from args"].
Proof.
  intros Hlast Hfront Hparse H6 H7 H9.
  rewrite (create_dispatch args pdalSession schema Hlast Hfront Hparse). cbv zeta.
  apply Nat.eqb_neq in H6, H7, H9. rewrite H6, H7, H9. reflexivity.
Qed.

Lemma front_ok_cons a0 a1 a2 a3 rest :
  IsString a0 = true -> isInteger a1 = true -> IsObject a2 = true ->
  front_ok (a0 :: a1 :: a2 :: a3 :: rest) = true.
Proof.
  intros H0 H1 H2. unfold front_ok. cbn [List.length arg nth Nat.ltb Nat.leb].
  rewrite (IsString_isDefined _ H0), H0, (isInteger_isDefined _ H1), H1,
    (IsObject_isDefined _ H2), H2.
  reflexivity.
Qed.

Lemma new_ReadCommand_allocated pdalSession host port schema callback query :
  can_allocate (buffer_bytes pdalSession schema) = true ->
  exists c,
    new_ReadCommand can_allocate pdalSession host port schema callback query =
      Returns (Some c) [] /\
    m_callback c = callback /\ m_host c = host /\ m_port c = port /\
    m_query c = query /\ m_numPoints c = 0 /\
    m_data c = Some (buffer_bytes pdalSession schema).
Proof.
  unfold new_ReadCommand, buffer_bytes. intros ->. eexists. repeat split.
Qed.

Lemma new_ReadCommand_refused pdalSession host port schema callback query :
  can_allocate (buffer_bytes pdalSession schema) = false ->
  new_ReadCommand can_allocate pdalSession host port schema callback query = Throws bad_alloc.
Proof. unfold new_ReadCommand, buffer_bytes. intros ->. reflexivity. Qed.

(** X6.  The range query: six arguments, host, port and schema well
    typed, start and count 32-bit integers.  A start at or past the
    number of points of the session is answered "Invalid 'start' in
    'read' request" and builds nothing; a start below it builds the
    unindexed command for that start and count, whatever the count is,
    addressed to the host and port of the call; and when the buffer
    cannot be allocated the exception leaves [create] and the callback
    is not invoked. *)
Theorem create_range_query a0 a1 a2 a3 a4 cb pdalSession schema :
  IsString a0 = true -> isInteger a1 = true -> IsObject a2 = true ->
  parse_schema host_to_string a2 = Some schema ->
  isInteger a3 = true -> isInteger a4 = true ->
  let outcome :=
    create host_to_string can_allocate [a0; a1; a2; a3; a4; VFunction cb] pdalSession in
  (getNumPoints pdalSession <= Uint32Value a3 ->
   outcome = Returns None [errorCallback cb "Invalid 'start' in 'read' request"]) /\
  (Uint32Value a3 < getNumPoints pdalSession ->
   can_allocate (buffer_bytes pdalSession schema) = true ->
   exists c,
     outcome = Returns (Some c) [] /\
     m_query c = ReadCommandUnindexed (Uint32Value a3) (Uint32Value a4) /\
     m_host c = Utf8Value host_to_string a0 /\
     m_port c = Uint32Value a1 /\
     m_callback c = cb) /\
  (Uint32Value a3 < getNumPoints pdalSession ->
   can_allocate (buffer_bytes pdalSession schema) = false ->
   outcome = Throws bad_alloc).
Proof.
  intros H0 H1 H2 Hs H3 H4. cbv zeta.
  rewrite (create_dispatch [a0; a1; a2; a3; a4; VFunction cb] pdalSession schema eq_refl
             (front_ok_cons _ _ _ _ _ H0 H1 H2) Hs).
  cbv zeta. unfold last_callback.
  cbn [List.length arg nth Nat.sub Nat.eqb callback_id].
  rewrite (isInteger_isDefined _ H3), H3, (isInteger_isDefined _ H4), H4. cbn [andb].
  split; [|split].
  - intros Hge. apply Z.ltb_ge in Hge. rewrite Hge. reflexivity.
  - intros Hlt Ha. apply Z.ltb_lt in Hlt. rewrite Hlt.
    destruct (new_ReadCommand_allocated pdalSession (Utf8Value host_to_string a0)
                (Uint32Value a1) schema cb
                (ReadCommandUnindexed (Uint32Value a3) (Uint32Value a4)) Ha)
      as (c & Hc & Hcb & Hh & Hp & Hq & _).
    exists c. auto.
  - intros Hlt Ha. apply Z.ltb_lt in Hlt. rewrite Hlt.
    apply new_ReadCommand_refused, Ha.
Qed.

(** X7.  The radius query: nine arguments, a boolean and four numbers
    after host, port and schema.  The factory checks the types only:
    every such call builds the radius command from the five values as
    they are, whatever the radius and the coordinates (negative, NaN or
    infinite alike). *)
Theorem create_radius_query a0 a1 a2 is3d radius x y z cb pdalSession schema :
  IsString a0 = true -> isInteger a1 = true -> IsObject a2 = true ->
  parse_schema host_to_string a2 = Some schema ->
  can_allocate (buffer_bytes pdalSession schema) = true ->
  exists c,
    create host_to_string can_allocate
      [a0; a1; a2; VBoolean is3d; VNumber radius; VNumber x; VNumber y; VNumber z;
       VFunction cb] pdalSession = Returns (Some c) [] /\
    m_query c = ReadCommandPointRadius is3d radius x y z /\
    m_callback c = cb.
Proof.
  intros H0 H1 H2 Hs Ha.
  rewrite (create_dispatch
             [a0; a1; a2; VBoolean is3d; VNumber radius; VNumber x; VNumber y; VNumber z;
              VFunction cb] pdalSession schema eq_refl
             (front_ok_cons _ _ _ _ _ H0 H1 H2) Hs).
  cbv zeta. unfold last_callback.
  cbn [List.length arg nth Nat.sub Nat.eqb callback_id isDefined IsUndefined negb
       IsBoolean IsNumber isInteger IsInt32 IsUint32 IsArray andb orb
       BooleanValue NumberValue].
  destruct (new_ReadCommand_allocated pdalSession (Utf8Value host_to_string a0)
              (Uint32Value a1) schema cb
              (ReadCommandPointRadius is3d radius x y z) Ha)
    as (c & Hc & Hcb & _ & _ & Hq & _).
  exists c. auto.
Qed.

(** X8.  The spatial query without a box: seven arguments with
    [undefined] in position 3 build the depth-only command and can end
    in no coordinate error; [null] in that position is not taken for an
    absent box, the call is answered "Could not identify 'read' from
    args". *)
Theorem create_spatial_query_without_box a0 a1 a2 a4 a5 cb pdalSession schema :
  IsString a0 = true -> isInteger a1 = true -> IsObject a2 = true ->
  parse_schema host_to_string a2 = Some schema ->
  isInteger a4 = true -> isInteger a5 = true ->
  (can_allocate (buffer_bytes pdalSession schema) = true ->
   exists c,
     create host_to_string can_allocate
       [a0; a1; a2; VUndefined; a4; a5; VFunction cb] pdalSession = Returns (Some c) [] /\
     m_query c = ReadCommandQuadIndex None (Uint32Value a4) (Uint32Value a5) /\
     m_callback c = cb) /\
  create host_to_string can_allocate
    [a0; a1; a2; VNull; a4; a5; VFunction cb] pdalSession =
  Returns None [errorCallback cb "Could not identify 'read' from args"].
Proof.
  intros H0 H1 H2 Hs H4 H5. split.
  - intros Ha.
    rewrite (create_dispatch [a0; a1; a2; VUndefined; a4; a5; VFunction cb] pdalSession
               schema eq_refl (front_ok_cons _ _ _ _ _ H0 H1 H2) Hs).
    cbv zeta. unfold last_callback, create_quad_index.
    cbn [List.length arg nth Nat.sub Nat.eqb callback_id isDefined IsUndefined negb
         IsBoolean IsNumber isInteger IsInt32 IsUint32 IsArray andb orb].
    rewrite (isInteger_isDefined _ H4), H4, (isInteger_isDefined _ H5), H5. cbn [andb].
    destruct (new_ReadCommand_allocated pdalSession (Utf8Value host_to_string a0)
                (Uint32Value a1) schema cb
                (ReadCommandQuadIndex None (Uint32Value a4) (Uint32Value a5)) Ha)
      as (c & Hc & Hcb & _ & _ & Hq & _).
    exists c. auto.
  - rewrite (create_dispatch [a0; a1; a2; VNull; a4; a5; VFunction cb] pdalSession
               schema eq_refl (front_ok_cons _ _ _ _ _ H0 H1 H2) Hs).
    cbv zeta. unfold last_callback.
    cbn [List.length arg nth Nat.sub Nat.eqb callback_id isDefined IsUndefined negb
         IsBoolean IsNumber isInteger IsInt32 IsUint32 IsArray andb orb].
    reflexivity.
Qed.

(** X9.  A box of at least four elements of which one of the first four
    is not a number is answered "Invalid coord types in query", and
    nothing is built. *)
Theorem create_checks_coordinate_types a0 a1 a2 bbox a4 a5 cb pdalSession schema :
  IsString a0 = true -> isInteger a1 = true -> IsObject a2 = true ->
  parse_schema host_to_string a2 = Some schema ->
  isInteger a4 = true -> isInteger a5 = true ->
  (4 <= List.length bbox)%nat ->
  IsNumber (GetIndex bbox 0) && IsNumber (GetIndex bbox 1) &&
  IsNumber (GetIndex bbox 2) && IsNumber (GetIndex bbox 3) = false ->
  create host_to_string can_allocate
    [a0; a1; a2; VArray bbox; a4; a5; VFunction cb] pdalSession =
  Returns None [errorCallback cb "Invalid coord types in query"].
Proof.
  intros H0 H1 H2 Hs H4 H5 Hlen Hnum.
  rewrite (create_seven_array host_to_string can_allocate _ _ _ _ _ _ _ _ _ H0 H1 H2 Hs H4 H5).
  assert (Hge : (4 <=? ArrayLength bbox) = true)
    by (unfold ArrayLength; apply Z.leb_le; lia).
  rewrite Hge. unfold create_quad_index.
  cbn [arg nth isDefined IsUndefined negb]. rewrite Hnum. reflexivity.
Qed.

End FactoryOutcomes.

(** The outcomes of the factory on sample calls. *)

Lemma create_builds_or_reports_witness :
  (exists c, Some range_command = Some c /\ @nil Call = [] /\
             m_callback c = last_callback range_call) \/
  (Some range_command = None /\
   exists errMsg,
     @nil Call = [{| callee := last_callback range_call; argv := [VString errMsg] |}]).
Proof.
  apply (create_builds_or_reports plain_host always_allocates range_call sample_session
           (Some range_command) []).
  vm_compute. reflexivity.
Defined.

Lemma create_requires_host_port_schema_witness :
  create plain_host always_allocates [VString "localhost"; VFunction 7] sample_session =
  Returns None [errorCallback 7 "Host, port, and callback must be supplied"].
Proof.
  apply (proj2 (create_requires_host_port_schema plain_host always_allocates
                  [VString "localhost"; VFunction 7] sample_session eq_refl)).
  reflexivity.
Defined.

Lemma create_identifies_by_arity_witness :
  create plain_host always_allocates
    [VString "localhost"; VInteger 8080; VObject []; VInteger 0; VFunction 7]
    sample_session =
  Returns None [errorCallback 7 "Could not identify 'read' from args"].
Proof.
  apply (create_identifies_by_arity plain_host always_allocates
           [VString "localhost"; VInteger 8080; VObject []; VInteger 0; VFunction 7]
           sample_session []).
  - reflexivity.
  - vm_compute. reflexivity.
  - reflexivity.
  - discriminate.
  - discriminate.
  - discriminate.
Defined.

Lemma create_range_query_witness :
  create plain_host always_allocates
    [VString "localhost"; VInteger 8080; VObject []; VInteger 5; VInteger 10; VFunction 7]
    sample_session =
  Returns None [errorCallback 7 "Invalid 'start' in 'read' request"].
Proof.
  refine (proj1 (create_range_query plain_host always_allocates
                   (VString "localhost") (VInteger 8080) (VObject []) (VInteger 5)
                   (VInteger 10) 7%nat sample_session [] _ _ _ _ _ _) _).
  - reflexivity.
  - vm_compute. reflexivity.
  - reflexivity.
  - reflexivity.
  - vm_compute. reflexivity.
  - vm_compute. reflexivity.
  - vm_compute. discriminate.
Defined.

Lemma create_radius_query_witness :
  exists c,
    create plain_host always_allocates
      [VString "localhost"; VInteger 8080; VObject []; VBoolean true;
       VNumber (Double.of_Z 3); VNumber (Double.of_Z 1); VNumber (Double.of_Z 2);
       VNumber (Double.of_Z 0); VFunction 7] sample_session = Returns (Some c) [] /\
    m_query c =
      ReadCommandPointRadius true (Double.of_Z 3) (Double.of_Z 1) (Double.of_Z 2)
        (Double.of_Z 0) /\
    m_callback c = 7%nat.
Proof.
  apply (create_radius_query plain_host always_allocates
           (VString "localhost") (VInteger 8080) (VObject []) true
           (Double.of_Z 3) (Double.of_Z 1) (Double.of_Z 2) (Double.of_Z 0)
           7%nat sample_session []).
  - reflexivity.
  - vm_compute. reflexivity.
  - reflexivity.
  - reflexivity.
  - reflexivity.
Defined.

Lemma create_spatial_query_without_box_witness :
  create plain_host always_allocates
    [VString "localhost"; VInteger 8080; VObject []; VNull; VInteger 0; VInteger 4; VFunction 7]
    sample_session =
  Returns None [errorCallback 7 "Could not identify 'read' from args"].
Proof.
  refine (proj2 (create_spatial_query_without_box plain_host always_allocates
                   (VString "localhost") (VInteger 8080) (VObject []) (VInteger 0)
                   (VInteger 4) 7%nat sample_session [] _ _ _ _ _ _)).
  - reflexivity.
  - vm_compute. reflexivity.
  - reflexivity.
  - reflexivity.
  - vm_compute. reflexivity.
  - vm_compute. reflexivity.
Defined.

Lemma create_checks_coordinate_types_witness :
  create plain_host always_allocates
    [VString "localhost"; VInteger 8080; VObject [];
     VArray [VInteger 0; VInteger 0; VString "10"; VInteger 10];
     VInteger 0; VInteger 4; VFunction 7]
    sample_session =
  Returns None [errorCallback 7 "Invalid coord types in query"].
Proof.
  apply (create_checks_coordinate_types plain_host always_allocates
           (VString "localhost") (VInteger 8080) (VObject [])
           [VInteger 0; VInteger 0; VString "10"; VInteger 10]
           (VInteger 0) (VInteger 4) 7%nat sample_session []).
  - reflexivity.
  - vm_compute. reflexivity.
  - reflexivity.
  - reflexivity.
  - vm_compute. reflexivity.
  - vm_compute. reflexivity.
  - cbn. lia.
  - reflexivity.
Defined.

(** ** The sizes of a requested schema *)

(** The decimal numeral of a positive number is a string of digits
    without a NUL, and [strtoul] reads it back. *)
Lemma c_str_string_of_uint d : c_str (NilEmpty.string_of_uint d) = NilEmpty.string_of_uint d.
Proof. induction d; cbn; congruence. Qed.

Lemma digits_of_uint_acc d acc :
  CStdlib.digits 10 (NilEmpty.string_of_uint d) (Zpos acc) = Zpos (Pos.of_uint_acc d acc).
Proof.
  revert acc.
  induction d; intros acc; cbn [NilEmpty.string_of_uint Pos.of_uint_acc]; [reflexivity|..];
    match goal with
    | |- CStdlib.digits 10 (String ?c ?rest) ?a = _ =>
        match eval vm_compute in (CStdlib.digit_in 10 c) with
        | Some ?dv =>
            change (CStdlib.digits 10 (String c rest) a) with (CStdlib.digits 10 rest (a * 10 + dv))
        end
    end;
    rewrite <- IHd; f_equal; lia.
Qed.

Lemma digits_of_uint d :
  CStdlib.digits 10 (NilEmpty.string_of_uint d) 0 = Z.of_N (Pos.of_uint d).
Proof.
  induction d; cbn [NilEmpty.string_of_uint Pos.of_uint]; [reflexivity|..];
    match goal with
    | |- CStdlib.digits 10 (String ?c ?rest) ?a = _ =>
        match eval vm_compute in (CStdlib.digit_in 10 c) with
        | Some ?dv =>
            change (CStdlib.digits 10 (String c rest) a) with (CStdlib.digits 10 rest dv)
        end
    end;
    [exact IHd|apply digits_of_uint_acc..].
Qed.

Lemma to_uint_leading p d : Pos.to_uint p <> Decimal.D0 d.
Proof.
  intros H.
  pose proof (DecimalPos.Unsigned.to_of (Pos.to_uint p)) as Hn.
  rewrite DecimalPos.Unsigned.of_to in Hn. cbn [N.to_uint] in Hn.
  unfold Decimal.unorm in Hn.
  destruct (Decimal.nzhead (Pos.to_uint p)) eqn:Hz.
  - apply (DecimalPos.Unsigned.to_uint_nonzero p). exact Hn.
  - rewrite Hn in Hz. apply (DecimalFacts.nzhead_nonzero _ _ Hz).
  - rewrite Hn in H. discriminate H.
  - rewrite Hn in H. discriminate H.
  - rewrite Hn in H. discriminate H.
  - rewrite Hn in H. discriminate H.
  - rewrite Hn in H. discriminate H.
  - rewrite Hn in H. discriminate H.
  - rewrite Hn in H. discriminate H.
  - rewrite Hn in H. discriminate H.
  - rewrite Hn in H. discriminate H.
Qed.

Lemma decimal_pos p : decimal (Zpos p) = NilEmpty.string_of_uint (Pos.to_uint p).
Proof.
  unfold decimal. cbn [Z.to_int NilZero.string_of_int]. unfold NilZero.string_of_uint.
  destruct (Pos.to_uint p) eqn:H; try reflexivity.
  exfalso. apply (DecimalPos.Unsigned.to_uint_nonnil p H).
Qed.

Lemma strtoul_leading d :
  d <> Decimal.Nil -> (forall d', d <> Decimal.D0 d') ->
  CStdlib.strtoul (NilEmpty.string_of_uint d) =
  Z.min (CStdlib.digits 10 (NilEmpty.string_of_uint d) 0) CStdlib.ULONG_MAX.
Proof.
  intros Hnil H0.
  assert (Hmin : forall v, (if CStdlib.ULONG_MAX <? v then CStdlib.ULONG_MAX else v) =
                           Z.min v CStdlib.ULONG_MAX).
  { intros v. destruct (Z.ltb_spec CStdlib.ULONG_MAX v); lia. }
  destruct d; [contradiction|exfalso; eapply H0; reflexivity|..];
    rewrite <- Hmin; reflexivity.
Qed.

Lemma strtoul_reads_decimal z :
  0 <= z -> CStdlib.strtoul (c_str (decimal z)) = Z.min z CStdlib.ULONG_MAX.
Proof.
  intros Hz. destruct z as [|p|p]; [reflexivity| |lia].
  rewrite decimal_pos, c_str_string_of_uint, strtoul_leading.
  - rewrite digits_of_uint, DecimalPos.Unsigned.of_to. reflexivity.
  - apply DecimalPos.Unsigned.to_uint_nonnil.
  - intros d'. apply to_uint_leading.
Qed.

(** Whatever the string, [strtoul] answers a value of [unsigned long]. *)
Lemma digit_in_nonneg base c d : CStdlib.digit_in base c = Some d -> 0 <= d.
Proof.
  unfold CStdlib.digit_in, CStdlib.digit_value. cbv zeta.
  repeat match goal with
         | |- context [?a <=? ?b] => destruct (Z.leb_spec a b)
         end; cbn [andb];
    try discriminate;
    (destruct (_ <? base); [|discriminate]); intros [= <-]; lia.
Qed.

Lemma digits_nonneg base s acc : 0 <= base -> 0 <= acc -> 0 <= CStdlib.digits base s acc.
Proof.
  intros Hb. revert acc. induction s as [|c rest IH]; intros acc Hacc; [exact Hacc|].
  cbn [CStdlib.digits]. destruct (CStdlib.digit_in base c) as [d|] eqn:Hd; [|exact Hacc].
  apply IH. pose proof (digit_in_nonneg _ _ _ Hd). nia.
Qed.

Lemma strtoul_range s : 0 <= CStdlib.strtoul s <= CStdlib.ULONG_MAX.
Proof.
  assert (Hconv : forall negative base s3, 0 <= base ->
            0 <= (if CStdlib.starts_with_digit base s3 then
                    let v := CStdlib.digits base s3 0 in
                    if CStdlib.ULONG_MAX <? v then CStdlib.ULONG_MAX
                    else if negative : bool then (- v) mod 2 ^ 64
                    else v
                  else 0) <= CStdlib.ULONG_MAX).
  { intros negative base s3 Hb. cbv zeta.
    destruct (CStdlib.starts_with_digit base s3); [|unfold CStdlib.ULONG_MAX; lia].
    pose proof (digits_nonneg base s3 0 Hb (Z.le_refl 0)) as Hv.
    destruct (Z.ltb_spec CStdlib.ULONG_MAX (CStdlib.digits base s3 0)) as [Hlt|Hle].
    - unfold CStdlib.ULONG_MAX. lia.
    - destruct negative; [|lia].
      pose proof (Z.mod_pos_bound (- CStdlib.digits base s3 0) (2 ^ 64) eq_refl).
      unfold CStdlib.ULONG_MAX. lia. }
  unfold CStdlib.strtoul. cbv zeta.
  destruct (match CStdlib.skip_spaces s with
            | String "-"%char rest => (true, rest)
            | String "+"%char rest => (false, rest)
            | _ => (false, CStdlib.skip_spaces s)
            end) as [negative s2].
  assert (Hbase : 0 <= fst (match s2 with
                            | String "0"%char (String x rest) =>
                                if CStdlib.is_x x && CStdlib.starts_with_digit 16 rest
                                then (16, rest) else (8, s2)
                            | String "0"%char EmptyString => (8, s2)
                            | _ => (10, s2)
                            end)).
  { destruct s2 as [|[[] [] [] [] [] [] [] []] [|x rest]]; cbn [fst]; try lia.
    destruct (_ && _); cbn [fst]; lia. }
  destruct (match s2 with
            | String "0"%char (String x rest) => _
            | String "0"%char EmptyString => _
            | _ => _
            end) as [base s3].
  apply Hconv, Hbase.
Qed.

Section SchemaSizes.

Variable host_to_string : Value -> string.

Lemma parse_dimension_size elem dim :
  parse_dimension host_to_string elem = Some (Some dim) ->
  1 <= size dim <= SizeT.max.
Proof.
  unfold parse_dimension. destruct (ToObject elem) as [dimObj|]; [|discriminate].
  cbv zeta. destruct (Z.eqb_spec (CStdlib.strtoul (Utf8Value host_to_string (Get dimObj "size"))) 0)
    as [|Hne]; [discriminate|].
  intros [= <-]. cbn [size].
  pose proof (strtoul_range (Utf8Value host_to_string (Get dimObj "size"))) as H.
  change SizeT.max with CStdlib.ULONG_MAX. lia.
Qed.

Lemma parse_dimensions_sizes elems acc schema :
  parse_dimensions host_to_string elems acc = Some schema ->
  Forall (fun dim => 1 <= size dim <= SizeT.max) acc ->
  Forall (fun dim => 1 <= size dim <= SizeT.max) schema /\
  (List.length schema <= List.length acc + List.length elems)%nat.
Proof.
  revert acc. induction elems as [|elem rest IH]; intros acc H Hacc.
  - injection H as <-. split; [exact Hacc|cbn; lia].
  - cbn [parse_dimensions] in H.
    destruct (parse_dimension host_to_string elem) as [[dim|]|] eqn:He; [| |discriminate].
    + destruct (IH _ H) as [Hs Hl].
      * apply Forall_app. split; [exact Hacc|].
        constructor; [|constructor]. apply (parse_dimension_size _ _ He).
      * split; [exact Hs|]. rewrite length_app in Hl. cbn [List.length] in *. lia.
    + destruct (IH _ H Hacc) as [Hs Hl]. split; [exact Hs|]. cbn [List.length]. lia.
Qed.

(** X10.  Every dimension the parse loop of [create] pushes onto the
    schema has a size between 1 and 2^64 - 1: an entry is never kept
    with the size 0, whatever its [size] property is. A schema that
    keeps an entry was parsed from a [dimensions] array, and keeps no
    more entries than the array holds. *)
Theorem kept_dimensions_have_sizes schemaObj schema :
  parse_schema host_to_string schemaObj = Some schema ->
  Forall (fun dim => 1 <= size dim <= SizeT.max) schema /\
  (schema <> [] ->
   exists dimArray,
     Get schemaObj "dimensions" = VArray dimArray /\
     (List.length schema <= List.length dimArray)%nat).
Proof.
  unfold parse_schema. destruct (Has schemaObj "dimensions").
  - destruct (Get schemaObj "dimensions") as [| | | | |dimArray| |]; try discriminate.
    intros H. destruct (parse_dimensions_sizes _ _ _ H (Forall_nil _)) as [Hs Hl].
    split; [exact Hs|]. intros _. exists dimArray. split; [reflexivity|exact Hl].
  - intros [= <-]. split; [constructor|]. intros H. contradiction.
Qed.

Lemma Get_has_handle elem key : Get elem key <> VUndefined -> has_handle elem = true.
Proof. destruct elem; intros H; try reflexivity; contradiction H; reflexivity. Qed.

(** X11.  A size written in decimal comes back as the number it denotes.
    An entry whose [size] property is the decimal numeral of z >= 1, as
    a string, is kept with the size z, or with [ULONG_MAX] when z is
    larger: [strtoul] saturates. An entry whose [size] is a JavaScript
    number that is an integer z with 1 <= z < 2^53 is kept with the size
    z. *)
Theorem decimal_size_is_read_back elem z :
  1 <= z ->
  Get elem "size" = VString (decimal z) \/
  (exists d, Get elem "size" = VNumber d /\ Double.integral d = Some z /\ z < 2 ^ 53) ->
  parse_dimension host_to_string elem = Some (Some (request_of host_to_string elem)) /\
  size (request_of host_to_string elem) = Z.min z CStdlib.ULONG_MAX.
Proof.
  intros Hz Hsize.
  assert (Hh : has_handle elem = true).
  { apply (Get_has_handle elem "size").
    destruct Hsize as [-> | (d & -> & _)]; discriminate. }
  assert (Hs : parsed_size host_to_string elem = Z.min z CStdlib.ULONG_MAX).
  { unfold parsed_size, Utf8Value.
    destruct Hsize as [-> | (d & -> & Hd & Hlt)].
    - cbn [ToString]. apply strtoul_reads_decimal. lia.
    - assert (Ht : ToString host_to_string (VNumber d) = decimal z).
      { unfold ToString. rewrite Hd.
        assert (Habs : (Z.abs z <? 2 ^ 53) = true) by (apply Z.ltb_lt; lia).
        rewrite Habs. unfold Double.integral in Hd.
        destruct (Prim2SF d) as [s|s| |s m e]; try discriminate; reflexivity. }
      rewrite Ht. apply strtoul_reads_decimal. lia. }
  rewrite (parse_dimension_kept host_to_string elem Hh).
  unfold kept. rewrite Hs.
  assert (Hne : (Z.min z CStdlib.ULONG_MAX =? 0) = false)
    by (apply Z.eqb_neq; unfold CStdlib.ULONG_MAX; lia).
  rewrite Hne. split; [reflexivity|exact Hs].
Qed.

End SchemaSizes.

Lemma kept_dimensions_have_sizes_witness :
  Forall (fun dim => 1 <= size dim <= SizeT.max) [dimension "X" "floating" 8].
Proof.
  apply (proj1 (kept_dimensions_have_sizes plain_host
                  (descriptor [dimension_entry "X" "floating" "8";
                               dimension_entry "Y" "floating" "0"])
                  [dimension "X" "floating" 8] eq_refl)).
Defined.

Lemma decimal_size_is_read_back_witness :
  parse_dimension plain_host (dimension_entry "X" "floating" "8") =
    Some (Some (request_of plain_host (dimension_entry "X" "floating" "8"))) /\
  size (request_of plain_host (dimension_entry "X" "floating" "8")) =
    Z.min 8 CStdlib.ULONG_MAX.
Proof.
  apply (decimal_size_is_read_back plain_host (dimension_entry "X" "floating" "8") 8).
  - lia.
  - left. reflexivity.
Defined.

Lemma sum_sizes_app a b : sum_sizes (a ++ b) = sum_sizes a + sum_sizes b.
Proof.
  unfold sum_sizes. induction a as [|dim a IH]; [reflexivity|].
  cbn [List.map fold_right app]. rewrite IH. lia.
Qed.

Lemma sum_sizes_nonneg schema :
  Forall (fun dim => 0 <= size dim) schema -> 0 <= sum_sizes schema.
Proof.
  unfold sum_sizes. induction 1 as [|dim rest Hd _ IH]; cbn [List.map fold_right]; lia.
Qed.

(** X12.  The stride of a schema made of two parts is the sum of their
    strides in [std::size_t] arithmetic, and does not depend on the
    order of the parts.  When no size is negative and the sizes add up
    to at most 2^64 - 1, the stride is their sum. *)
Theorem getStride_adds_up a b :
  getStride (a ++ b) = SizeT.add (getStride a) (getStride b) /\
  getStride (b ++ a) = getStride (a ++ b) /\
  (Forall (fun dim => 0 <= size dim) (a ++ b) ->
   sum_sizes (a ++ b) <= SizeT.max ->
   getStride (a ++ b) = sum_sizes a + sum_sizes b).
Proof.
  split; [|split].
  - rewrite !getStride_sum, sum_sizes_app. unfold SizeT.add, SizeT.wrap.
    rewrite <- Zplus_mod. reflexivity.
  - rewrite !getStride_sum, !sum_sizes_app. f_equal. lia.
  - intros Hpos Hfit. rewrite getStride_sum, <- sum_sizes_app.
    apply SizeTFacts.wrap_small. pose proof (sum_sizes_nonneg _ Hpos).
    unfold SizeT.in_range, SizeT.max in *. lia.
Qed.

(** ** The runs of a command *)

(** X13.  A call of [run] that returns has bound a new transmitter to
    the host and the port of the command, to the buffer pointer as the
    engine's [read] left it and to [numBytes = numPoints * m_stride];
    from then on [transmit] hands its offset and length on to that
    transmitter as they are. *)
Theorem run_binds_the_transmitter c e connect :
  snd (run c e connect) = None ->
  exists n,
    points (engine_read e c) = Return n /\
    m_bufferTransmitter (fst (run c e connect)) =
      Some {| bt_host := m_host c;
              bt_port := m_port c;
              bt_data := data_after (engine_read e c);
              bt_size := SizeT.mul n (m_stride c) |} /\
    m_numBytes (fst (run c e connect)) = SizeT.mul n (m_stride c) /\
    forall offset numBytes,
      transmit (fst (run c e connect)) offset numBytes = Some (offset, numBytes).
Proof.
  unfold run. destruct (points (engine_read e c)) as [n|exn]; [|discriminate].
  destruct connect as [u|exn]; [|discriminate].
  intros _. exists n. repeat split.
Qed.

(** X14.  A call of [run] that throws leaves the transmitter of the
    command as it was: [transmit] behaves after the call as before it.
    When the engine's [read] throws, the counts are as before the call;
    when the constructor of the transmitter throws, the counts are
    already those of the new read.  In both cases the buffer pointer is
    what the engine left. *)
Theorem run_failure_keeps_the_transmitter c e connect exn :
  snd (run c e connect) = Some exn ->
  let c' := fst (run c e connect) in
  m_bufferTransmitter c' = m_bufferTransmitter c /\
  m_data c' = data_after (engine_read e c) /\
  (forall offset numBytes, transmit c' offset numBytes = transmit c offset numBytes) /\
  match points (engine_read e c) with
  | Throw thrown =>
      exn = thrown /\ m_numPoints c' = m_numPoints c /\ m_numBytes c' = m_numBytes c
  | Return n =>
      connect = Throw exn /\ m_numPoints c' = n /\ m_numBytes c' = SizeT.mul n (m_stride c)
  end.
Proof.
  unfold run, transmit. destruct (points (engine_read e c)) as [n|thrown].
  - destruct connect as [u|thrown]; [discriminate|].
    intros [= <-]. cbn. repeat split.
  - intros [= <-]. cbn. repeat split.
Qed.

Lemma run_binds_the_transmitter_witness :
  exists n,
    points (engine_read sample_engine range_command) = Return n /\
    m_bufferTransmitter (fst (run range_command sample_engine (Return tt))) =
      Some {| bt_host := m_host range_command;
              bt_port := m_port range_command;
              bt_data := data_after (engine_read sample_engine range_command);
              bt_size := SizeT.mul n (m_stride range_command) |} /\
    m_numBytes (fst (run range_command sample_engine (Return tt))) =
      SizeT.mul n (m_stride range_command) /\
    forall offset numBytes,
      transmit (fst (run range_command sample_engine (Return tt))) offset numBytes =
      Some (offset, numBytes).
Proof. apply (run_binds_the_transmitter range_command sample_engine (Return tt) eq_refl). Defined.

Lemma run_failure_keeps_the_transmitter_witness :
  m_bufferTransmitter
    (fst (run range_command sample_engine (Throw (runtime_error "Connection refused")))) =
  None.
Proof.
  apply (proj1 (run_failure_keeps_the_transmitter range_command sample_engine
                  (Throw (runtime_error "Connection refused"))
                  (runtime_error "Connection refused") eq_refl)).
Defined.

(** ** The checks of [PdalBindings::read] *)

Lemma IsUndefined_IsString v : IsUndefined v || negb (IsString v) = negb (IsString v).
Proof. destruct v; reflexivity. Qed.

Lemma IsUndefined_IsNumber v : IsUndefined v || negb (IsNumber v) = negb (IsNumber v).
Proof. destruct v; reflexivity. Qed.

Lemma IsUndefined_IsFunction v : IsUndefined v || negb (IsFunction v) = negb (IsFunction v).
Proof. destruct v; reflexivity. Qed.

Lemma check_args_cases args :
  PdalBindings.check_args args =
  if negb (IsString (arg args 0)) then Return "'host' must be a string - args[0]"%string
  else if negb (IsNumber (arg args 1)) then Return "'port' must be a number - args[1]"%string
  else if negb (IsNumber (arg args 2)) then
    Return "'start' offset must be a number - args[2]"%string
  else if negb (IsNumber (arg args 3)) then Return "'count' must be a number - args[3]"%string
  else if negb (IsFunction (arg args 4)) then
    Throw (runtime_error "Invalid callback supplied to 'read'")
  else Return EmptyString.
Proof.
  unfold PdalBindings.check_args.
  rewrite IsUndefined_IsString, !IsUndefined_IsNumber, IsUndefined_IsFunction. reflexivity.
Qed.

(** X15.  [PdalBindings::read] returns without having invoked the
    callback exactly when the first argument is a string, the next three
    are numbers, the fifth is a function, the object holds a session and
    the start, taken as an unsigned 32-bit integer, is below the number
    of points of the session.  The object then points at a new record,
    queued for its retrieval with the flag down, which holds the
    session, the host, and the port, start and count as unsigned 32-bit
    integers; the count is not checked. *)
Theorem read_accepts_exactly_the_valid_calls args w obj obj' :
  PdalBindings.read args w obj = PdalBindings.ReadReturns obj' [] <->
  exists session callback,
    read_front_ok args = true /\
    arg args 4 = VFunction callback /\
    PdalBindings.m_pdalSession obj = Some session /\
    Uint32Value (arg args 2) < getNumPoints session /\
    obj' =
      {| PdalBindings.m_pdalSession := Some session;
         PdalBindings.m_readData := Some (List.length (PdalBindings.tasks obj));
         PdalBindings.tasks :=
           PdalBindings.tasks obj ++
           [{| PdalBindings.world := w;
               PdalBindings.request :=
                 queued (ReadData.new session
                           (match arg args 0 with VString s => c_str s | _ => EmptyString end)
                           (Uint32Value (arg args 1))
                           (Uint32Value (arg args 2))
                           (Uint32Value (arg args 3))
                           callback) |}] |}.
Proof.
  unfold PdalBindings.read, read_front_ok. rewrite check_args_cases. split.
  - destruct (IsString (arg args 0)); cbn [negb andb];
      [|destruct (arg args 4); cbn; discriminate].
    destruct (IsNumber (arg args 1)); cbn [negb andb];
      [|destruct (arg args 4); cbn; discriminate].
    destruct (IsNumber (arg args 2)); cbn [negb andb];
      [|destruct (arg args 4); cbn; discriminate].
    destruct (IsNumber (arg args 3)); cbn [negb andb];
      [|destruct (arg args 4); cbn; discriminate].
    destruct (arg args 4) as [| | | | | | |callback]; cbn [IsFunction negb]; try discriminate.
    cbn [String.length Nat.eqb negb].
    destruct (PdalBindings.m_pdalSession obj) as [session|] eqn:Hs; [|discriminate].
    destruct (Z.leb_spec (getNumPoints session) (Uint32Value (arg args 2))) as [Hle|Hlt];
      [discriminate|].
    intros [= <-]. exists session, callback. repeat split. exact Hlt.
  - intros (session & callback & Hfront & Hcb & Hs & Hlt & ->).
    apply andb_prop in Hfront as [Hfront H3]. apply andb_prop in Hfront as [Hfront H2].
    apply andb_prop in Hfront as [H0 H1].
    rewrite H0, H1, H2, H3, Hcb, Hs. cbn [negb IsFunction String.length Nat.eqb].
    apply Z.leb_gt in Hlt. rewrite Hlt. reflexivity.
Qed.

(** X16.  With a function in position 4, [PdalBindings::read] reports
    the first argument that fails its check, and only that one: the
    callback is invoked once, with the message of that argument as its
    only argument, and the object is left as it was.  When the four
    arguments pass, a start at or past the number of points of the
    session is reported in the same way. *)
Theorem read_reports_the_first_bad_argument args w obj callback :
  arg args 4 = VFunction callback ->
  let reports errMsg :=
    PdalBindings.read args w obj =
    PdalBindings.ReadReturns obj [errorCallback callback errMsg] in
  (IsString (arg args 0) = false -> reports "'host' must be a string - args[0]"%string) /\
  (IsString (arg args 0) = true -> IsNumber (arg args 1) = false ->
   reports "'port' must be a number - args[1]"%string) /\
  (IsString (arg args 0) = true -> IsNumber (arg args 1) = true ->
   IsNumber (arg args 2) = false ->
   reports "'start' offset must be a number - args[2]"%string) /\
  (IsString (arg args 0) = true -> IsNumber (arg args 1) = true ->
   IsNumber (arg args 2) = true -> IsNumber (arg args 3) = false ->
   reports "'count' must be a number - args[3]"%string) /\
  (read_front_ok args = true ->
   forall session,
     PdalBindings.m_pdalSession obj = Some session ->
     getNumPoints session <= Uint32Value (arg args 2) ->
     reports "Invalid start offset in 'read' request"%string).
Proof.
  intros Hcb. cbv zeta. unfold PdalBindings.read, read_front_ok.
  rewrite check_args_cases, Hcb. cbn [IsFunction negb].
  repeat split.
  - intros ->. reflexivity.
  - intros -> ->. reflexivity.
  - intros -> -> ->. reflexivity.
  - intros -> -> -> ->. reflexivity.
  - intros Hfront session -> Hle.
    apply andb_prop in Hfront as [Hfront ->]. apply andb_prop in Hfront as [Hfront ->].
    apply andb_prop in Hfront as [-> ->]. cbn [negb String.length Nat.eqb].
    apply Z.leb_le in Hle. rewrite Hle. reflexivity.
Qed.

Lemma read_reports_the_first_bad_argument_witness :
  PdalBindings.read
    [VInteger 1; VString "8080"; VInteger 0; VInteger 10; VFunction 7]
    survey_world survey_bindings =
  PdalBindings.ReadReturns survey_bindings
    [errorCallback 7 "'host' must be a string - args[0]"].
Proof.
  apply (proj1 (read_reports_the_first_bad_argument
                  [VInteger 1; VString "8080"; VInteger 0; VInteger 10; VFunction 7]
                  survey_world survey_bindings 7%nat eq_refl)).
  reflexivity.
Defined.

(** X17.  [PdalBindings::read] throws exactly when its first four
    arguments pass their checks and the fifth is not a function, and
    then it throws the runtime error "Invalid callback supplied to
    'read'".  The test of the callback is the last of an [else if]
    chain: when one of the first four arguments fails, a fifth argument
    that is not a function is cast to a function unchecked and called. *)
Theorem read_checks_the_callback_last args w obj :
  (forall e,
     PdalBindings.read args w obj = PdalBindings.ReadThrows e <->
     e = runtime_error "Invalid callback supplied to 'read'" /\
     read_front_ok args = true /\ IsFunction (arg args 4) = false) /\
  (read_front_ok args = false -> IsFunction (arg args 4) = false ->
   PdalBindings.read args w obj = PdalBindings.ReadUndefined).
Proof.
  unfold PdalBindings.read, read_front_ok. rewrite check_args_cases. split.
  - intros e.
    destruct (IsString (arg args 0)); cbn [negb andb];
      [|destruct (arg args 4); cbn; (split; [discriminate|intros (_ & H & _); discriminate H])].
    destruct (IsNumber (arg args 1)); cbn [negb andb];
      [|destruct (arg args 4); cbn; (split; [discriminate|intros (_ & H & _); discriminate H])].
    destruct (IsNumber (arg args 2)); cbn [negb andb];
      [|destruct (arg args 4); cbn; (split; [discriminate|intros (_ & H & _); discriminate H])].
    destruct (IsNumber (arg args 3)); cbn [negb andb];
      [|destruct (arg args 4); cbn; (split; [discriminate|intros (_ & H & _); discriminate H])].
    destruct (arg args 4) as [| | | | | | |callback]; cbn [IsFunction negb];
      try (split; [intros [= <-]; auto|intros (-> & _); reflexivity]).
    cbn [String.length Nat.eqb negb].
    split; [|intros (_ & _ & H); discriminate H].
    destruct (PdalBindings.m_pdalSession obj); [destruct (_ <=? _)|]; discriminate.
  - intros Hfront Hcb.
    destruct (IsString (arg args 0)); cbn [negb andb] in *;
      [|destruct (arg args 4); try reflexivity; discriminate Hcb].
    destruct (IsNumber (arg args 1)); cbn [negb andb] in *;
      [|destruct (arg args 4); try reflexivity; discriminate Hcb].
    destruct (IsNumber (arg args 2)); cbn [negb andb] in *;
      [|destruct (arg args 4); try reflexivity; discriminate Hcb].
    destruct (IsNumber (arg args 3)); cbn [negb andb] in *;
      [discriminate Hfront|destruct (arg args 4); try reflexivity; discriminate Hcb].
Qed.

Lemma read_accepted_pointer args w obj obj' :
  PdalBindings.read args w obj = PdalBindings.ReadReturns obj' [] ->
  PdalBindings.m_readData obj' = Some (List.length (PdalBindings.tasks obj)) /\
  exists task, PdalBindings.tasks obj' = PdalBindings.tasks obj ++ [task].
Proof.
  unfold PdalBindings.read.
  destruct (PdalBindings.check_args args) as [errMsg|e]; [|discriminate].
  destruct (arg args 4); try discriminate.
  destruct (negb _); [discriminate|].
  destruct (PdalBindings.m_pdalSession obj) as [session|]; [|discriminate].
  destruct (_ <=? _); [discriminate|].
  intros [= <-]. split; [reflexivity|]. eexists. reflexivity.
Qed.

(** X18.  [PdalBindings::cancel] touches no request but the one the
    object points at.  A read that is accepted moves the pointer to its
    own record: from then on a call of [cancel] leaves every earlier
    request, in flight or not, as it was. *)
Theorem cancel_reaches_only_the_latest_read obj :
  (forall p,
     PdalBindings.m_readData obj <> Some p ->
     PdalBindings.tasks (snd (PdalBindings.cancel obj)) !! p = PdalBindings.tasks obj !! p) /\
  (forall args w obj',
     PdalBindings.read args w obj = PdalBindings.ReadReturns obj' [] ->
     forall p,
       (p < List.length (PdalBindings.tasks obj))%nat ->
       PdalBindings.tasks (snd (PdalBindings.cancel obj')) !! p = PdalBindings.tasks obj !! p).
Proof.
  assert (Hframe : forall o p,
            PdalBindings.m_readData o <> Some p ->
            PdalBindings.tasks (snd (PdalBindings.cancel o)) !! p = PdalBindings.tasks o !! p).
  { intros o p Hp. unfold PdalBindings.cancel.
    destruct (PdalBindings.m_readData o) as [q|]; [|reflexivity].
    cbn [snd PdalBindings.tasks].
    destruct (PdalBindings.tasks o !! q) as [task|]; [|reflexivity].
    apply list_lookup_insert_ne. congruence. }
  split; [apply Hframe|].
  intros args w obj' H p Hp.
  destruct (read_accepted_pointer _ _ _ _ H) as [Hptr [task Htasks]].
  rewrite Hframe by (rewrite Hptr; intros [= Heq]; lia).
  rewrite Htasks. apply lookup_app_l. exact Hp.
Qed.

(** ** The callback in the trace of a request *)

Lemma read_work_callback w rd : ReadData.callback (read_work w rd) = ReadData.callback rd.
Proof.
  unfold read_work. destruct (points (engine w)); [|reflexivity].
  destruct (connect w); reflexivity.
Qed.

Lemma invocations_send_iteration w rd offset :
  invocations (snd (send_iteration w rd offset)) = [].
Proof.
  unfold send_iteration.
  destruct (_ && _); [destruct (ReadData.bufferTransmitter rd); [destruct (send w _ _)|]|];
    reflexivity.
Qed.

Lemma invocations_send_left rd offset : invocations (snd (send_left rd offset)) = [].
Proof. unfold send_left. destruct (ReadData.cancel rd); reflexivity. Qed.

Lemma send_iteration_not_retrieving w rd offset :
  fst (send_iteration w rd offset) <> ReadWork /\
  fst (send_iteration w rd offset) <> ReadAfter.
Proof.
  unfold send_iteration.
  destruct (_ && _); [destruct (ReadData.bufferTransmitter rd); [destruct (send w _ _)|]|];
    split; discriminate.
Qed.

Lemma reported_step w s callback r : reported callback r -> reported callback (step w s r).
Proof.
  intros [Hcb H]. destruct r as [rd st es]. cbn [readData stage effects] in *.
  destruct s; cbn [step].
  - destruct st as [| |offset|offset| | |].
    + rewrite work_ReadWork. split; [cbn; rewrite read_work_callback; exact Hcb|exact H].
    + rewrite work_ReadAfter. subst es. split; [exact Hcb|]. cbn [stage effects app].
      unfold read_after. destruct (negb _); cbn [fst snd];
        eexists _, _; (split; [reflexivity|]); split; auto.
    + destruct H as (call & tail & -> & Hc & Hi).
      rewrite work_SendWork. split; [exact Hcb|]. cbn [stage effects].
      assert (Hshape : exists call' tail',
                (Invoke call :: tail) ++ snd (send_iteration w rd offset) =
                Invoke call' :: tail' /\ callee call' = callback /\ invocations tail' = []).
      { exists call, (tail ++ snd (send_iteration w rd offset)).
        split; [reflexivity|]. split; [exact Hc|].
        rewrite invocations_app, Hi, invocations_send_iteration. reflexivity. }
      destruct (send_iteration_not_retrieving w rd offset) as [Hn1 Hn2].
      destruct (fst (send_iteration w rd offset)); try exact Hshape; contradiction.
    + destruct H as (call & tail & -> & Hc & Hi).
      rewrite work_SendLeft. split; [exact Hcb|]. cbn [stage effects].
      exists call, (tail ++ snd (send_left rd offset)).
      split; [reflexivity|]. split; [exact Hc|].
      rewrite invocations_app, Hi, invocations_send_left. reflexivity.
    + destruct H as (call & tail & -> & Hc & Hi).
      rewrite work_SendAfter. split; [exact Hcb|]. cbn [stage effects].
      exists call, (tail ++ [DeleteArray (ReadData.data rd); DeleteReadData]).
      split; [reflexivity|]. split; [exact Hc|].
      rewrite invocations_app, Hi. reflexivity.
    + split; [exact Hcb|exact H].
    + split; [exact Hcb|exact H].
  - unfold flag_cancel. cbn [stage readData effects].
    destruct st; split; cbn [readData stage effects ReadData.set_cancel ReadData.callback];
      assumption.
Qed.

Lemma reported_execute w steps callback r :
  reported callback r -> reported callback (execute w steps r).
Proof.
  revert r. induction steps as [|s steps IH]; intros r H; [exact H|].
  rewrite execute_cons. apply IH, reported_step, H.
Qed.

(** X19.  Under every schedule of pieces of work and cancellations,
    whatever the engine and the network answer, nothing is observed of a
    request until its retrieval has been reported; from then on the
    trace starts with the one invocation of the callback the request was
    queued with, and holds no other invocation: the callback is never
    invoked twice, and is invoked before the first byte is written and
    before the buffer is released. *)
Theorem callback_is_invoked_once_and_first w rd steps :
  let r := execute w steps (queued rd) in
  (stage r = ReadWork \/ stage r = ReadAfter -> effects r = []) /\
  (stage r <> ReadWork -> stage r <> ReadAfter ->
   exists call tail,
     effects r = Invoke call :: tail /\
     callee call = ReadData.callback rd /\
     invocations tail = []) /\
  (List.length (invocations (effects r)) <= 1)%nat.
Proof.
  cbv zeta.
  assert (H0 : reported (ReadData.callback rd) (queued rd)) by (split; reflexivity).
  destruct (reported_execute w steps _ _ H0) as [_ H].
  destruct (stage (execute w steps (queued rd))) eqn:Hst;
    try (destruct H as (call & tail & He & Hc & Hi);
         split; [intros [Hs|Hs]; discriminate Hs|];
         split; [intros _ _; exists call, tail; auto|];
         rewrite He; cbn [invocations List.length]; rewrite Hi; cbn; lia);
    (split; [intros _; exact H|]; split; [intros Hn1 Hn2; congruence|];
     rewrite H; cbn; lia).
Qed.

(** ** A write that fails *)

Section Failure.

Variable w : World.
Variable rd : ReadData.t.

Hypothesis transmitter_bound : ReadData.bufferTransmitter rd <> None.
Hypothesis numBytes_fits : 0 <= ReadData.numBytes rd <= max_numBytes.
Hypothesis flag_down : ReadData.cancel rd = false.

Lemma execute_chunks_while_accepted es (k : nat) :
  (k <= chunk_count (ReadData.numBytes rd))%nat ->
  (forall i, (i < k)%nat ->
     exists u, send w (Z.of_nat i * chunkSize) (spec_chunk_length (ReadData.numBytes rd) i) =
               Return u) ->
  execute w (repeat Work k) (transmission rd es) = after_chunks rd es k.
Proof using transmitter_bound numBytes_fits flag_down.
  induction k as [|k IH]; intros Hk Hsend.
  - unfold after_chunks, transmission. cbn. rewrite app_nil_r. reflexivity.
  - rewrite repeat_snoc, execute_app, IH by (try lia; intros i Hi; apply (Hsend i); lia).
    cbn [execute fold_left step]. unfold after_chunks.
    rewrite work_SendWork,
      (send_iteration_chunk w rd transmitter_bound numBytes_fits k flag_down) by lia.
    destruct (Hsend k) as [u ->]; [lia|]. cbn [fst snd].
    rewrite seq_S, !List.map_app, app_assoc. reflexivity.
Qed.

End Failure.

(** X20.  When the call of [transmit] for the chunk [k] is the first to
    throw, the transmission is over after [k + 2] pieces of work: the
    transmitter has been called for the chunks 0 to [k] and for no
    other, the line "Caught error transmitting buffer" has been printed,
    the buffer has been released and the record deleted.  Nothing is
    reported to the callback, and nothing more is observed of the
    request whatever is scheduled next. *)
Theorem write_failure_aborts_the_transmission w rd es (k : nat) e :
  ReadData.bufferTransmitter rd <> None ->
  0 <= ReadData.numBytes rd <= max_numBytes ->
  ReadData.cancel rd = false ->
  (k < chunk_count (ReadData.numBytes rd))%nat ->
  (forall i, (i < k)%nat ->
     exists u, send w (Z.of_nat i * chunkSize) (spec_chunk_length (ReadData.numBytes rd) i) =
               Return u) ->
  send w (Z.of_nat k * chunkSize) (spec_chunk_length (ReadData.numBytes rd) k) = Throw e ->
  let trace :=
    es ++ List.map write_of (List.map (spec_chunk (ReadData.numBytes rd)) (seq 0 (S k))) ++
    [Stdout "Caught error transmitting buffer";
     DeleteArray (ReadData.data rd);
     DeleteReadData] in
  execute w (repeat Work (k + 2)) (transmission rd es) =
    {| readData := rd; stage := Deleted; effects := trace |} /\
  forall steps,
    effects (execute w (repeat Work (k + 2) ++ steps) (transmission rd es)) = trace.
Proof.
  intros Hbt Hfit Hc Hk Hsend Hfail. cbv zeta.
  assert (Hrun : execute w (repeat Work (k + 2)) (transmission rd es) =
                 {| readData := rd; stage := Deleted;
                    effects :=
                      es ++
                      List.map write_of
                        (List.map (spec_chunk (ReadData.numBytes rd)) (seq 0 (S k))) ++
                      [Stdout "Caught error transmitting buffer";
                       DeleteArray (ReadData.data rd);
                       DeleteReadData] |}).
  { rewrite repeat_app, execute_app,
      (execute_chunks_while_accepted w rd Hbt Hfit Hc es k) by (try lia; exact Hsend).
    cbn [repeat execute fold_left step]. unfold after_chunks.
    rewrite work_SendWork, (send_iteration_chunk w rd Hbt Hfit k Hc Hk), Hfail.
    cbn [fst snd]. rewrite work_SendAfter.
    rewrite seq_S, !List.map_app, <- !app_assoc. reflexivity. }
  split; [exact Hrun|].
  intros steps. rewrite execute_app, Hrun, finished_execute by (left; reflexivity).
  reflexivity.
Qed.

Lemma write_failure_aborts_the_transmission_witness :
  execute broken_pipe_world (repeat Work 3) (transmission survey_readData []) =
  {| readData := survey_readData;
     stage := Deleted;
     effects := [Write 0 65536; Write 65536 65536;
                 Stdout "Caught error transmitting buffer";
                 DeleteArray (Some 150000); DeleteReadData] |}.
Proof.
  refine (proj1 (write_failure_aborts_the_transmission
                   broken_pipe_world survey_readData [] 1 (runtime_error "Broken pipe")
                   _ _ _ _ _ _)).
  - discriminate.
  - vm_compute. split; discriminate.
  - reflexivity.
  - apply Nat.ltb_lt. reflexivity.
  - intros i Hi. assert (i = 0%nat) as -> by lia. exists tt. reflexivity.
  - reflexivity.
Defined.

(** X21.  A cancellation that reaches a request before its retrieval has
    run does not stop the retrieval.  Under every schedule that follows,
    no byte is written; and when the retrieval succeeds, the callback is
    still invoked as for a success, with [null] and the two counts,
    before the transmission task finds the flag up at offset 0, prints
    the cancellation line and releases the buffer. *)
Theorem cancelled_before_retrieval_sends_nothing w pdalSession host port start count callback :
  let rd := ReadData.new pdalSession host port start count callback in
  (forall steps, writes (effects (execute w (Cancel :: steps) (queued rd))) = []) /\
  (forall n u,
     points (engine w) = Return n ->
     connect w = Return u ->
     let numBytes := SizeT.mul n (sessionStride pdalSession) in
     effects (execute w (Cancel :: repeat Work 5) (queued rd)) =
     [Invoke {| callee := callback;
                argv := [VNull; VInteger (to_int32 n); VInteger (to_int32 numBytes)] |};
      Stdout ("CANCELLED at (" ++ decimal 0 ++ " / " ++ decimal numBytes ++ ") bytes");
      DeleteArray (data_after (engine w));
      DeleteReadData]).
Proof.
  cbv zeta. split.
  - intros steps. rewrite execute_cons. cbn [step].
    apply (proj1 (cancelled_execute w steps
                    (flag_cancel
                       (queued (ReadData.new pdalSession host port start count callback)))
                    eq_refl)).
  - intros n u Hn Hu. cbn [repeat execute fold_left step]. unfold queued, flag_cancel.
    cbn [stage readData effects]. rewrite work_ReadWork, work_ReadAfter.
    remember (read_work w
                (ReadData.set_cancel
                   (ReadData.new pdalSession host port start count callback) true)) as rd1
      eqn:Hrd1.
    assert (Hfields :
              ReadData.errMsg rd1 = EmptyString /\ ReadData.cancel rd1 = true /\
              ReadData.callback rd1 = callback /\ ReadData.numPoints rd1 = n /\
              ReadData.numBytes rd1 = SizeT.mul n (sessionStride pdalSession) /\
              ReadData.data rd1 = data_after (engine w)).
    { subst rd1. unfold read_work. rewrite Hn, Hu. repeat split. }
    destruct Hfields as (He & Hc & Hcb & Hp & Hb & Hd).
    unfold read_after. rewrite He, Hcb, Hp, Hb. cbn [String.length Nat.eqb negb fst snd app].
    rewrite work_SendWork. unfold send_iteration. rewrite Hc, andb_false_r.
    cbn [fst snd]. rewrite work_SendLeft. unfold send_left. rewrite Hc, Hb.
    cbn [snd]. rewrite work_SendAfter, Hd. reflexivity.
Qed.

(** ** Every request ends *)

Lemma read_work_set_cancel w rd b :
  ReadData.numBytes (read_work w (ReadData.set_cancel rd b)) =
  ReadData.numBytes (read_work w rd).
Proof.
  unfold read_work. destruct (points (engine w)); [|reflexivity].
  destruct (connect w); reflexivity.
Qed.

Lemma on_course_step w numBytes s r :
  0 <= numBytes <= max_numBytes ->
  on_course w numBytes r ->
  on_course w numBytes (step w s r) /\
  (work_left numBytes (stage (step w s r)) + (if is_work s then 1 else 0) <=
     work_left numBytes (stage r) \/
   work_left numBytes (stage (step w s r)) = 0)%nat.
Proof.
  intros Hfit H. destruct r as [rd st es]. unfold on_course in *.
  cbn [readData stage effects] in *.
  destruct s; cbn [step is_work].
  - destruct st as [| |offset|offset| | |].
    + rewrite work_ReadWork. cbn [stage readData work_left]. split; [exact H|left; lia].
    + rewrite work_ReadAfter. cbn [stage readData].
      destruct (read_after_stage rd) as [-> | ->]; cbn [work_left].
      * split; [exact H|right; reflexivity].
      * split; [|left; change (0 / chunkSize) with 0; cbn; lia].
        split; [exact H|]. exists 0%nat. split; [reflexivity|lia].
    + destruct H as (Hn & k & -> & Hk). rewrite work_SendWork. cbn [stage readData].
      assert (Hdiv : Z.to_nat (Z.of_nat k * chunkSize / chunkSize) = k)
        by (rewrite Z.div_mul by discriminate; apply Nat2Z.id).
      assert (Hfit' : 0 <= ReadData.numBytes rd <= max_numBytes) by (rewrite Hn; exact Hfit).
      unfold send_iteration.
      destruct ((Z.of_nat k * chunkSize <? ReadData.numBytes rd) &&
                negb (ReadData.cancel rd)) eqn:Hcond.
      * apply andb_prop in Hcond as [Hlt _].
        apply Z.ltb_lt, (chunk_count_lt _ k (proj1 Hfit')) in Hlt.
        destruct (ReadData.bufferTransmitter rd); [|split; [exact Hn|right; reflexivity]].
        destruct (send w _ _); cbn [fst work_left].
        -- rewrite (next_offset rd Hfit' k Hlt).
           split; [split; [exact Hn|exists (S k); split; [reflexivity|rewrite <- Hn; lia]]|].
           left. rewrite Hdiv.
           replace (Z.to_nat (Z.of_nat (S k) * chunkSize / chunkSize)) with (S k)
             by (rewrite Z.div_mul by discriminate; symmetry; apply Nat2Z.id).
           rewrite <- Hn. lia.
        -- split; [exact Hn|left; lia].
      * cbn [fst work_left]. split; [exact Hn|left; lia].
    + rewrite work_SendLeft. cbn [stage readData work_left]. split; [exact H|left; lia].
    + rewrite work_SendAfter. cbn [stage readData work_left]. split; [exact H|left; lia].
    + split; [exact H|right; reflexivity].
    + split; [exact H|right; reflexivity].
  - unfold flag_cancel. cbn [stage readData effects].
    destruct st; cbn [stage readData work_left ReadData.set_cancel ReadData.numBytes];
      (split; [|auto; left; lia]); try exact H.
    rewrite read_work_set_cancel. exact H.
Qed.

Lemma on_course_execute w numBytes steps r :
  0 <= numBytes <= max_numBytes ->
  on_course w numBytes r ->
  (work_left numBytes (stage (execute w steps r)) + pieces_of_work steps <=
     work_left numBytes (stage r) \/
   work_left numBytes (stage (execute w steps r)) = 0)%nat.
Proof.
  intros Hfit. revert r. induction steps as [|s steps IH]; intros r H.
  - left. cbn. lia.
  - rewrite execute_cons.
    destruct (on_course_step w numBytes s r Hfit H) as [H' Hs].
    specialize (IH _ H'). unfold pieces_of_work in *. cbn [List.filter].
    destruct Hs as [Hs|Hs].
    + destruct IH as [IH|IH]; [left|right; exact IH].
      destruct (is_work s); cbn [List.length]; lia.
    + destruct IH as [IH|IH]; [right; lia|right; exact IH].
Qed.

Lemma work_left_done numBytes st :
  work_left numBytes st = 0%nat -> st = Deleted \/ st = Crashed.
Proof. destruct st; cbn [work_left]; intros H; auto; lia. Qed.

(** X22.  A request needs at most [chunk_count numBytes + 5] pieces of
    work, where [numBytes] is the size its retrieval stores: under every
    schedule that holds that many, with cancellations anywhere in it and
    whatever the engine and the network answer, the request has left the
    queue.  Its record has been deleted, and then the buffer has been
    released exactly once, or the program has run into undefined
    behaviour on it.  As in the transmit loop, [numBytes] is at most
    [max_numBytes]. *)
Theorem every_request_completes w rd steps :
  let numBytes := ReadData.numBytes (read_work w rd) in
  0 <= numBytes <= max_numBytes ->
  (chunk_count numBytes + 5 <= pieces_of_work steps)%nat ->
  let r := execute w steps (queued rd) in
  (stage r = Deleted \/ stage r = Crashed) /\
  (stage r = Deleted -> releases (effects r) = [data_after (engine w)]).
Proof.
  cbv zeta. intros Hfit Hsteps. split.
  - apply (work_left_done (ReadData.numBytes (read_work w rd))).
    destruct (on_course_execute w _ steps (queued rd) Hfit eq_refl) as [H|H]; [|exact H].
    cbn [queued stage work_left] in H. lia.
  - intros Hst.
    pose proof (release_invariant_execute w steps (queued rd) eq_refl) as H.
    unfold release_invariant in H. rewrite Hst in H. exact H.
Qed.

Lemma every_request_completes_witness :
  stage (execute survey_world (repeat Work 8) (queued survey_request)) = Deleted \/
  stage (execute survey_world (repeat Work 8) (queued survey_request)) = Crashed.
Proof.
  refine (proj1 (every_request_completes survey_world survey_request (repeat Work 8) _ _)).
  - vm_compute. split; discriminate.
  - apply Nat.leb_le. reflexivity.
Defined.

(** ** The session of the bindings object *)

Lemma doInitialize_cases args execute obj :
  SessionBindings.doInitialize args execute obj =
  if negb (IsFunction (arg args 1)) then
    SessionBindings.Throws (runtime_error "Invalid callback supplied to 'create'")
  else if negb (IsString (arg args 0)) then
    SessionBindings.Returns obj
      [errorCallback (callback_id (arg args 1)) "'pipeline' must be a string - args[0]"]
  else
    SessionBindings.Returns
      {| SessionBindings.m_pdalSession := Some (List.length (SessionBindings.heap obj));
         SessionBindings.heap := SessionBindings.heap obj ++ [SessionBindings.Constructed];
         SessionBindings.requests :=
           SessionBindings.requests obj ++
           [{| SessionBindings.createData :=
                 {| SessionBindings.pdalSession := List.length (SessionBindings.heap obj);
                    SessionBindings.pipeline :=
                      match arg args 0 with VString s => c_str s | _ => EmptyString end;
                    SessionBindings.execute := execute;
                    SessionBindings.callback := callback_id (arg args 1);
                    SessionBindings.errMsg := EmptyString |};
               SessionBindings.progress := SessionBindings.ToInitialize;
               SessionBindings.invoked := [] |}] |}
      [].
Proof.
  unfold SessionBindings.doInitialize. cbv zeta.
  rewrite IsUndefined_IsString, IsUndefined_IsFunction.
  destruct (IsFunction (arg args 1)); [|reflexivity].
  destruct (IsString (arg args 0)); reflexivity.
Qed.

(** X23.  [doInitialize], and with it [create] and [parse], throws
    exactly when its second argument is not a function, whatever the
    first argument is, and then it throws the runtime error "Invalid
    callback supplied to 'create'": the two tests are separate [if]
    statements, so that a pipeline that is not a string does not keep
    the callback from being checked. *)
Theorem create_checks_the_callback_whatever_the_pipeline args execute obj :
  (forall e,
     SessionBindings.doInitialize args execute obj = SessionBindings.Throws e <->
     e = runtime_error "Invalid callback supplied to 'create'" /\
     IsFunction (arg args 1) = false) /\
  (forall e,
     SessionBindings.parse args obj = SessionBindings.Throws e <->
     e = runtime_error "Invalid callback supplied to 'create'" /\
     IsFunction (arg args 1) = false).
Proof.
  unfold SessionBindings.parse. rewrite !doInitialize_cases.
  destruct (IsFunction (arg args 1)); cbn [negb].
  - destruct (IsString (arg args 0)); cbn [negb];
      split; intros e; (split; [discriminate|intros [_ H]; discriminate H]).
  - split; intros e; (split; [intros [= <-]; auto|intros [-> _]; reflexivity]).
Qed.

(** X24.  A pipeline that is not a string is reported at once: the
    callback is invoked, before the call returns, with "'pipeline' must
    be a string - args[0]", and nothing is queued.  [create] leaves the
    object as it was, the session it holds included; [parse] drops the
    session the object holds although nothing has been parsed. *)
Theorem bad_pipeline_is_reported_at_once args execute obj callback :
  arg args 1 = VFunction callback ->
  IsString (arg args 0) = false ->
  SessionBindings.doInitialize args execute obj =
    SessionBindings.Returns obj
      [errorCallback callback "'pipeline' must be a string - args[0]"] /\
  SessionBindings.parse args obj =
    SessionBindings.Returns (SessionBindings.reset obj)
      [errorCallback callback "'pipeline' must be a string - args[0]"].
Proof.
  intros Hcb Hs. unfold SessionBindings.parse. rewrite !doInitialize_cases, Hcb, Hs.
  split; reflexivity.
Qed.

(** X25.  A string as pipeline and a function as callback are accepted
    without an invocation: a new session is constructed, the object
    points at it, and its initialization is queued with the pipeline,
    the [execute] flag and the callback of the call.  Until that work
    has run [getNumPoints] asks a session that has not been initialized.
    [parse] queues the same initialization with [execute = false] and
    leaves the object without a session. *)
Theorem accepted_pipeline_gets_a_new_session args obj callback s :
  arg args 0 = VString s ->
  arg args 1 = VFunction callback ->
  let queued_request execute :=
    {| SessionBindings.createData :=
         {| SessionBindings.pdalSession := List.length (SessionBindings.heap obj);
            SessionBindings.pipeline := c_str s;
            SessionBindings.execute := execute;
            SessionBindings.callback := callback;
            SessionBindings.errMsg := EmptyString |};
       SessionBindings.progress := SessionBindings.ToInitialize;
       SessionBindings.invoked := [] |} in
  let created execute :=
    {| SessionBindings.m_pdalSession := Some (List.length (SessionBindings.heap obj));
       SessionBindings.heap := SessionBindings.heap obj ++ [SessionBindings.Constructed];
       SessionBindings.requests := SessionBindings.requests obj ++ [queued_request execute] |} in
  (forall execute,
     SessionBindings.doInitialize args execute obj =
       SessionBindings.Returns (created execute) [] /\
     SessionBindings.getNumPoints (created execute) = SessionBindings.Not_initialized) /\
  SessionBindings.parse args obj =
    SessionBindings.Returns
      {| SessionBindings.m_pdalSession := None;
         SessionBindings.heap := SessionBindings.heap obj ++ [SessionBindings.Constructed];
         SessionBindings.requests := SessionBindings.requests obj ++ [queued_request false] |}
      [].
Proof.
  intros Hs Hcb. cbv zeta. unfold SessionBindings.parse. split.
  - intros execute. rewrite doInitialize_cases, Hs, Hcb.
    cbn [IsFunction IsString negb callback_id]. split; [reflexivity|].
    unfold SessionBindings.getNumPoints.
    cbn [SessionBindings.m_pdalSession SessionBindings.heap].
    rewrite list_lookup_middle by reflexivity. reflexivity.
  - rewrite doInitialize_cases, Hs, Hcb. reflexivity.
Qed.

Lemma bad_pipeline_is_reported_at_once_witness :
  SessionBindings.doInitialize [VInteger 1; VFunction 7] true SessionBindings.new =
    SessionBindings.Returns SessionBindings.new
      [errorCallback 7 "'pipeline' must be a string - args[0]"] /\
  SessionBindings.parse [VInteger 1; VFunction 7] SessionBindings.new =
    SessionBindings.Returns (SessionBindings.reset SessionBindings.new)
      [errorCallback 7 "'pipeline' must be a string - args[0]"].
Proof.
  apply (bad_pipeline_is_reported_at_once [VInteger 1; VFunction 7] true
           SessionBindings.new 7%nat); reflexivity.
Defined.

Lemma accepted_pipeline_gets_a_new_session_witness :
  SessionBindings.parse [VString "pipeline.xml"; VFunction 7] SessionBindings.new =
  SessionBindings.Returns
    {| SessionBindings.m_pdalSession := None;
       SessionBindings.heap := [SessionBindings.Constructed];
       SessionBindings.requests :=
         [{| SessionBindings.createData :=
               {| SessionBindings.pdalSession := 0;
                  SessionBindings.pipeline := "pipeline.xml";
                  SessionBindings.execute := false;
                  SessionBindings.callback := 7;
                  SessionBindings.errMsg := EmptyString |};
             SessionBindings.progress := SessionBindings.ToInitialize;
             SessionBindings.invoked := [] |}] |}
    [].
Proof.
  apply (proj2 (accepted_pipeline_gets_a_new_session
                  [VString "pipeline.xml"; VFunction 7] SessionBindings.new 7%nat
                  "pipeline.xml" eq_refl eq_refl)).
Defined.

(** The invariant of the object, kept by every call and every piece of
    work. *)
Lemma well_formed_ext initialize heap heap' p r :
  heap' !! p = heap !! p ->
  well_formed initialize heap p r -> well_formed initialize heap' p r.
Proof.
  unfold well_formed. intros ->. auto.
Qed.

Lemma invariant_reset initialize execute_default obj :
  reachable_invariant initialize execute_default obj ->
  reachable_invariant initialize execute_default (SessionBindings.reset obj).
Proof.
  intros (Hlen & Hwf & _). split; [exact Hlen|]. split; [exact Hwf|].
  intros a H. discriminate H.
Qed.

Lemma invariant_doInitialize initialize execute_default args obj obj' calls :
  reachable_invariant initialize execute_default obj ->
  SessionBindings.doInitialize args execute_default obj = SessionBindings.Returns obj' calls ->
  reachable_invariant initialize execute_default obj'.
Proof.
  intros Hinv. rewrite doInitialize_cases.
  destruct (negb (IsFunction (arg args 1))); [discriminate|].
  destruct (negb (IsString (arg args 0))); intros [= <- <-]; [exact Hinv|].
  destruct Hinv as (Hlen & Hwf & Hptr).
  split; [|split]; cbn [SessionBindings.heap SessionBindings.requests
                         SessionBindings.m_pdalSession].
  - rewrite !length_app, Hlen. reflexivity.
  - intros p r Hr. apply lookup_snoc_Some in Hr as [[Hp Hr]|[-> <-]].
    + apply (well_formed_ext _ (SessionBindings.heap obj)); [|apply Hwf, Hr].
      apply lookup_app_l. rewrite Hlen. exact Hp.
    + unfold well_formed. cbn. split; [exact Hlen|]. split; [reflexivity|].
      split; [reflexivity|]. apply list_lookup_middle. symmetry. exact Hlen.
  - intros a [= <-]. split; [rewrite length_app, Hlen; cbn; lia|].
    eexists. split; [apply list_lookup_middle; exact Hlen|reflexivity].
Qed.

Lemma invariant_parse initialize execute_default args obj obj' calls :
  reachable_invariant initialize execute_default obj ->
  SessionBindings.parse args obj = SessionBindings.Returns obj' calls ->
  reachable_invariant initialize execute_default obj'.
Proof.
  intros Hinv. unfold SessionBindings.parse. rewrite doInitialize_cases.
  destruct (negb (IsFunction (arg args 1))); [discriminate|].
  destruct (negb (IsString (arg args 0))); intros [= <- <-].
  - apply invariant_reset, Hinv.
  - destruct Hinv as (Hlen & Hwf & Hptr).
    split; [|split]; cbn [SessionBindings.heap SessionBindings.requests
                           SessionBindings.m_pdalSession SessionBindings.reset].
    + rewrite !length_app, Hlen. reflexivity.
    + intros p r Hr. apply lookup_snoc_Some in Hr as [[Hp Hr]|[-> <-]].
      * apply (well_formed_ext _ (SessionBindings.heap obj)); [|apply Hwf, Hr].
        apply lookup_app_l. rewrite Hlen. exact Hp.
      * unfold well_formed. cbn. split; [exact Hlen|]. split; [reflexivity|].
        split; [reflexivity|]. apply list_lookup_middle. symmetry. exact Hlen.
    + intros a H. discriminate H.
Qed.

Lemma invariant_run_work initialize execute_default p obj :
  reachable_invariant initialize execute_default obj ->
  reachable_invariant initialize execute_default (SessionBindings.run_work initialize p obj).
Proof.
  intros (Hlen & Hwf & Hptr). unfold SessionBindings.run_work.
  destruct (SessionBindings.requests obj !! p) as [r|] eqn:Hr; [|exact (conj Hlen (conj Hwf Hptr))].
  pose proof (lookup_lt_Some _ _ _ Hr) as Hp.
  destruct (Hwf p r Hr) as [Haddr Hprog].
  destruct (SessionBindings.progress r) eqn:Hpr; [| |exact (conj Hlen (conj Hwf Hptr))].
  - (* the work callback *)
    destruct Hprog as (Herr & Hinv & Hcell).
    split; [|split]; cbn [SessionBindings.heap SessionBindings.requests
                           SessionBindings.m_pdalSession].
    + rewrite !length_insert. exact Hlen.
    + intros q r' Hr'. apply list_lookup_insert_Some in Hr' as [(<- & <- & _)|[Hne Hr']].
      * unfold well_formed, SessionBindings.init_work, init_message, init_session.
        destruct (SessionBindings.raised _) eqn:Hraised;
          cbn [SessionBindings.createData SessionBindings.progress SessionBindings.invoked
               SessionBindings.set_errMsg SessionBindings.pdalSession
               SessionBindings.pipeline SessionBindings.execute SessionBindings.errMsg];
          rewrite ?Hraised, Haddr;
          (split; [reflexivity|]); (split; [auto|]); (split; [exact Hinv|]);
          apply list_lookup_insert_eq; rewrite Hlen; exact Hp.
      * apply (well_formed_ext _ (SessionBindings.heap obj)); [|apply Hwf, Hr'].
        apply list_lookup_insert_ne. congruence.
    + intros a Ha. destruct (Hptr a Ha) as (Hlast & r' & Hr' & Hex).
      split; [rewrite length_insert; exact Hlast|].
      destruct (decide (p = a)) as [->|Hne].
      * eexists. split; [apply list_lookup_insert_eq; exact Hp|].
        assert (r' = r) by congruence. subst r'.
        unfold SessionBindings.init_work.
        destruct (SessionBindings.raised _); exact Hex.
      * exists r'. split; [|exact Hex]. rewrite list_lookup_insert_ne by exact Hne. exact Hr'.
  - (* the after-work callback *)
    destruct Hprog as (Herr & Hinv & Hcell).
    split; [|split]; cbn [SessionBindings.heap SessionBindings.requests
                           SessionBindings.m_pdalSession].
    + rewrite length_insert. exact Hlen.
    + intros q r' Hr'. apply list_lookup_insert_Some in Hr' as [(<- & <- & _)|[Hne Hr']].
      * unfold well_formed, SessionBindings.init_after.
        cbn [SessionBindings.createData SessionBindings.progress SessionBindings.invoked].
        rewrite Hinv, Herr. split; [exact Haddr|]. split; [reflexivity|exact Hcell].
      * apply Hwf, Hr'.
    + intros a Ha. destruct (Hptr a Ha) as (Hlast & r' & Hr' & Hex).
      split; [rewrite length_insert; exact Hlast|].
      destruct (decide (p = a)) as [->|Hne].
      * eexists. split; [apply list_lookup_insert_eq; exact Hp|].
        assert (r' = r) by congruence. subst r'. exact Hex.
      * exists r'. split; [|exact Hex]. rewrite list_lookup_insert_ne by exact Hne. exact Hr'.
Qed.

Lemma invariant_apply initialize execute_default obj op :
  reachable_invariant initialize execute_default obj ->
  reachable_invariant initialize execute_default
    (SessionBindings.apply initialize execute_default obj op).
Proof.
  intros Hinv. destruct op as [args|args| |p]; cbn [SessionBindings.apply].
  - unfold SessionBindings.create.
    destruct (SessionBindings.doInitialize args execute_default obj) as [e|obj' calls] eqn:H;
      [exact Hinv|].
    apply (invariant_doInitialize _ _ _ _ _ _ Hinv H).
  - destruct (SessionBindings.parse args obj) as [e|obj' calls] eqn:H; [exact Hinv|].
    apply (invariant_parse _ _ _ _ _ _ Hinv H).
  - apply invariant_reset, Hinv.
  - apply invariant_run_work, Hinv.
Qed.

Lemma invariant_history initialize execute_default ops :
  reachable_invariant initialize execute_default
    (SessionBindings.history initialize execute_default ops).
Proof.
  unfold SessionBindings.history.
  assert (H0 : reachable_invariant initialize execute_default SessionBindings.new).
  { split; [reflexivity|]. split; [intros p r H|intros a H]; discriminate H. }
  revert H0. generalize SessionBindings.new.
  induction ops as [|op ops IH]; intros obj H; [exact H|].
  cbn [fold_left]. apply IH, invariant_apply, H.
Qed.

(** X26.  After any history of calls of [create], [parse] and [destroy]
    and of pieces of work, in any order, an initialization that is done
    has invoked its callback exactly once, with exactly one argument, a
    string: the empty string when [initialize] returned, the [what()] of
    a [std::runtime_error], "Memory allocation failed in CREATE" for a
    [std::bad_alloc] and "Unknown error" for any other exception.  An
    initialization that is not done has invoked nothing. *)
Theorem each_initialization_reports_once initialize execute_default ops p r :
  SessionBindings.requests (SessionBindings.history initialize execute_default ops) !! p =
    Some r ->
  let cd := SessionBindings.createData r in
  let errMsg :=
    match SessionBindings.raised
            (initialize (SessionBindings.pipeline cd) (SessionBindings.execute cd)) with
    | None => EmptyString
    | Some (runtime_error what) => what
    | Some bad_alloc => "Memory allocation failed in CREATE"%string
    | Some unknown_exception => "Unknown error"%string
    end in
  SessionBindings.invoked r =
  match SessionBindings.progress r with
  | SessionBindings.Done =>
      [{| callee := SessionBindings.callback cd; argv := [VString errMsg] |}]
  | _ => []
  end.
Proof.
  intros Hr. cbv zeta.
  destruct (invariant_history initialize execute_default ops) as (_ & Hwf & _).
  destruct (Hwf p r Hr) as [_ H].
  destruct (SessionBindings.progress r); tauto.
Qed.

Lemma each_initialization_reports_once_witness :
  SessionBindings.invoked sample_initialization =
  [{| callee := 7%nat; argv := [VString "Memory allocation failed in CREATE"] |}].
Proof.
  apply (each_initialization_reports_once out_of_memory true
           [SessionBindings.CallCreate [VString "pipeline.xml"; VFunction 7];
            SessionBindings.RunWork 0; SessionBindings.RunWork 0]
           0%nat sample_initialization eq_refl).
Defined.

(** X27.  After any history of calls and pieces of work, an object
    without a session makes [getNumPoints] go through a null pointer; an
    object with a session holds the session of the initialization queued
    last, and that one carries the [execute] flag of [create].
    [getNumPoints] then answers from what the [initialize] call of that
    very initialization has left, as soon as its work has run, whatever
    the initializations queued before it do and whenever they run: the
    count of the session as a signed 32-bit integer. *)
Theorem getNumPoints_asks_the_session_of_the_last_create initialize execute_default ops :
  let obj := SessionBindings.history initialize execute_default ops in
  match SessionBindings.m_pdalSession obj with
  | None => SessionBindings.getNumPoints obj = SessionBindings.Null_dereference
  | Some address =>
      exists r,
        S address = List.length (SessionBindings.requests obj) /\
        SessionBindings.requests obj !! address = Some r /\
        SessionBindings.execute (SessionBindings.createData r) = execute_default /\
        SessionBindings.getNumPoints obj =
        match SessionBindings.progress r with
        | SessionBindings.ToInitialize => SessionBindings.Not_initialized
        | _ =>
            match SessionBindings.session_after
                    (initialize (SessionBindings.pipeline (SessionBindings.createData r))
                       execute_default) with
            | SessionBindings.Constructed => SessionBindings.Not_initialized
            | SessionBindings.Initialized session =>
                SessionBindings.Reads (VInteger (to_int32 (getNumPoints session)))
            end
        end
  end.
Proof.
  cbv zeta.
  destruct (invariant_history initialize execute_default ops) as (_ & Hwf & Hptr).
  unfold SessionBindings.getNumPoints.
  destruct (SessionBindings.m_pdalSession _) as [address|]; [|reflexivity].
  destruct (Hptr address eq_refl) as (Hlast & r & Hr & Hex).
  exists r. split; [exact Hlast|]. split; [exact Hr|]. split; [exact Hex|].
  destruct (Hwf address r Hr) as [_ H]. unfold init_session in H. rewrite Hex in H.
  destruct (SessionBindings.progress r).
  - destruct H as (_ & _ & ->). reflexivity.
  - destruct H as (_ & _ & ->). reflexivity.
  - destruct H as (_ & ->). reflexivity.
Qed.

(** X28.  [destroy] leaves the object without a session, so that
    [getNumPoints] goes through a null pointer after it, as it does
    after every call of [parse] that returns; a second [destroy] changes
    nothing.  [destroy] withdraws no initialization: the queue is as it
    was, and a piece of work does the same whether it runs before or
    after the call. *)
Theorem destroy_drops_the_session_only initialize obj :
  SessionBindings.getNumPoints (SessionBindings.destroy obj) =
    SessionBindings.Null_dereference /\
  SessionBindings.destroy (SessionBindings.destroy obj) = SessionBindings.destroy obj /\
  SessionBindings.requests (SessionBindings.destroy obj) = SessionBindings.requests obj /\
  (forall p,
     SessionBindings.run_work initialize p (SessionBindings.destroy obj) =
     SessionBindings.destroy (SessionBindings.run_work initialize p obj)) /\
  (forall args obj' calls,
     SessionBindings.parse args obj = SessionBindings.Returns obj' calls ->
     SessionBindings.getNumPoints obj' = SessionBindings.Null_dereference).
Proof.
  split; [reflexivity|]. split; [reflexivity|]. split; [reflexivity|]. split.
  - intros p. unfold SessionBindings.run_work, SessionBindings.destroy, SessionBindings.reset.
    cbn [SessionBindings.requests SessionBindings.heap SessionBindings.m_pdalSession].
    destruct (SessionBindings.requests obj !! p) as [r|]; [|reflexivity].
    destruct (SessionBindings.progress r); reflexivity.
  - intros args obj' calls. unfold SessionBindings.parse.
    destruct (SessionBindings.doInitialize args false obj); [discriminate|].
    intros [= <- _]. reflexivity.
Qed.

(** ** Requests side by side *)

Lemma occur_m_readData obj ev :
  PdalBindings.m_readData (occur obj ev) = PdalBindings.m_readData obj.
Proof.
  destruct ev as [q|]; cbn [occur].
  - unfold PdalBindings.run_work. destruct (PdalBindings.tasks obj !! q); reflexivity.
  - unfold PdalBindings.cancel.
    destruct (PdalBindings.m_readData obj) eqn:H; [reflexivity|exact H].
Qed.

Lemma occur_m_pdalSession obj ev :
  PdalBindings.m_pdalSession (occur obj ev) = PdalBindings.m_pdalSession obj.
Proof.
  destruct ev as [q|]; cbn [occur].
  - unfold PdalBindings.run_work. destruct (PdalBindings.tasks obj !! q); reflexivity.
  - unfold PdalBindings.cancel. destruct (PdalBindings.m_readData obj); reflexivity.
Qed.

Lemma occur_task obj ev p task :
  PdalBindings.tasks obj !! p = Some task ->
  PdalBindings.tasks (occur obj ev) !! p =
  Some {| PdalBindings.world := PdalBindings.world task;
          PdalBindings.request :=
            execute (PdalBindings.world task)
              (seen_at (PdalBindings.m_readData obj) p ev) (PdalBindings.request task) |}.
Proof.
  intros Hp. pose proof (lookup_lt_Some _ _ _ Hp) as Hlt.
  assert (Hsame : Some task =
                  Some {| PdalBindings.world := PdalBindings.world task;
                          PdalBindings.request := PdalBindings.request task |})
    by (destruct task; reflexivity).
  destruct ev as [q|]; cbn [occur seen_at].
  - unfold PdalBindings.run_work. destruct (Nat.eqb_spec q p) as [->|Hne].
    + rewrite Hp. cbn [PdalBindings.tasks]. rewrite list_lookup_insert_eq by exact Hlt.
      reflexivity.
    + destruct (PdalBindings.tasks obj !! q) as [other|];
        cbn [PdalBindings.tasks execute fold_left];
        rewrite ?list_lookup_insert_ne by exact Hne; rewrite Hp; exact Hsame.
  - unfold PdalBindings.cancel. destruct (PdalBindings.m_readData obj) as [q|];
      [|cbn [snd execute fold_left]; rewrite Hp; exact Hsame].
    cbn [snd PdalBindings.tasks]. destruct (Nat.eqb_spec q p) as [->|Hne].
    + rewrite Hp, list_lookup_insert_eq by exact Hlt. reflexivity.
    + destruct (PdalBindings.tasks obj !! q) as [other|]; cbn [execute fold_left];
        rewrite ?list_lookup_insert_ne by exact Hne; rewrite Hp; exact Hsame.
Qed.

(** X29.  The requests of an object do not interfere.  Through any
    sequence of pieces of work, at any addresses, and of calls of
    [cancel], a request goes through its own pieces of work and through
    the cancellations made while the object points at it, in their
    order, and through nothing else; the sequence changes neither the
    pointer of the object nor its session. *)
Theorem requests_do_not_interfere obj events p task :
  PdalBindings.tasks obj !! p = Some task ->
  let obj' := fold_left occur events obj in
  PdalBindings.m_readData obj' = PdalBindings.m_readData obj /\
  PdalBindings.m_pdalSession obj' = PdalBindings.m_pdalSession obj /\
  PdalBindings.tasks obj' !! p =
  Some {| PdalBindings.world := PdalBindings.world task;
          PdalBindings.request :=
            execute (PdalBindings.world task)
              (flat_map (seen_at (PdalBindings.m_readData obj) p) events)
              (PdalBindings.request task) |}.
Proof.
  cbv zeta. revert obj task. induction events as [|ev events IH]; intros obj task Hp.
  - cbn. destruct task. auto.
  - cbn [fold_left flat_map].
    destruct (IH _ _ (occur_task obj ev p task Hp)) as (Hrd & Hs & Ht).
    rewrite Hrd, Hs, Ht, !occur_m_readData.
    split; [reflexivity|]. split; [apply occur_m_pdalSession|].
    cbn [PdalBindings.world PdalBindings.request]. rewrite execute_app. reflexivity.
Qed.

Lemma requests_do_not_interfere_witness :
  PdalBindings.tasks
    (fold_left occur [WorkAt 0; CancelCall; WorkAt 1; WorkAt 0] survey_reading) !! 0%nat =
  Some {| PdalBindings.world := survey_world;
          PdalBindings.request :=
            execute survey_world [Work; Cancel; Work] (queued survey_request) |}.
Proof.
  apply (proj2 (proj2 (requests_do_not_interfere survey_reading
                         [WorkAt 0; CancelCall; WorkAt 1; WorkAt 0] 0%nat
                         {| PdalBindings.world := survey_world;
                            PdalBindings.request := queued survey_request |} eq_refl))).
Defined.

(** ** The box of the spatial query *)

Section SpatialDispatch.

Variable host_to_string : Value -> string.
Variable can_allocate : Z -> bool.

(** C10. In the 7-argument dispatch, with host, port, schema and the two
    depths well typed: an array of at least four elements in position 3
    is taken as the bounding box. The outcome is decided by its first
    four elements and by nothing else of it: when one of them is not a
    number the call is answered "Invalid coord types in query"; when the
    four are numbers that fail the test of the factory, "Invalid coords
    in query"; when they pass it, the spatial command is built with
    these four numbers as its box, the two depths, and the host, port
    and callback of the call (or [std::bad_alloc] leaves the factory
    when the buffer cannot be allocated). The elements past the fourth
    are ignored, and the call never ends in the failure to identify the
    query. An array of fewer than four elements makes the call fall
    through to the failure to identify the query, not to a coordinate
    error. *)
Theorem spatial_dispatch_by_bbox_length a0 a1 a2 bbox a4 a5 cb pdalSession schema :
  IsString a0 = true -> isInteger a1 = true -> IsObject a2 = true ->
  parse_schema host_to_string a2 = Some schema ->
  isInteger a4 = true -> isInteger a5 = true ->
  let outcome :=
    create host_to_string can_allocate
      [a0; a1; a2; VArray bbox; a4; a5; VFunction cb] pdalSession in
  let numbers :=
    IsNumber (GetIndex bbox 0) && IsNumber (GetIndex bbox 1) &&
    IsNumber (GetIndex bbox 2) && IsNumber (GetIndex bbox 3) in
  let xMin := NumberValue (GetIndex bbox 0) in
  let yMin := NumberValue (GetIndex bbox 1) in
  let xMax := NumberValue (GetIndex bbox 2) in
  let yMax := NumberValue (GetIndex bbox 3) in
  ((4 <= List.length bbox)%nat ->
     (numbers = false ->
      outcome = Returns None [errorCallback cb "Invalid coord types in query"]) /\
     (numbers = true -> Double.geb xMax xMin && Double.geb yMax xMin = false ->
      outcome = Returns None [errorCallback cb "Invalid coords in query"]) /\
     (numbers = true -> Double.geb xMax xMin && Double.geb yMax xMin = true ->
      can_allocate (buffer_bytes pdalSession schema) = true ->
      exists c,
        outcome = Returns (Some c) [] /\
        m_query c =
          ReadCommandQuadIndex
            (Some {| m_xMin := xMin; m_yMin := yMin; m_xMax := xMax; m_yMax := yMax |})
            (Uint32Value a4) (Uint32Value a5) /\
        m_host c = Utf8Value host_to_string a0 /\
        m_port c = Uint32Value a1 /\
        m_callback c = cb) /\
     (numbers = true -> Double.geb xMax xMin && Double.geb yMax xMin = true ->
      can_allocate (buffer_bytes pdalSession schema) = false ->
      outcome = Throws bad_alloc) /\
     outcome =
       create host_to_string can_allocate
         [a0; a1; a2; VArray (firstn 4 bbox); a4; a5; VFunction cb] pdalSession /\
     outcome <> Returns None [errorCallback cb "Could not identify 'read' from args"]) /\
  ((List.length bbox < 4)%nat ->
     outcome = Returns None [errorCallback cb "Could not identify 'read' from args"]).
Proof.
  intros H0 H1 H2 Hs H4 H5. cbv zeta. split; intros Hlen.
  - assert (Hge : (4 <=? ArrayLength bbox) = true)
      by (unfold ArrayLength; apply Z.leb_le; lia).
    assert (Hge' : (4 <=? ArrayLength (firstn 4 bbox)) = true).
    { unfold ArrayLength. rewrite length_firstn. apply Z.leb_le. lia. }
    rewrite !(create_seven_array host_to_string can_allocate _ _ _ _ _ _ _ _ _
                H0 H1 H2 Hs H4 H5), Hge, Hge'.
    split; [|split; [|split; [|split; [|split]]]].
    + intros Hn. unfold create_quad_index.
      cbn [arg nth isDefined IsUndefined negb]. rewrite Hn. reflexivity.
    + intros Hn Ht. unfold create_quad_index.
      cbn [arg nth isDefined IsUndefined negb]. rewrite Hn, Ht. reflexivity.
    + intros Hn Ht Ha. unfold create_quad_index.
      cbn [arg nth isDefined IsUndefined negb]. rewrite Hn, Ht.
      destruct (new_ReadCommand_allocated can_allocate pdalSession
                  (Utf8Value host_to_string a0) (Uint32Value a1) schema cb
                  (ReadCommandQuadIndex
                     (Some {| m_xMin := NumberValue (GetIndex bbox 0);
                              m_yMin := NumberValue (GetIndex bbox 1);
                              m_xMax := NumberValue (GetIndex bbox 2);
                              m_yMax := NumberValue (GetIndex bbox 3) |})
                     (Uint32Value a4) (Uint32Value a5)) Ha)
        as (c & Hc & Hcb & Hh & Hp & Hq & _).
      exists c. auto.
    + intros Hn Ht Ha. unfold create_quad_index.
      cbn [arg nth isDefined IsUndefined negb]. rewrite Hn, Ht.
      apply new_ReadCommand_refused, Ha.
    + symmetry. apply create_quad_index_firstn.
    + apply create_quad_index_identifies.
  - rewrite (create_seven_array host_to_string can_allocate _ _ _ _ _ _ _ _ _
               H0 H1 H2 Hs H4 H5).
    assert (Hlt : (4 <=? ArrayLength bbox) = false)
      by (unfold ArrayLength; apply Z.leb_gt; lia).
    rewrite Hlt. reflexivity.
Qed.

End SpatialDispatch.

Lemma spatial_dispatch_by_bbox_length_witness :
  (exists c,
     create plain_host always_allocates
       [VString "localhost"; VInteger 8080; VObject [];
        VArray [VInteger 0; VInteger 0; VInteger 10; VInteger 10; VString "ignored"];
        VInteger 0; VInteger 1; VFunction 7] sample_session = Returns (Some c) [] /\
     m_query c =
       ReadCommandQuadIndex
         (Some {| m_xMin := Double.of_Z 0; m_yMin := Double.of_Z 0;
                  m_xMax := Double.of_Z 10; m_yMax := Double.of_Z 10 |})
         (Uint32Value (VInteger 0)) (Uint32Value (VInteger 1)) /\
     m_host c = Utf8Value plain_host (VString "localhost") /\
     m_port c = Uint32Value (VInteger 8080) /\
     m_callback c = 7%nat) /\
  create plain_host always_allocates
    [VString "localhost"; VInteger 8080; VObject [];
     VArray [VInteger 0; VInteger 0; VInteger 10]; VInteger 0; VInteger 1; VFunction 7]
    sample_session =
  Returns None [errorCallback 7 "Could not identify 'read' from args"].
Proof.
  split.
  - refine (proj1 (proj2 (proj2
              (proj1 (spatial_dispatch_by_bbox_length plain_host always_allocates
                        (VString "localhost") (VInteger 8080) (VObject [])
                        [VInteger 0; VInteger 0; VInteger 10; VInteger 10; VString "ignored"]
                        (VInteger 0) (VInteger 1) 7%nat sample_session []
                        _ _ _ _ _ _) _))) _ _ _).
    + reflexivity.
    + vm_compute. reflexivity.
    + reflexivity.
    + reflexivity.
    + vm_compute. reflexivity.
    + vm_compute. reflexivity.
    + cbn. lia.
    + reflexivity.
    + vm_compute. reflexivity.
    + reflexivity.
  - refine (proj2 (spatial_dispatch_by_bbox_length plain_host always_allocates
                     (VString "localhost") (VInteger 8080) (VObject [])
                     [VInteger 0; VInteger 0; VInteger 10] (VInteger 0) (VInteger 1) 7%nat
                     sample_session [] _ _ _ _ _ _) _).
    + reflexivity.
    + vm_compute. reflexivity.
    + reflexivity.
    + reflexivity.
    + vm_compute. reflexivity.
    + vm_compute. reflexivity.
    + cbn. lia.
Defined.

(** ** The buffer comes back *)

Lemma read_work_set_cancel_commutes w rd b :
  read_work w (ReadData.set_cancel rd b) = ReadData.set_cancel (read_work w rd) b.
Proof.
  unfold read_work. destruct (points (engine w)); [|reflexivity].
  destruct (connect w); reflexivity.
Qed.

Lemma errMsg_empty rd :
  negb (String.length (ReadData.errMsg rd) =? 0)%nat = false ->
  ReadData.errMsg rd = EmptyString.
Proof. destruct (ReadData.errMsg rd); [reflexivity|discriminate]. Qed.

Lemma releasing_work w r : releasing w r -> releasing w (work w r).
Proof.
  unfold releasing. destruct r as [rd st es]. cbn [stage effects readData].
  destruct st as [| |offset|offset| | |]; intros H.
  - rewrite work_ReadWork. exact H.
  - destruct H as (Hr & Hd & Hs). rewrite work_ReadAfter. cbn [stage effects readData].
    rewrite releases_app, Hr. unfold read_after.
    destruct (negb _) eqn:He; cbn [fst snd app releases].
    + rewrite Hd. reflexivity.
    + split; [reflexivity|]. split; [exact Hd|]. split; [|lia].
      apply errMsg_empty in He. destruct Hs as [Hs|[Hs|Hs]]; [contradiction|auto|auto].
  - destruct H as (Hr & Hd & Hs & Ho). rewrite work_SendWork. cbn [stage effects readData].
    rewrite releases_app, Hr, releases_send_iteration. unfold send_iteration.
    destruct ((offset <? ReadData.numBytes rd) && negb (ReadData.cancel rd)) eqn:Hc;
      [|cbn [fst]; auto].
    apply andb_prop in Hc as [Hlt _]. apply Z.ltb_lt in Hlt.
    destruct (ReadData.bufferTransmitter rd) as [bt|] eqn:Hbt.
    + destruct (send w _ _); cbn [fst]; [|auto].
      split; [reflexivity|]. split; [exact Hd|]. split; [exact Hs|].
      apply (SizeTFacts.wrap_range (offset + chunkSize)).
    + exfalso. destruct Hs as [Hs|Hs]; [contradiction|lia].
  - destruct H as (Hr & Hd). rewrite work_SendLeft. cbn [stage effects readData].
    rewrite releases_app, Hr, releases_send_left. auto.
  - destruct H as (Hr & Hd). rewrite work_SendAfter. cbn [stage effects readData].
    rewrite releases_app, Hr, Hd. reflexivity.
  - exact H.
  - exact H.
Qed.

Lemma releasing_flag_cancel w r : releasing w r -> releasing w (flag_cancel r).
Proof.
  unfold releasing, flag_cancel. destruct r as [rd st es]. cbn [stage effects readData].
  destruct st; cbn [stage effects readData]; try (intros H; exact H).
  rewrite read_work_set_cancel_commutes. intros H. exact H.
Qed.

Lemma releasing_execute w steps r : releasing w r -> releasing w (execute w steps r).
Proof.
  revert r. induction steps as [|s steps IH]; intros r H; [exact H|].
  rewrite execute_cons. apply IH. destruct s; cbn [step].
  - apply releasing_work, H.
  - apply releasing_flag_cancel, H.
Qed.

(** The retrieval of a new record leaves it settled, unless the
    constructor of the transmitter fails with an empty message over a
    buffer that is not empty. *)
Lemma releasing_queued w pdalSession host port start count callback :
  (forall n e,
     points (engine w) = Return n -> connect w = Throw e ->
     message e <> EmptyString \/ SizeT.mul n (sessionStride pdalSession) = 0) ->
  releasing w (queued (ReadData.new pdalSession host port start count callback)).
Proof.
  intros Hw. unfold releasing, queued. cbn [stage effects readData].
  split; [reflexivity|]. split; [apply read_work_data|].
  unfold read_work. destruct (points (engine w)) as [n|e] eqn:Hn; [|right; right; reflexivity].
  destruct (connect w) as [u|e] eqn:Hc; cbn.
  - right. left. discriminate.
  - destruct (Hw n e eq_refl eq_refl) as [H|H]; auto.
Qed.

(** With the buffer in such hands, a piece of work runs into nothing
    undefined: the one way to the crash is a cancellation that comes
    after the deletion. *)
Lemma releasing_work_safe w r :
  releasing w r -> stage r <> Crashed -> stage (work w r) <> Crashed.
Proof.
  unfold releasing. destruct r as [rd st es]. cbn [stage effects readData].
  destruct st as [| |offset|offset| | |]; intros H Hne.
  - rewrite work_ReadWork. discriminate.
  - rewrite work_ReadAfter. cbn [stage]. destruct (read_after_stage rd) as [-> | ->]; discriminate.
  - destruct H as (_ & _ & Hs & Ho). rewrite work_SendWork. cbn [stage].
    unfold send_iteration.
    destruct ((offset <? ReadData.numBytes rd) && negb (ReadData.cancel rd)) eqn:Hc;
      [|discriminate].
    apply andb_prop in Hc as [Hlt _]. apply Z.ltb_lt in Hlt.
    destruct (ReadData.bufferTransmitter rd) as [bt|].
    + destruct (send w _ _); discriminate.
    + exfalso. destruct Hs as [Hs|Hs]; [contradiction|lia].
  - rewrite work_SendLeft. discriminate.
  - rewrite work_SendAfter. discriminate.
  - exact Hne.
  - exact Hne.
Qed.

Lemma crashed_after_deletion w steps r :
  releasing w r -> stage r <> Crashed ->
  stage (execute w steps r) = Crashed ->
  exists before after,
    steps = before ++ Cancel :: after /\ stage (execute w before r) = Deleted.
Proof.
  intros Hr Hne. induction steps as [|s steps IH] using rev_ind; intros Hc.
  - contradiction.
  - rewrite execute_app in Hc. cbn [execute fold_left] in Hc.
    destruct (stage (execute w steps r)) eqn:Hst.
    all: try (destruct s; cbn [step] in Hc;
              [exfalso; apply (releasing_work_safe w (execute w steps r));
                 [apply releasing_execute, Hr|rewrite Hst; discriminate|exact Hc]
              |unfold flag_cancel in Hc; rewrite Hst in Hc; discriminate Hc]).
    + (* the record was deleted *)
      destruct s; cbn [step] in Hc.
      * exfalso. apply (releasing_work_safe w (execute w steps r));
          [apply releasing_execute, Hr|rewrite Hst; discriminate|exact Hc].
      * exists steps, []. split; [reflexivity|exact Hst].
    + (* the crash is older *)
      destruct (IH eq_refl) as (before & after & -> & Hdel).
      exists before, (after ++ [s]). split; [|exact Hdel].
      rewrite <- app_assoc. reflexivity.
Qed.

(** C2, as amended. The buffer of a [ReadCommand] is allocated by its
    constructor: the command the factory returns already holds [m_stride
    * getNumPoints()] bytes although [run] has not been called on it.
    In the pipeline of [PdalBindings::read] the record is queued with a
    null buffer and the retrieval task stores the pointer the engine's
    [read] leaves behind. Under every schedule of work and cancellations
    the trace holds no [delete []] before the record is deleted, and
    exactly one, of that pointer, once it has been.
    And the record is deleted: under every schedule that holds
    [chunk_count numBytes + 5] pieces of work, with cancellations
    anywhere in it, the request has gone through the deletion of its
    record and its trace ends with exactly one [delete []] of the
    pointer, after a full transmission, after a transmission cut short
    by a cancellation or by a write that fails, and after a retrieval
    that fails, alike. This holds whatever the engine and the network
    answer, as long as a failure of the constructor of the transmitter
    carries a message that is not empty or the read is empty, and
    [numBytes] is at most [max_numBytes]. *)
Theorem buffer_released_exactly_once :
  (forall host_to_string can_allocate args pdalSession c calls,
     create host_to_string can_allocate args pdalSession = Returns (Some c) calls ->
     m_data c = Some (SizeT.mul (m_stride c) (getNumPoints pdalSession)) /\
     m_bufferTransmitter c = None /\
     m_numPoints c = 0) /\
  (forall w pdalSession host port start count callback steps,
     let r0 := queued (ReadData.new pdalSession host port start count callback) in
     let r := execute w steps r0 in
     ReadData.data (readData r0) = None /\
     ReadData.data (readData (work w r0)) = data_after (engine w) /\
     match stage r with
     | Deleted => releases (effects r) = [data_after (engine w)]
     | Crashed => (List.length (releases (effects r)) <= 1)%nat
     | _ => releases (effects r) = []
     end) /\
  (forall w pdalSession host port start count callback steps,
     let rd := ReadData.new pdalSession host port start count callback in
     let r0 := queued rd in
     let numBytes := ReadData.numBytes (read_work w rd) in
     0 <= numBytes <= max_numBytes ->
     (forall n e,
        points (engine w) = Return n -> connect w = Throw e ->
        message e <> EmptyString \/ SizeT.mul n (sessionStride pdalSession) = 0) ->
     (chunk_count numBytes + 5 <= pieces_of_work steps)%nat ->
     (exists before after,
        steps = before ++ after /\ stage (execute w before r0) = Deleted) /\
     releases (effects (execute w steps r0)) = [data_after (engine w)]).
Proof.
  split; [|split].
  - intros h a args pdalSession c calls H.
    destruct (create_returns_buffer h a args pdalSession c calls H)
      as (Hd & Hbt & Hn).
    auto.
  - intros w pdalSession host port start count callback steps. cbv zeta.
    split; [reflexivity|]. split; [apply read_work_data|].
    pose proof (release_invariant_execute w steps
                  (queued (ReadData.new pdalSession host port start count callback))
                  eq_refl) as H.
    unfold release_invariant in H.
    destruct (stage (execute w steps _)); tauto.
  - intros w pdalSession host port start count callback steps. cbv zeta.
    intros Hfit Hw Hsteps.
    pose proof (releasing_queued w pdalSession host port start count callback Hw) as H0.
    pose proof (releasing_execute w steps _ H0) as Hr.
    assert (Hend : stage (execute w steps
                            (queued (ReadData.new pdalSession host port start count callback))) =
                   Deleted \/
                   stage (execute w steps
                            (queued (ReadData.new pdalSession host port start count callback))) =
                   Crashed).
    { apply (work_left_done
               (ReadData.numBytes
                  (read_work w (ReadData.new pdalSession host port start count callback)))).
      destruct (on_course_execute w _ steps
                  (queued (ReadData.new pdalSession host port start count callback))
                  Hfit eq_refl) as [H|H]; [|exact H].
      cbn [queued stage work_left] in H. lia. }
    split.
    + destruct Hend as [Hd|Hc].
      * exists steps, []. rewrite app_nil_r. auto.
      * destruct (crashed_after_deletion w steps _ H0 ltac:(discriminate) Hc)
          as (before & after & -> & Hdel).
        exists before, (Cancel :: after). auto.
    + unfold releasing in Hr. destruct Hend as [Hd|Hc].
      * rewrite Hd in Hr. exact Hr.
      * rewrite Hc in Hr. exact Hr.
Qed.

Lemma buffer_released_exactly_once_witness :
  (m_data range_command =
     Some (SizeT.mul (m_stride range_command) (getNumPoints sample_session)) /\
   m_bufferTransmitter range_command = None /\
   m_numPoints range_command = 0) /\
  releases
    (effects (execute survey_world (Work :: Cancel :: repeat Work 7) (queued survey_request))) =
  [Some 150000].
Proof.
  split.
  - apply (proj1 buffer_released_exactly_once plain_host always_allocates
             range_call sample_session range_command []).
    vm_compute. reflexivity.
  - refine (proj2 (proj2 (proj2 buffer_released_exactly_once) survey_world survey_session
                     "localhost"%string 8080 0 9375 7%nat
                     (Work :: Cancel :: repeat Work 7) _ _ _)).
    + vm_compute. split; discriminate.
    + intros n e _ H. discriminate H.
    + apply Nat.leb_le. reflexivity.
Defined.

(** The failure the amended claim leaves out. The constructor of the
    transmitter throws an exception whose message is empty, after a read
    of 150000 bytes: the failure is taken for a success, the transmit
    loop goes through the null transmitter, and the buffer is not handed
    to [delete []]. *)
Example silent_constructor_failure_keeps_the_buffer :
  stage (execute silent_failure_world (repeat Work 3) (queued survey_request)) = Crashed /\
  forall steps,
    releases (effects (execute silent_failure_world (repeat Work 3 ++ steps)
                         (queued survey_request))) = [].
Proof.
  split; [reflexivity|].
  intros steps. rewrite execute_app, finished_execute by (right; reflexivity).
  reflexivity.
Qed.

(** ** What [cancel] reports *)

Lemma read_rejected args w obj obj' calls :
  PdalBindings.read args w obj = PdalBindings.ReadReturns obj' calls ->
  calls <> [] -> obj' = obj.
Proof.
  unfold PdalBindings.read.
  destruct (PdalBindings.check_args args) as [errMsg|e]; [|discriminate].
  destruct (arg args 4); try discriminate.
  destruct (negb _); [intros [= <- _]; reflexivity|].
  destruct (PdalBindings.m_pdalSession obj) as [session|]; [|discriminate].
  destruct (_ <=? _); [intros [= <- _]; reflexivity|].
  intros [= _ <-] H. contradiction.
Qed.

Lemma occur_all_m_readData events obj :
  PdalBindings.m_readData (fold_left occur events obj) = PdalBindings.m_readData obj.
Proof.
  revert obj. induction events as [|ev events IH]; intros obj; [reflexivity|].
  cbn [fold_left]. rewrite IH. apply occur_m_readData.
Qed.

(** C3, as amended. Take an object whose read record, when it points at
    one, has not been deleted. [cancel] returns [true] exactly when
    there is a read in flight on the handle, and [false], changing
    nothing, when no read is known to it; and none becomes known through
    pieces of work and cancellations. A call that finds the read in
    flight raises its flag and leaves it in flight, and a second call in
    sequence returns [true] again and changes nothing. What makes a read
    known is a call of [read] that is accepted: it leaves the new record
    in flight with its flag down, and the object pointing at it; a call
    of [read] that is refused leaves the object as it was. *)
Theorem cancel_reports_a_known_read obj :
  record_alive obj ->
  let answer := fst (PdalBindings.cancel obj) in
  let obj' := snd (PdalBindings.cancel obj) in
  (answer = true <->
   exists p, PdalBindings.m_readData obj = Some p /\ PdalBindings.in_flight obj p = true) /\
  (PdalBindings.m_readData obj = None -> PdalBindings.cancel obj = (false, obj)) /\
  (forall p,
     PdalBindings.m_readData obj = Some p ->
     answer = true /\
     PdalBindings.m_readData obj' = Some p /\
     PdalBindings.in_flight obj' p = true /\
     PdalBindings.cancel_flag obj' p = Some true /\
     PdalBindings.cancel obj' = (true, obj')) /\
  record_alive obj' /\
  (PdalBindings.m_readData obj = None ->
   forall events, fst (PdalBindings.cancel (fold_left occur events obj)) = false) /\
  (forall args w read_obj calls,
     PdalBindings.read args w obj = PdalBindings.ReadReturns read_obj calls ->
     match calls with
     | [] =>
         let p := List.length (PdalBindings.tasks obj) in
         PdalBindings.m_readData read_obj = Some p /\
         PdalBindings.in_flight read_obj p = true /\
         PdalBindings.cancel_flag read_obj p = Some false /\
         record_alive read_obj
     | _ :: _ => read_obj = obj
     end).
Proof.
  intros Halive. cbv zeta.
  assert (Hflight : forall p,
            PdalBindings.m_readData obj = Some p ->
            fst (PdalBindings.cancel obj) = true /\
            PdalBindings.m_readData (snd (PdalBindings.cancel obj)) = Some p /\
            PdalBindings.in_flight (snd (PdalBindings.cancel obj)) p = true /\
            PdalBindings.cancel_flag (snd (PdalBindings.cancel obj)) p = Some true /\
            PdalBindings.cancel (snd (PdalBindings.cancel obj)) =
              (true, snd (PdalBindings.cancel obj))).
  { intros p Hp.
    destruct (in_flight_lookup obj p (Halive p Hp)) as (task & Hl & Hnd & Hnc).
    assert (Hlt : (p < List.length (PdalBindings.tasks obj))%nat)
      by (apply lookup_lt_is_Some; eauto).
    unfold PdalBindings.cancel. rewrite Hp, Hl. cbn [fst snd PdalBindings.m_readData
      PdalBindings.tasks].
    rewrite (flag_cancel_in_flight _ Hnd Hnc).
    split; [reflexivity|]. split; [reflexivity|].
    unfold PdalBindings.in_flight, PdalBindings.cancel_flag.
    cbn [PdalBindings.tasks PdalBindings.m_readData].
    rewrite !list_lookup_insert_eq by exact Hlt.
    cbn [PdalBindings.request PdalBindings.world stage readData effects].
    split; [destruct (stage (PdalBindings.request task)); congruence|].
    split; [reflexivity|].
    rewrite list_insert_insert_eq. unfold flag_cancel. cbn [stage readData effects].
    destruct (stage (PdalBindings.request task)); try congruence; reflexivity. }
  split; [|split; [|split; [|split; [|split]]]].
  - split.
    + intros Ha. destruct (PdalBindings.m_readData obj) as [p|] eqn:Hp.
      * exists p. split; [reflexivity|]. apply Halive, Hp.
      * unfold PdalBindings.cancel in Ha. rewrite Hp in Ha. discriminate Ha.
    + intros (p & Hp & _). apply (Hflight p Hp).
  - unfold PdalBindings.cancel. intros ->. reflexivity.
  - exact Hflight.
  - intros p Hp.
    destruct (PdalBindings.m_readData obj) as [q|] eqn:Hq.
    + destruct (Hflight q eq_refl) as (_ & Hp' & Hin & _).
      rewrite Hp' in Hp. injection Hp as <-. exact Hin.
    + unfold PdalBindings.cancel in Hp. rewrite Hq in Hp. cbn in Hp. congruence.
  - intros Hnone events. unfold PdalBindings.cancel.
    rewrite occur_all_m_readData, Hnone. reflexivity.
  - intros args w read_obj calls H. destruct calls as [|call calls].
    + cbv zeta. unfold PdalBindings.read in H.
      destruct (PdalBindings.check_args args) as [errMsg|e]; [|discriminate].
      destruct (arg args 4); try discriminate.
      destruct (negb _); [discriminate|].
      destruct (PdalBindings.m_pdalSession obj) as [session|]; [|discriminate].
      destruct (_ <=? _); [discriminate|].
      injection H as <-.
      assert (Hin : PdalBindings.in_flight
                      {| PdalBindings.m_pdalSession := Some session;
                         PdalBindings.m_readData := Some (List.length (PdalBindings.tasks obj));
                         PdalBindings.tasks :=
                           PdalBindings.tasks obj ++
                           [{| PdalBindings.world := w;
                               PdalBindings.request :=
                                 queued (ReadData.new session
                                           match arg args 0 with
                                           | VString s => c_str s
                                           | _ => EmptyString
                                           end
                                           (Uint32Value (arg args 1))
                                           (Uint32Value (arg args 2))
                                           (Uint32Value (arg args 3)) id) |}] |}
                      (List.length (PdalBindings.tasks obj)) = true).
      { unfold PdalBindings.in_flight. cbn [PdalBindings.tasks].
        rewrite list_lookup_middle by reflexivity. reflexivity. }
      split; [reflexivity|]. split; [exact Hin|]. split.
      * unfold PdalBindings.cancel_flag. cbn [PdalBindings.tasks].
        rewrite list_lookup_middle by reflexivity. reflexivity.
      * intros p [= <-]. exact Hin.
    + apply (read_rejected args w obj read_obj (call :: calls) H). discriminate.
Qed.

Lemma cancel_reports_a_known_read_witness :
  PdalBindings.cancel (snd (PdalBindings.cancel survey_reading)) =
  (true, snd (PdalBindings.cancel survey_reading)).
Proof.
  refine (proj2 (proj2 (proj2 (proj2
            (proj1 (proj2 (proj2
               (cancel_reports_a_known_read survey_reading _))) 0%nat _))))).
  - intros p H. injection H as <-. reflexivity.
  - reflexivity.
Defined.
